(** * sbom-utility: validation orchestration, resource listing and the
    custom CycloneDX marshallers

  A shallow embedding of
  - [schema/cyclonedx_marshal.go] (module [Marshal]),
  - [cmd/validate.go], function [Validate] and its helpers (module
    [ValidateCmd]),
  - [cmd/validate.go], second part: the resource listing command
    (module [ResourceCmd]).

  Go strings are byte strings: they are modelled by [string], whose
  characters are the 256 byte values. *)

From Stdlib Require Import Ascii String NArith List Sorted Permutation Lia.
From Stdlib Require Import OrderedTypeEx.
From stdpp Require Import base option list strings gmap.

Set Warnings "-register-all".
Local Open Scope string_scope.

(** ** Byte literals *)

Definition byte_of (n : N) : ascii := ascii_of_N n.
Definition TAB : string := String (byte_of 9) "".

(** ** unicode/utf8 and the string coercion of encoding/json *)

Module Utf8.

Local Open Scope N_scope.

Definition in_range (lo hi : N) (b : ascii) : bool :=
  (lo <=? N_of_ascii b) && (N_of_ascii b <=? hi).

(** Continuation bytes are 0x80..0xBF. *)
Definition is_cont (b : ascii) : bool := in_range 0x80 0xBF b.

(** The table [first] with its accept ranges: for a leading byte above
    0x7F, the length of the sequence and the range allowed for the
    second byte; [None] for a byte that cannot start a sequence. *)
Definition first (c0 : N) : option (nat * N * N) :=
  if c0 <? 0xC2 then None
  else if c0 <=? 0xDF then Some (2%nat, 0x80, 0xBF)
  else if c0 =? 0xE0 then Some (3%nat, 0xA0, 0xBF)
  else if c0 =? 0xED then Some (3%nat, 0x80, 0x9F)
  else if c0 <=? 0xEF then Some (3%nat, 0x80, 0xBF)
  else if c0 =? 0xF0 then Some (4%nat, 0x90, 0xBF)
  else if c0 <=? 0xF3 then Some (4%nat, 0x80, 0xBF)
  else if c0 =? 0xF4 then Some (4%nat, 0x80, 0x8F)
  else None.

(** U+FFFD, the replacement rune, in UTF-8. *)
Definition RuneError : string :=
  String (byte_of 0xEF) (String (byte_of 0xBF) (String (byte_of 0xBD) "")).

(** Length in bytes of the well-formed sequence at the head of [s]; 0
    when the head is not a well-formed sequence (DecodeRuneInString
    then answers RuneError with size 1) or [s] is empty. *)
Definition seq_len (s : string) : nat :=
  match s with
  | "" => 0%nat
  | String b0 r0 =>
      if N_of_ascii b0 <? 0x80 then 1%nat
      else match first (N_of_ascii b0), r0 with
           | Some (sz, lo, hi), String b1 r1 =>
               if in_range lo hi b1 then
                 match sz, r1 with
                 | 2%nat, _ => 2%nat
                 | _, String b2 r2 =>
                     if is_cont b2 then
                       match sz, r2 with
                       | 3%nat, _ => 3%nat
                       | _, String b3 _ =>
                           if is_cont b3 then 4%nat else 0%nat
                       | _, _ => 0%nat
                       end
                     else 0%nat
                 | _, _ => 0%nat
                 end
               else 0%nat
           | _, _ => 0%nat
           end
  end.

(** utf8.ValidString *)
Fixpoint ValidString (s : string) : bool :=
  match s with
  | "" => true
  | String b0 r0 =>
      match seq_len s, r0 with
      | 1%nat, _ => ValidString r0
      | 2%nat, String _ r1 => ValidString r1
      | 3%nat, String _ (String _ r2) => ValidString r2
      | 4%nat, String _ (String _ (String _ r3)) => ValidString r3
      | _, _ => false
      end
  end.

(** What the JSON encoder makes of a Go string ("String values encode
    as JSON strings coerced to valid UTF-8, replacing invalid bytes
    with the Unicode replacement rune"): well-formed sequences are
    kept, every other byte becomes U+FFFD. *)
Fixpoint coerce (s : string) : string :=
  match s with
  | "" => ""
  | String b0 r0 =>
      match seq_len s, r0 with
      | 1%nat, _ => String b0 (coerce r0)
      | 2%nat, String b1 r1 => String b0 (String b1 (coerce r1))
      | 3%nat, String b1 (String b2 r2) =>
          String b0 (String b1 (String b2 (coerce r2)))
      | 4%nat, String b1 (String b2 (String b3 r3)) =>
          String b0 (String b1 (String b2 (String b3 (coerce r3))))
      | _, _ => RuneError ++ coerce r0
      end
  end.

End Utf8.

(** ** Errors

  The Go [error] interface: one constructor per concrete error type
  that the modelled functions create or dispatch on; a nil error is
  [None] in [option error]. *)

(** gojsonschema.ResultError, one per schema violation. *)
Record ResultError := {
  re_Field : string;
  re_Description : string;
  re_Value : string
}.

Inductive error :=
| JsonSyntaxError (msg : string) (offset : Z)          (* *json.SyntaxError *)
| JsonUnmarshalTypeError (value : string) (field : string)
                                           (* *json.UnmarshalTypeError *)
| UnsupportedFormatError (msg file format cmd flags : string)
| InvalidSBOMError (file msg : string) (inner : option error)
                 (schemaErrors : list ResultError)
| ErrorString (s : string)                     (* fmt.Errorf, errors.New *)
| LoggedError (fmt : string) (args : list string) (cause : option error)
                                                 (* getLogger().Errorf *)
| OtherError (s : string).                     (* any other error value *)

Definition IsInvalidSBOMError (e : error) : bool :=
  match e with InvalidSBOMError _ _ _ _ => true | _ => false end.

Definition IsJsonSyntaxError (e : error) : bool :=
  match e with JsonSyntaxError _ _ => true | _ => false end.

Definition IsUnsupportedFormatError (e : error) : bool :=
  match e with UnsupportedFormatError _ _ _ _ _ => true | _ => false end.

(** ** Types shared by the two commands *)

(** utils.PersistentCommandFlags *)
Record PersistentCommandFlags := {
  InputFile : string;
  OutputFile : string;
  OutputFormat : string
}.

(** schema.FormatSchema, the format that was detected for a document. *)
Record FormatSchema := { CanonicalName : string }.

(** ** schema/cyclonedx_marshal.go *)

Module Marshal.

(** The dynamic values the marshallers put in [map[string]interface{}]:
    strings and nested maps. *)
Inductive govalue :=
| GoString (s : string)
| GoMap (m : gmap string govalue).

(** A JSON text, identified with the document it denotes: the escapes
    of the encoder are undone by the decoder, so that a string is given
    by its content, in UTF-8. Objects are finite maps from member names
    to documents; only the two kinds of value that the marshallers emit
    are needed. *)
Inductive json :=
| JString (s : string)
| JObject (o : gmap string json).

(** The three structs, with the fields the marshallers read. *)
Record CDXAttachment := {
  ContentType : string;
  Encoding : string;
  Content : string
}.

Record CDXLicense := {
  Id : string;
  Name : string;
  Url : string;
  Text : CDXAttachment
}.

Record CDXLicenseChoice := {
  License : CDXLicense;
  Expression : string
}.

#[global] Instance CDXAttachment_eq_dec : EqDecision CDXAttachment.
Proof. solve_decision. Defined.
#[global] Instance CDXLicense_eq_dec : EqDecision CDXLicense.
Proof. solve_decision. Defined.

(** [CDXAttachment{}] and [CDXLicense{}] *)
Definition CDXAttachment_zero : CDXAttachment :=
  {| ContentType := ""; Encoding := ""; Content := "" |}.
Definition CDXLicense_zero : CDXLicense :=
  {| Id := ""; Name := ""; Url := ""; Text := CDXAttachment_zero |}.

(** json.Marshal on a string or map value: strings are coerced to
    valid UTF-8, maps become objects. It does not fail on such
    values. The member names used here are ASCII constants. *)
Fixpoint encode (v : govalue) : json :=
  match v with
  | GoString s => JString (Utf8.coerce s)
  | GoMap m => JObject (encode <$> m)
  end.

(** json.Unmarshal into an [interface{}]: a JSON string gives a Go
    string, an object gives a [map[string]interface{}]. *)
Fixpoint decode (j : json) : govalue :=
  match j with
  | JString s => GoString s
  | JObject o => GoMap (decode <$> o)
  end.

(** [json.Marshal(temp)] for [temp : map[string]interface{}]. *)
Definition json_Marshal (temp : gmap string govalue)
  : option json * option error :=
  (Some (encode (GoMap temp)), None).

(** [json.Unmarshal(bData, &m)] for [m : map[string]interface{}]. *)
Definition json_Unmarshal_map (bData : json)
  : gmap string govalue * option error :=
  match bData with
  | JObject o => (decode <$> o, None)
  | JString _ =>
      (∅, Some (JsonUnmarshalTypeError "string" "map[string]interface {}"))
  end.

(** [func (value *CDXAttachment) MarshalJSON() ([]byte, error)] *)
Definition CDXAttachment_MarshalJSON (value : CDXAttachment)
  : option json * option error :=
  let temp : gmap string govalue := ∅ in
  let temp :=
    if decide (ContentType value ≠ "")
    then <["contentType" := GoString (ContentType value)]> temp else temp in
  let temp :=
    if decide (Encoding value ≠ "")
    then <["encoding" := GoString (Encoding value)]> temp else temp in
  let temp :=
    if decide (Content value ≠ "")
    then <["content" := GoString (Content value)]> temp else temp in
  json_Marshal temp.

(** [func (value *CDXLicense) MarshalJSON() (bytes []byte, err error)] *)
Definition CDXLicense_MarshalJSON (value : CDXLicense)
  : option json * option error :=
  let temp : gmap string govalue := ∅ in
  let temp :=
    if decide (Id value ≠ "")
    then <["id" := GoString (Id value)]> temp else temp in
  let temp :=
    if decide (Name value ≠ "")
    then <["name" := GoString (Name value)]> temp else temp in
  let temp :=
    if decide (Url value ≠ "")
    then <["url" := GoString (Url value)]> temp else temp in
  if decide (Text value ≠ CDXAttachment_zero) then
    match CDXAttachment_MarshalJSON (Text value) with
    | (_, Some err) => (None, Some err)
    | (None, None) => (None, Some (OtherError "json: error calling MarshalJSON"))
    | (Some bData, None) =>
        match json_Unmarshal_map bData with
        | (_, Some err) => (None, Some err)
        | (m, None) => json_Marshal (<["text" := GoMap m]> temp)
        end
    end
  else json_Marshal temp.

(** [func (value *CDXLicenseChoice) MarshalJSON() (bytes []byte, err error)] *)
Definition CDXLicenseChoice_MarshalJSON (value : CDXLicenseChoice)
  : option json * option error :=
  let temp : gmap string govalue := ∅ in
  let temp :=
    if decide (Expression value ≠ "")
    then <["expression" := GoString (Expression value)]> temp else temp in
  if decide (License value ≠ CDXLicense_zero) then
    match CDXLicense_MarshalJSON (License value) with
    | (_, Some err) => (None, Some err)
    | (None, None) => (None, Some (OtherError "json: error calling MarshalJSON"))
    | (Some bData, None) =>
        match json_Unmarshal_map bData with
        | (_, Some err) => (None, Some err)
        | (m, None) => json_Marshal (<["license" := GoMap m]> temp)
        end
    end
  else json_Marshal temp.

(** json.Unmarshal of a JSON text into a [CDXAttachment]. The decoder
    matches member names to the fields [ContentType], [Encoding] and
    [Content] (it compares names without regard to case, so the names
    that [MarshalJSON] writes are matched): a member whose value is a
    string sets its field, the other fields keep their zero value, and
    a value of another kind is reported as a type error. *)
Definition string_member (o : gmap string json) (k : string)
  : string * option error :=
  match o !! k with
  | None => ("", None)
  | Some (JString s) => (s, None)
  | Some (JObject _) => ("", Some (JsonUnmarshalTypeError "object" k))
  end.

Definition first_error (es : list (option error)) : option error :=
  match omap id es with e :: _ => Some e | [] => None end.

Definition CDXAttachment_Unmarshal (data : json)
  : CDXAttachment * option error :=
  match data with
  | JObject o =>
      let '(ct, e1) := string_member o "contentType" in
      let '(en, e2) := string_member o "encoding" in
      let '(co, e3) := string_member o "content" in
      ({| ContentType := ct; Encoding := en; Content := co |},
       first_error [e1; e2; e3])
  | JString _ =>
      (CDXAttachment_zero,
       Some (JsonUnmarshalTypeError "string" "CDXAttachment"))
  end.

(** *** Vocabulary for the properties, and sample values *)

(** The member that a field contributes to the encoded object: none for
    an empty field, else its JSON string. *)
Definition member_of (s : string) : option json :=
  if decide (s = "") then None else Some (JString (Utf8.coerce s)).

(** The object that encodes an attachment. *)
Definition attachment_object (a : CDXAttachment) : gmap string json :=
  let put k s (o : gmap string json) :=
    match member_of s with Some j => <[k := j]> o | None => o end in
  put "content" (Content a)
    (put "encoding" (Encoding a) (put "contentType" (ContentType a) ∅)).

(** What the parser gives back after the encoder: the fields coerced to
    valid UTF-8. *)
Definition coerce_attachment (a : CDXAttachment) : CDXAttachment :=
  {| ContentType := Utf8.coerce (ContentType a);
     Encoding := Utf8.coerce (Encoding a);
     Content := Utf8.coerce (Content a) |}.

(** The round trip as one would wish it: the encoder succeeds and the
    parser gives the attachment back. *)
Definition roundtrip_exact (a : CDXAttachment) : Prop :=
  exists data,
    CDXAttachment_MarshalJSON a = (Some data, None) /\
    CDXAttachment_Unmarshal data = (a, None).

(** An attachment with two populated fields, both valid UTF-8. *)
Definition attachment_sample : CDXAttachment :=
  {| ContentType := "text/plain"; Encoding := "base64"; Content := "" |}.

(** An attachment whose content is the single byte 0xFF, which is not
    valid UTF-8: the encoder writes U+FFFD for it, and the parser gives
    the three bytes of U+FFFD back. *)
Definition attachment_invalid_utf8 : CDXAttachment :=
  {| ContentType := ""; Encoding := ""; Content := String (byte_of 255) "" |}.

Definition license_choice_sample : CDXLicenseChoice :=
  {| License := CDXLicense_zero; Expression := "Apache-2.0 OR MIT" |}.

End Marshal.

(** ** cmd/validate.go: Validate *)

Module ValidateCmd.

Definition VALID : bool := true.
Definition INVALID : bool := false.

Definition FLAG_VALIDATE_CUSTOM : string := "custom".
Definition PROTOCOL_PREFIX_FILE : string := "file://".

(** [const RETRY int = 3] *)
Definition RETRY : nat := 3.

(** utils.ValidateCommandFlags *)
Record ValidateCommandFlags := {
  ForcedJsonSchemaFile : string;
  SchemaVariant : string;
  CustomValidation : bool;
  ColorizeErrorOutput : bool;
  MaxNumErrors : Z;
  ShowErrorValue : bool
}.

(** schema.Sbom, with the parts of it that Validate reads or writes. The
    typed projection [CdxBom] is only stored, never inspected here. *)
Record FormatSchemaInstance := { File : string }.
Inductive CDXBom := MkCDXBom (content : string).

Record Sbom := {
  filename : string;
  rawBytes : string;
  FormatInfo : FormatSchema;
  SchemaInfo : FormatSchemaInstance;
  CdxBom : option CDXBom
}.

Definition GetFilename (d : Sbom) : string := filename d.
Definition GetRawBytes (d : Sbom) : string := rawBytes d.

Definition set_CdxBom (d : Sbom) (b : option CDXBom) : Sbom :=
  {| filename := filename d; rawBytes := rawBytes d;
     FormatInfo := FormatInfo d; SchemaInfo := SchemaInfo d; CdxBom := b |}.

(** gojsonschema: loaders are values, a compiled schema is a handle, a
    result answers [Valid()] and [Errors()]. *)
Inductive JSONLoader :=
| NewReferenceLoader (source : string)
| NewBytesLoader (source : string).

Inductive Schema := MkSchema (id : string).

Record Result := { Valid : bool; Errors : list ResultError }.

(** What Validate calls outside this file, and the constants declared
    elsewhere in the package. Functions of the package and of the
    libraries are parameters of the model; those returning a pointer and
    an error return both, either of which may be nil. [NewSchema] takes
    the number of the attempt, since two attempts on the same loader may
    differ (schemas referenced over the network). The document pointer
    that the loader returns is allocated before the file is read. *)
Record Env := {
  LoadInputSbomFileAndDetectSchema : Sbom * option error;
  IsCycloneDx : FormatSchema -> bool;
  ReadFile : string -> string * option error;
  NewSchema : nat -> JSONLoader -> option Schema * option error;
  Schema_Validate : Schema -> JSONLoader -> option Result * option error;
  UnMarshalDocument : Sbom -> option CDXBom * option error;
  validateCustomCDXDocument : Sbom -> option error;
  Error : error -> string;
  FORMAT_TEXT : string;
  FORMAT_JSON : string;
  FORMAT_CSV : string;
  CMD_VALIDATE : string;
  MSG_SCHEMA_ERRORS : string;
  MSG_FORMAT_UNSUPPORTED_COMMAND : string
}.

(** The observable steps of a run: calls that leave the function,
    warnings, the formatted report, and what [validationError] logs.
    The other lines of the logger (entry, exit, information) are left
    out. *)
Inductive event :=
| EvLoadInput
| EvReadFile (name : string)
| EvNewSchema (attempt : nat) (loader : JSONLoader)
| EvWarnRetry (errLoad : error)
| EvSchemaValidate (schema : Schema) (documentLoader : JSONLoader)
| EvFormatSchemaErrors (errs : list ResultError) (format : string)
| EvWarnInvalidFormat (format : string)
| EvUnMarshalDocument
| EvValidateCustomCDXDocument
| EvDisplayJSONErrorDetails (raw : string) (e : error)
| EvLogInvalidState (e : error)
| EvLogError (e : error)
| EvLogInfoValid (file : string) (valid : bool).

(** *** A small monad: a trace of events, an early [return], a panic *)

Inductive step (R A : Type) :=
| Next (a : A)
| Return (r : R)
| Panic.
Arguments Next {R A} a.
Arguments Return {R A} r.
Arguments Panic {R A}.

Definition M (R A : Type) : Type := list event -> step R A * list event.

Definition ret {R A} (a : A) : M R A := fun t => (Next a, t).

Definition bind {R A B} (m : M R A) (k : A -> M R B) : M R B :=
  fun t =>
    match m t with
    | (Next a, t') => k a t'
    | (Return r, t') => (Return r, t')
    | (Panic, t') => (Panic, t')
    end.

Definition emit {R} (e : event) : M R unit :=
  fun t => (Next tt, (t ++ [e])%list).
Definition return_ {R A} (r : R) : M R A := fun t => (Return r, t).
Definition panic {R A} : M R A := fun t => (Panic, t).

(** A call to the outside: the event, then the answer. *)
Definition call {R A} (e : event) (a : A) : M R A :=
  bind (emit e) (fun _ => ret a).

Notation "'let*' p ':=' m 'in' k" := (bind m (fun p => k))
  (at level 10, p pattern, m at level 100, k at level 200).
Notation "m ';;;' k" := (bind m (fun _ => k))
  (at level 100, k at level 200, right associativity).

(** The four results of Validate. *)
Record results := {
  valid : bool;
  document : Sbom;
  schemaErrors : list ResultError;
  err : option error
}.

Inductive outcome :=
| Returned (r : results)
| Panicked.

(** A length test on a slice. *)
Definition nonempty {A} (l : list A) : bool :=
  match l with [] => false | _ => true end.

Definition NewInvalidSBOMError (d : Sbom) (msg : string)
    (inner : option error) (errs : list ResultError) : error :=
  InvalidSBOMError (GetFilename d) msg inner errs.

(** [func validationError(document *schema.Sbom, valid bool, err error)] *)
Definition validationError {R} (d : Sbom) (valid : bool) (err : option error)
  : M R unit :=
  (match err with
   | Some e =>
       match e with
       | JsonUnmarshalTypeError _ _ =>
           emit (EvDisplayJSONErrorDetails (GetRawBytes d) e)
       | JsonSyntaxError _ _ =>
           emit (EvDisplayJSONErrorDetails (GetRawBytes d) e)
       | InvalidSBOMError _ _ _ _ =>
           (if valid then emit (EvLogInvalidState e) else ret tt) ;;;
           emit (EvLogError e)
       | _ => emit (EvLogError e)
       end
   | None => ret tt
   end) ;;;
  emit (EvLogInfoValid (GetFilename d) valid).

(** [func validateCustom(document *schema.Sbom) (valid bool, err error)];
    the document is updated in place, so it is returned as well. *)
Definition validateCustom {R} (env : Env) (d : Sbom)
  : M R (bool * option error * Sbom) :=
  let* (d, err) :=
    (if IsCycloneDx env (FormatInfo d) then
       let* (bom, err) := call EvUnMarshalDocument (UnMarshalDocument env d) in
       ret (set_CdxBom d bom, err)
     else ret (d, None)) in
  match err with
  | Some e => ret (INVALID, Some e, d)
  | None =>
      let* err :=
        call EvValidateCustomCDXDocument (validateCustomCDXDocument env d) in
      match err with
      | Some e =>
          let e :=
            if negb (IsInvalidSBOMError e)
            then NewInvalidSBOMError d (Error env e) (Some e) []
            else e in
          ret (INVALID, Some e, d)
      | None => ret (VALID, None, d)
      end
  end.

(** The retry loop [for i := 0; i < RETRY; i++]: [n] iterations are
    left, [i] is the loop variable, [cur] the current values of
    [jsonSbomSchema] and [errLoad]. *)
Fixpoint compile_loop {R} (env : Env) (schemaLoader : JSONLoader)
    (n i : nat) (cur : option Schema * option error)
  : M R (option Schema * option error) :=
  match n with
  | O => ret cur
  | S n' =>
      let* cur :=
        call (EvNewSchema i schemaLoader) (NewSchema env i schemaLoader) in
      match snd cur with
      | None => ret cur
      | Some errLoad =>
          emit (EvWarnRetry errLoad) ;;;
          compile_loop env schemaLoader n' (S i) cur
      end
  end.

(** The body of Validate, up to its [return]s. *)
Definition Validate_body (env : Env) (persistentFlags : PersistentCommandFlags)
    (validateFlags : ValidateCommandFlags) : M results False :=
  let valid := false in
  let schemaErrors : list ResultError := [] in
  let* (document, err) :=
    call EvLoadInput (LoadInputSbomFileAndDetectSchema env) in
  match err with
  | Some e => return_ (Build_results INVALID document schemaErrors (Some e))
  | None =>
  if CustomValidation validateFlags && negb (IsCycloneDx env (FormatInfo document))
  then
    let err :=
      UnsupportedFormatError (MSG_FORMAT_UNSUPPORTED_COMMAND env)
        (GetFilename document) (CanonicalName (FormatInfo document))
        (CMD_VALIDATE env) FLAG_VALIDATE_CUSTOM in
    return_ (Build_results valid document schemaErrors (Some err))
  else
  let inputFile := InputFile persistentFlags in
  let documentLoader := NewReferenceLoader (PROTOCOL_PREFIX_FILE ++ inputFile) in
  let schemaName := File (SchemaInfo document) in
  let forcedSchemaFile := ForcedJsonSchemaFile validateFlags in
  let* (schemaName, schemaLoader) :=
    (if decide (forcedSchemaFile <> "") then
       let schemaName := "file://" ++ forcedSchemaFile in
       ret (schemaName, Some (NewReferenceLoader schemaName))
     else
       let* (bSchema, errRead) :=
         call (EvReadFile (File (SchemaInfo document)))
              (ReadFile env (File (SchemaInfo document))) in
       match errRead with
       | Some e =>
           return_ (Build_results INVALID document schemaErrors (Some e))
       | None => ret (schemaName, Some (NewBytesLoader bSchema))
       end) in
  match schemaLoader with
  | None =>
      return_ (Build_results INVALID document schemaErrors
                 (Some (ErrorString ("unable to read schema: `" ++ schemaName ++ "`"))))
  | Some schemaLoader =>
  let* (jsonSbomSchema, errLoad) :=
    compile_loop env schemaLoader RETRY 0 (None, None) in
  match errLoad with
  | Some _ =>
      return_ (Build_results INVALID document schemaErrors
                 (Some (ErrorString ("unable to load schema: `" ++ schemaName ++ "`"))))
  | None =>
  match jsonSbomSchema with
  | None => panic                      (* method call on a nil *Schema *)
  | Some jsonSbomSchema =>
  let* (result, errValidate) :=
    call (EvSchemaValidate jsonSbomSchema documentLoader)
         (Schema_Validate env jsonSbomSchema documentLoader) in
  match result with
  | None => panic                      (* result.Valid() on a nil *Result *)
  | Some result =>
  let valid := Valid result in
  match errValidate with
  | Some e => return_ (Build_results INVALID document schemaErrors (Some e))
  | None =>
  let schemaErrors := Errors result in
  if nonempty schemaErrors then
    let errInvalid :=
      NewInvalidSBOMError document (MSG_SCHEMA_ERRORS env) None schemaErrors in
    let format := OutputFormat persistentFlags in
    (if String.eqb format (FORMAT_JSON env) || String.eqb format (FORMAT_CSV env)
        || String.eqb format (FORMAT_TEXT env)
     then emit (EvFormatSchemaErrors schemaErrors format)
     else emit (EvWarnInvalidFormat format) ;;;
          emit (EvFormatSchemaErrors schemaErrors (FORMAT_TEXT env))) ;;;
    return_ (Build_results INVALID document schemaErrors (Some errInvalid))
  else
  if CustomValidation validateFlags then
    let* (valid, err, document) := validateCustom env document in
    return_ (Build_results valid document schemaErrors err)
  else
    return_ (Build_results valid document schemaErrors None)
  end end end end end end.

(** [func Validate(output, persistentFlags, validateFlags)
       (valid bool, document *schema.Sbom, schemaErrors, err error)]:
    the body, then the deferred closure, which calls [validationError]
    when [err] is not nil and leaves the results as they are. *)
Definition Validate (env : Env) (persistentFlags : PersistentCommandFlags)
    (validateFlags : ValidateCommandFlags) : outcome * list event :=
  match Validate_body env persistentFlags validateFlags [] with
  | (Return r, t) =>
      match err r with
      | Some _ =>
          (Returned r,
           snd (validationError (R := results) (document r) (valid r) (err r) t))
      | None => (Returned r, t)
      end
  | (Next f, t) => match f with end
  | (Panic, t) => (Panicked, t)
  end.

(** *** Weakest preconditions for the monad of Validate *)

Definition wp {R A} (m : M R A) (Qn : A -> list event -> Prop)
    (Qr : R -> list event -> Prop) (Qp : list event -> Prop)
    (t : list event) : Prop :=
  match m t with
  | (Next a, t') => Qn a t'
  | (Return r, t') => Qr r t'
  | (Panic, t') => Qp t'
  end.

(** *** What the deferred closure logs *)

Definition validationError_log (d : Sbom) (valid : bool) (err : option error)
  : list event :=
  snd (validationError (R := results) d valid err []).

Definition deferred_log (r : results) : list event :=
  match err r with
  | Some _ => validationError_log (document r) (valid r) (err r)
  | None => []
  end.

(** *** Reading traces: the events of one kind *)

Definition is_NewSchema (e : event) : bool :=
  match e with EvNewSchema _ _ => true | _ => false end.

Definition is_SchemaValidate (e : event) : bool :=
  match e with EvSchemaValidate _ _ => true | _ => false end.

Definition is_LogInvalidState (e : event) : bool :=
  match e with EvLogInvalidState _ => true | _ => false end.

(** The number of attempts to compile the schema in a trace. *)
Definition count_NewSchema (t : list event) : nat :=
  length (List.filter is_NewSchema t).

Definition is_ReadFile (e : event) : bool :=
  match e with EvReadFile _ => true | _ => false end.

(** The runs of the loop: [loop_run env l n i cur r evs] when the loop
    with [n] turns left, at index [i], ends with [r] in
    [(jsonSbomSchema, errLoad)] after the events [evs]. *)
Inductive loop_run (env : Env) (l : JSONLoader)
  : nat -> nat -> option Schema * option error ->
    option Schema * option error -> list event -> Prop :=
| loop_end i cur : loop_run env l 0 i cur cur []
| loop_break n i cur :
    snd (NewSchema env i l) = None ->
    loop_run env l (S n) i cur (NewSchema env i l) [EvNewSchema i l]
| loop_retry n i cur errLoad r evs :
    snd (NewSchema env i l) = Some errLoad ->
    loop_run env l n (S i) (NewSchema env i l) r evs ->
    loop_run env l (S n) i cur r
      (EvNewSchema i l :: EvWarnRetry errLoad :: evs).

(** *** The shape of a run, as far as compiling goes

    Either the run ends before the loop, then without an attempt and
    without an evaluation; or the loop runs once, on some loader, the
    attempts of the trace are those of the loop, and when the loop ends
    on an error Validate returns [INVALID] with the error "unable to
    load schema" and does not evaluate. *)
Definition compile_shape (env : Env) (o : outcome) (t : list event) : Prop :=
  (List.filter is_NewSchema t = [] /\ List.filter is_SchemaValidate t = []) \/
  exists l r0 evs,
    loop_run env l RETRY 0 (None, None) r0 evs /\
    List.filter is_NewSchema t = List.filter is_NewSchema evs /\
    (snd r0 <> None ->
     List.filter is_SchemaValidate t = [] /\
     exists d name,
       o = Returned {| valid := false; document := d; schemaErrors := [];
                       err := Some (ErrorString
                                ("unable to load schema: `" ++ name ++ "`")) |}).

(** *** The document loader

    Modelled from the spec: [LoadInputSbomFileAndDetectSchema] is not
    among the sources. The spec has it parse the input bytes as JSON and
    fail on a syntax or type error, a parse error being reported with
    its byte offset; the comment at its call site says that JSON syntax
    errors come back as [encoding/json.SyntaxError]. Reading the file,
    the JSON parser and the detection of format and schema are
    parameters. *)

Inductive parse_outcome :=
| ParseOk
| ParseSyntaxError (msg : string) (offset : Z)
| ParseTypeError (value field : string).

Record InputWorld := {
  in_file : string;
  in_read : string * option error;
  in_parse : string -> parse_outcome;
  in_detect : Sbom -> Sbom * option error
}.

Definition NewSbom (file raw : string) : Sbom :=
  {| filename := file; rawBytes := raw;
     FormatInfo := {| CanonicalName := "" |};
     SchemaInfo := {| File := "" |}; CdxBom := None |}.

Definition LoadInputSbomFileAndDetectSchema_spec (w : InputWorld)
  : Sbom * option error :=
  match in_read w with
  | (_, Some e) => (NewSbom (in_file w) "", Some e)
  | (raw, None) =>
      let document := NewSbom (in_file w) raw in
      match in_parse w raw with
      | ParseSyntaxError msg offset =>
          (document, Some (JsonSyntaxError msg offset))
      | ParseTypeError value field =>
          (document, Some (JsonUnmarshalTypeError value field))
      | ParseOk => in_detect w document
      end
  end.

(** *** Sample runs *)

Definition sample_document : Sbom :=
  {| filename := "bom.json"; rawBytes := "{}";
     FormatInfo := {| CanonicalName := "CycloneDX" |};
     SchemaInfo := {| File := "schema/cyclonedx/1.4/bom-1.4.schema.json" |};
     CdxBom := None |}.

(** An environment made of a loader, a schema compiler and a validator;
    the rest succeeds. *)
Definition sample_env (load : Sbom * option error)
    (newSchema : nat -> JSONLoader -> option Schema * option error)
    (validate : option Result * option error) : Env :=
  {| LoadInputSbomFileAndDetectSchema := load;
     IsCycloneDx := fun f => String.eqb (CanonicalName f) "CycloneDX";
     ReadFile := fun _ => ("{}", None);
     NewSchema := newSchema;
     Schema_Validate := fun _ _ => validate;
     UnMarshalDocument := fun _ => (Some (MkCDXBom "{}"), None);
     validateCustomCDXDocument := fun _ => None;
     Error := fun _ => "error";
     FORMAT_TEXT := "txt";
     FORMAT_JSON := "json";
     FORMAT_CSV := "csv";
     CMD_VALIDATE := "validate";
     MSG_SCHEMA_ERRORS := "schema errors found";
     MSG_FORMAT_UNSUPPORTED_COMMAND := "format not supported for command" |}.

Definition sample_persistentFlags : PersistentCommandFlags :=
  {| InputFile := "bom.json"; OutputFile := ""; OutputFormat := "txt" |}.

Definition sample_validateFlags (forced : string) : ValidateCommandFlags :=
  {| ForcedJsonSchemaFile := forced; SchemaVariant := "";
     CustomValidation := false; ColorizeErrorOutput := false;
     MaxNumErrors := 10; ShowErrorValue := true |}.

Definition compile_ok : nat -> JSONLoader -> option Schema * option error :=
  fun _ _ => (Some (MkSchema "compiled"), None).

Definition compile_unavailable
  : nat -> JSONLoader -> option Schema * option error :=
  fun _ _ => (None, Some (OtherError "503 Service Unavailable")).

Definition sample_violation : ResultError :=
  {| re_Field := "(root)"; re_Description := "specVersion is required";
     re_Value := "" |}.

Definition sample_result : Result :=
  {| Valid := false; Errors := [sample_violation] |}.

(** A document that validates against its schema. *)
Definition env_valid : Env :=
  sample_env (sample_document, None) compile_ok
    (Some {| Valid := true; Errors := [] |}, None).

(** A document with one violation of its schema. *)
Definition env_violation : Env :=
  sample_env (sample_document, None) compile_ok (Some sample_result, None).

(** A schema that never compiles. *)
Definition env_unavailable : Env :=
  sample_env (sample_document, None) compile_unavailable (None, None).

(** A schema that compiles at the second attempt. *)
Definition compile_second
  : nat -> JSONLoader -> option Schema * option error :=
  fun i _ =>
    match i with
    | O => (None, Some (OtherError "503 Service Unavailable"))
    | S _ => (Some (MkSchema "compiled"), None)
    end.

Definition env_second : Env :=
  sample_env (sample_document, None) compile_second
    (Some {| Valid := true; Errors := [] |}, None).

(** An input that is cut short. *)
Definition input_truncated : InputWorld :=
  {| in_file := "bad.json";
     in_read := ("{", None);
     in_parse := fun _ => ParseSyntaxError "unexpected end of JSON input" 1;
     in_detect := fun d => (d, None) |}.

Definition env_truncated : Env :=
  sample_env (LoadInputSbomFileAndDetectSchema_spec input_truncated)
    compile_ok (None, None).

End ValidateCmd.

(** ** sort.Slice

    The library sorts a slice in place by a [less] function, which must
    be a strict weak ordering; the order of elements that compare equal
    is not specified. The model is any function that meets this
    contract. *)

Record StrictWeakOrder {A : Type} (less : A -> A -> bool) : Prop := {
  swo_irrefl : forall a, less a a = false;
  swo_trans : forall a b c,
    less a b = true -> less b c = true -> less a c = true;
  swo_incomp : forall a b c,
    less a b = false -> less b c = false -> less a c = false
}.

Class SortSlice := {
  sort_Slice : forall {A : Type}, (A -> A -> bool) -> list A -> list A;
  sort_Slice_Permutation :
    forall (A : Type) (less : A -> A -> bool) (l : list A),
      Permutation (sort_Slice less l) l;
  sort_Slice_sorted :
    forall (A : Type) (less : A -> A -> bool) (l : list A),
      StrictWeakOrder less ->
      StronglySorted (fun a b => less b a = false) (sort_Slice less l)
}.

(** One such function, to run the listings on examples. *)
Fixpoint insert_by {A : Type} (less : A -> A -> bool) (x : A) (l : list A)
  : list A :=
  match l with
  | [] => [x]
  | y :: l' => if less x y then x :: y :: l' else y :: insert_by less x l'
  end.

Definition insertion_sort {A : Type} (less : A -> A -> bool) (l : list A)
  : list A :=
  fold_right (insert_by less) [] l.

(** ** cmd/validate.go, second part: the resource command *)

Module ResourceCmd.

Definition NL : string := String (byte_of 10) "".

Definition RESOURCE_FILTER_KEY_TYPE : string := "type".
Definition RESOURCE_FILTER_KEY_NAME : string := "name".
Definition RESOURCE_FILTER_KEY_VERSION : string := "version".
Definition RESOURCE_FILTER_KEY_BOMREF : string := "bom-ref".

Definition RESOURCE_LIST_TITLES : list string :=
  [RESOURCE_FILTER_KEY_TYPE; RESOURCE_FILTER_KEY_NAME;
   RESOURCE_FILTER_KEY_VERSION; RESOURCE_FILTER_KEY_BOMREF].

Definition MSG_OUTPUT_NO_RESOURCES_FOUND : string :=
  "[WARN] no matching resources found for query".

(** schema.CDXResourceInfo, with the fields that are listed, and an entry
    of the resource map. Every value stored in the map is a
    [CDXResourceInfo], which the type assertions of the listings rely
    on. *)
Record CDXResourceInfo := {
  Type' : string;
  Name : string;
  Version : string;
  BOMRef : string
}.

Record Entry := { Key : string; Value : CDXResourceInfo }.

(** schema.BOM: [ResourceMap] is given by what [Entries()] returns, a
    new slice of the entries, in whatever order the map yields them. *)
Record BOM := {
  filename : string;
  FormatInfo : FormatSchema;
  ResourceMap : list Entry
}.

Definition Entries (m : list Entry) : list Entry := m.
Definition GetFilename (d : BOM) : string := filename d.

Record WhereFilter := { wf_key : string; wf_value : string }.

Record ResourceCommandFlags := { ResourceType : string }.

(** What the command calls outside this file, and constants declared
    elsewhere. The methods of the document that update it return the
    updated document. [csv_Write n record] is the error of the [n]-th
    call of [Write] on the csv writer. *)
Record Env := {
  LoadInputBOMFileAndDetectSchema : BOM * option error;
  IsCycloneDx : FormatSchema -> bool;
  UnmarshalCycloneDXBOM : BOM -> BOM * option error;
  HashComponentResources : BOM -> list WhereFilter -> BOM * option error;
  HashServiceResources : BOM -> list WhereFilter -> BOM * option error;
  createTitleTextSeparators : list string -> list string;
  createMarkdownRow : list string -> string;
  createMarkdownColumnAlignment : list string -> list string;
  csv_Write : nat -> list string -> option error;
  FORMAT_TEXT : string;
  FORMAT_CSV : string;
  FORMAT_MARKDOWN : string;
  FORMAT_ANY : string;
  CMD_LICENSE : string;
  MSG_FORMAT_UNSUPPORTED_COMMAND : string;
  RESOURCE_TYPE_DEFAULT : string;
  RESOURCE_TYPE_COMPONENT : string;
  RESOURCE_TYPE_SERVICE : string
}.

(** What a listing hands to its writer: a string per [Fprintf] (on the
    tabwriter or on the output itself), a record per [csv.Writer.Write]. *)
Inductive output :=
| Fprintf (s : string)
| CsvWrite (record : list string).

Inductive event :=
| EvLoadInputBOM
| EvUnmarshalCycloneDXBOM
| EvHashComponentResources
| EvHashServiceResources
| EvOutput (o : output)
| EvWarnFormat (format : string)
| EvLogError (e : error).

(** [schema.NewUnsupportedFormatForCommandError]: an
    [UnsupportedFormatError] for a command. *)
Definition NewUnsupportedFormatForCommandError (env : Env)
    (format file cmd flags : string) : error :=
  UnsupportedFormatError (MSG_FORMAT_UNSUPPORTED_COMMAND env)
    file format cmd flags.

(** The closure given to [sort.Slice], the same in the three listings. *)
Definition less (e1 e2 : Entry) : bool :=
  let resource1 := Value e1 in
  let resource2 := Value e2 in
  if negb (String.eqb (Type' resource1) (Type' resource2))
  then String.ltb (Type' resource1) (Type' resource2)
  else String.ltb (Name resource1) (Name resource2).

(** The four columns of an entry. *)
Definition line_of (entry : Entry) : list string :=
  let resourceInfo := Value entry in
  [Type' resourceInfo; Name resourceInfo;
   Version resourceInfo; BOMRef resourceInfo].

(** [fmt.Fprintf(w, "%s\t%s\t%s\t%s\n", ...)] *)
Definition text_line (entry : Entry) : string :=
  let resourceInfo := Value entry in
  Type' resourceInfo ++ TAB ++ Name resourceInfo ++ TAB ++
  Version resourceInfo ++ TAB ++ BOMRef resourceInfo ++ NL.

(** Ascending by type, then by name, on the bytes of the strings. *)
Definition by_type_then_name (e1 e2 : Entry) : Prop :=
  let r1 := Value e1 in
  let r2 := Value e2 in
  String_as_OT.lt (Type' r1) (Type' r2) \/
  (Type' r1 = Type' r2 /\
   (String_as_OT.lt (Name r1) (Name r2) \/ Name r1 = Name r2)).

Section Listings.

Context (env : Env) {sorter : SortSlice}.

(** The two lines that open the text listing. *)
Definition text_header : list output :=
  [Fprintf (String.concat TAB RESOURCE_LIST_TITLES ++ NL);
   Fprintf (String.concat TAB (createTitleTextSeparators env RESOURCE_LIST_TITLES)
            ++ NL)].

(** The two lines that open the Markdown listing. *)
Definition markdown_header : list output :=
  [Fprintf (createMarkdownRow env RESOURCE_LIST_TITLES ++ NL);
   Fprintf (createMarkdownRow env
              (createMarkdownColumnAlignment env RESOURCE_LIST_TITLES) ++ NL)].

(** [func DisplayResourceListText(bom *schema.BOM, writer io.Writer)]: no
    result; what is written to the tabwriter, flushed on exit. *)
Definition DisplayResourceListText (bom : BOM) : list output :=
  let underlines := createTitleTextSeparators env RESOURCE_LIST_TITLES in
  let w :=
    [Fprintf (String.concat TAB RESOURCE_LIST_TITLES ++ NL);
     Fprintf (String.concat TAB underlines ++ NL)] in
  let entries := Entries (ResourceMap bom) in
  if Nat.eqb (length entries) 0 then
    (w ++ [Fprintf (MSG_OUTPUT_NO_RESOURCES_FOUND ++ NL)])%list
  else
    let entries := sort_Slice less entries in
    (w ++ map (fun entry => Fprintf (text_line entry)) entries)%list.

(** The loop of the CSV listing: every line is written, and [err] is
    assigned at every turn. [n] counts the calls of [Write]. *)
Fixpoint csv_rows (n : nat) (err : option error) (entries : list Entry)
  : option error * list output :=
  match entries with
  | [] => (err, [])
  | entry :: rest =>
      let line := line_of entry in
      let err :=
        match csv_Write env n line with
        | Some e => Some (LoggedError "csv.Write: %w" [] (Some e))
        | None => None
        end in
      let '(err, w) := csv_rows (S n) err rest in
      (err, CsvWrite line :: w)
  end.

(** [func DisplayResourceListCSV(bom *schema.BOM, writer io.Writer) (err error)] *)
Definition DisplayResourceListCSV (bom : BOM) : option error * list output :=
  match csv_Write env 0 RESOURCE_LIST_TITLES with
  | Some e =>
      (Some (LoggedError "error writing to output (%v): %s"
               RESOURCE_LIST_TITLES (Some e)),
       [CsvWrite RESOURCE_LIST_TITLES])
  | None =>
      let entries := Entries (ResourceMap bom) in
      if Nat.eqb (length entries) 0 then
        let currentRow := [MSG_OUTPUT_NO_RESOURCES_FOUND] in
        match csv_Write env 1 currentRow with
        | Some e =>
            (Some (LoggedError "error writing to output (%v): %s"
                     currentRow (Some e)),
             [CsvWrite RESOURCE_LIST_TITLES; CsvWrite currentRow])
        | None =>
            (Some (ErrorString (hd "" currentRow)),
             [CsvWrite RESOURCE_LIST_TITLES; CsvWrite currentRow])
        end
      else
        let entries := sort_Slice less entries in
        let '(err, w) := csv_rows 1 None entries in
        (err, CsvWrite RESOURCE_LIST_TITLES :: w)
  end.

(** [func DisplayResourceListMarkdown(bom *schema.BOM, writer io.Writer) (err error)] *)
Definition DisplayResourceListMarkdown (bom : BOM)
  : option error * list output :=
  let titleRow := createMarkdownRow env RESOURCE_LIST_TITLES in
  let alignments := createMarkdownColumnAlignment env RESOURCE_LIST_TITLES in
  let alignmentRow := createMarkdownRow env alignments in
  let w := [Fprintf (titleRow ++ NL); Fprintf (alignmentRow ++ NL)] in
  let entries := Entries (ResourceMap bom) in
  if Nat.eqb (length entries) 0 then
    (Some (ErrorString MSG_OUTPUT_NO_RESOURCES_FOUND),
     (w ++ [Fprintf (MSG_OUTPUT_NO_RESOURCES_FOUND ++ NL)])%list)
  else
    let entries := sort_Slice less entries in
    (None,
     (w ++ map (fun entry => Fprintf (createMarkdownRow env (line_of entry) ++ NL))
             entries)%list).

(** [func loadDocumentResources(document *schema.BOM, resourceType string,
      whereFilters []common.WhereFilter) (err error)]; the document is
    updated in place, so it is returned with the error and the calls
    made. *)
Definition loadDocumentResources (document : BOM) (resourceType : string)
    (whereFilters : list WhereFilter) : BOM * option error * list event :=
  if negb (IsCycloneDx env (FormatInfo document)) then
    (document,
     Some (NewUnsupportedFormatForCommandError env
             (CanonicalName (FormatInfo document)) (GetFilename document)
             (CMD_LICENSE env) (FORMAT_ANY env)),
     [])
  else
    match UnmarshalCycloneDXBOM env document with
    | (document, Some e) => (document, Some e, [EvUnmarshalCycloneDXBOM])
    | (document, None) =>
        let t := [EvUnmarshalCycloneDXBOM] in
        let '(document, err, t) :=
          if String.eqb resourceType (RESOURCE_TYPE_DEFAULT env)
             || String.eqb resourceType (RESOURCE_TYPE_COMPONENT env)
          then
            let '(document, err) :=
              HashComponentResources env document whereFilters in
            (document, err, (t ++ [EvHashComponentResources])%list)
          else (document, None, t) in
        match err with
        | Some e => (document, Some e, t)
        | None =>
            if String.eqb resourceType (RESOURCE_TYPE_DEFAULT env)
               || String.eqb resourceType (RESOURCE_TYPE_SERVICE env)
            then
              let '(document, err) :=
                HashServiceResources env document whereFilters in
              (document, err, (t ++ [EvHashServiceResources])%list)
            else (document, None, t)
        end
    end.

(** [func processResourceListResults(err error)] *)
Definition processResourceListResults (err : option error) : list event :=
  match err with
  | Some e => [EvLogError e]
  | None => []
  end.

(** [func ListResources(writer, persistentFlags, resourceFlags,
      whereFilters) (err error)]: the results of the three listings are
    dropped; the deferred closure logs a non-nil [err]. Of a listing the
    trace keeps what it hands to its writer: the lines that the CSV
    listing logs itself when a [Write] fails are not events of the
    trace, and [EvLogError] is the line of [processResourceListResults]
    only. *)
Definition ListResources (persistentFlags : PersistentCommandFlags)
    (resourceFlags : ResourceCommandFlags) (whereFilters : list WhereFilter)
  : option error * list event :=
  let '(err, t) :=
    match LoadInputBOMFileAndDetectSchema env with
    | (_, Some e) => (Some e, [EvLoadInputBOM])
    | (document, None) =>
        let '(document, err, t) :=
          loadDocumentResources document (ResourceType resourceFlags)
            whereFilters in
        let t := (EvLoadInputBOM :: t)%list in
        match err with
        | Some e => (Some e, t)
        | None =>
            let format := OutputFormat persistentFlags in
            let w :=
              if String.eqb format (FORMAT_TEXT env) then
                map EvOutput (DisplayResourceListText document)
              else if String.eqb format (FORMAT_CSV env) then
                map EvOutput (snd (DisplayResourceListCSV document))
              else if String.eqb format (FORMAT_MARKDOWN env) then
                map EvOutput (snd (DisplayResourceListMarkdown document))
              else
                EvWarnFormat format ::
                map EvOutput (DisplayResourceListText document) in
            (None, (t ++ w)%list)
        end
    end in
  (err, (t ++ processResourceListResults err)%list).

End Listings.

(** *** Sample listings *)

Fixpoint dashes (n : nat) : string :=
  match n with O => "" | S n' => String "-" (dashes n') end.

Definition listing_env (load : BOM * option error) : Env :=
  {| LoadInputBOMFileAndDetectSchema := load;
     IsCycloneDx := fun f => String.eqb (CanonicalName f) "CycloneDX";
     UnmarshalCycloneDXBOM := fun d => (d, None);
     HashComponentResources := fun d _ => (d, None);
     HashServiceResources := fun d _ => (d, None);
     createTitleTextSeparators := map (fun s => dashes (String.length s));
     createMarkdownRow := fun l => "|" ++ String.concat "|" l ++ "|";
     createMarkdownColumnAlignment := map (fun _ => ":--");
     csv_Write := fun _ _ => None;
     FORMAT_TEXT := "txt";
     FORMAT_CSV := "csv";
     FORMAT_MARKDOWN := "md";
     FORMAT_ANY := "<any>";
     CMD_LICENSE := "license";
     MSG_FORMAT_UNSUPPORTED_COMMAND := "format not supported for command";
     RESOURCE_TYPE_DEFAULT := "";
     RESOURCE_TYPE_COMPONENT := "component";
     RESOURCE_TYPE_SERVICE := "service" |}.

Definition service_b : Entry :=
  {| Key := "service:b";
     Value := {| Type' := "service"; Name := "b"; Version := "2.0";
                 BOMRef := "ref-b" |} |}.

Definition component_a : Entry :=
  {| Key := "component:a";
     Value := {| Type' := "component"; Name := "a"; Version := "1.0";
                 BOMRef := "ref-a" |} |}.

Definition component_Zebra : Entry :=
  {| Key := "component:Zebra";
     Value := {| Type' := "component"; Name := "Zebra"; Version := "";
                 BOMRef := "" |} |}.

Definition sample_bom (entries : list Entry) : BOM :=
  {| filename := "bom.json";
     FormatInfo := {| CanonicalName := "CycloneDX" |};
     ResourceMap := entries |}.

Definition spdx_bom : BOM :=
  {| filename := "doc.spdx.json";
     FormatInfo := {| CanonicalName := "SPDX" |};
     ResourceMap := [] |}.

End ResourceCmd.

(** ** The marshallers of licences: the objects they return *)

Module MarshalObjects.
Import Marshal.

(** The member that a nested attachment contributes to the object of a
    licence: none for [CDXAttachment{}], else the object of the
    attachment. *)
Definition text_member (a : CDXAttachment) : option json :=
  if decide (a = CDXAttachment_zero) then None
  else Some (JObject (attachment_object a)).

(** The object that encodes a licence. *)
Definition license_object (l : CDXLicense) : gmap string json :=
  let put k (j : option json) (o : gmap string json) :=
    match j with Some j => <[k := j]> o | None => o end in
  put "text" (text_member (Text l))
    (put "url" (member_of (Url l))
       (put "name" (member_of (Name l))
          (put "id" (member_of (Id l)) ∅))).

(** The member that a nested licence contributes to the object of a
    licence choice. *)
Definition license_member (l : CDXLicense) : option json :=
  if decide (l = CDXLicense_zero) then None
  else Some (JObject (license_object l)).

(** The object that encodes a licence choice. *)
Definition choice_object (c : CDXLicenseChoice) : gmap string json :=
  let put k (j : option json) (o : gmap string json) :=
    match j with Some j => <[k := j]> o | None => o end in
  put "license" (license_member (License c))
    (put "expression" (member_of (Expression c)) ∅).

(** Sample values. *)
Definition license_sample : CDXLicense :=
  {| Id := "Apache-2.0"; Name := ""; Url := "";
     Text := {| ContentType := "text/plain"; Encoding := "";
                Content := "Apache License" |} |}.

Definition choice_both_sample : CDXLicenseChoice :=
  {| License := license_sample; Expression := "Apache-2.0 OR MIT" |}.

End MarshalObjects.

(** ** cmd/validate.go, second part: the rest of the resource command *)

Module ResourceImpl.
Import ResourceCmd.

Definition FLAG_RESOURCE_TYPE : string := "type".

(** What [resourceCmdImpl] and [retrieveResourceType] call outside the
    file: [createOutputFile] gives the output file (nil when there is
    none) and an error, [processWhereFlag] the filters and an error,
    [GetString] is [cmd.Flags().GetString]. *)
Record CmdEnv := {
  createOutputFile : string -> option string * option error;
  processWhereFlag : list WhereFilter * option error;
  GetString : string -> string * option error;
  IsValidResourceType : string -> bool
}.

Inductive cmd_event :=
| EvCreateOutputFile (name : string)
| EvProcessWhereFlag
| EvGetString (flag : string)
| EvListResources (resourceType : string) (whereFilters : list WhereFilter)
                  (t : list event)
| EvCloseOutputFile (file : string).

(** [func retrieveResourceType(cmd *cobra.Command)
       (resourceType string, err error)] *)
Definition retrieveResourceType (cenv : CmdEnv) : string * option error :=
  let '(resourceType, err) := GetString cenv FLAG_RESOURCE_TYPE in
  match err with
  | Some e => (resourceType, Some e)
  | None =>
      if negb (IsValidResourceType cenv resourceType) then
        (resourceType,
         Some (LoggedError "invalid resource `%s`: `%s`"
                 [FLAG_RESOURCE_TYPE; resourceType] None))
      else (resourceType, None)
  end.

(** [func resourceCmdImpl(cmd *cobra.Command, args []string) (err error)]:
    [err] is the named result, assigned by each of the calls in turn;
    the deferred closure closes the output file, if there is one. *)
Definition resourceCmdImpl (env : Env) {sorter : SortSlice} (cenv : CmdEnv)
    (persistentFlags : PersistentCommandFlags)
  : option error * list cmd_event :=
  let outputFilename := OutputFile persistentFlags in
  let '(outputFile, err) := createOutputFile cenv outputFilename in
  let '(whereFilters, err) := processWhereFlag cenv in
  let '(resourceType, err) := retrieveResourceType cenv in
  let t :=
    [EvCreateOutputFile outputFilename; EvProcessWhereFlag;
     EvGetString FLAG_RESOURCE_TYPE] in
  let '(err, t) :=
    match err with
    | None =>
        let resourceFlags := {| ResourceType := resourceType |} in
        let '(err, inner) :=
          ListResources env persistentFlags resourceFlags whereFilters in
        (err, (t ++ [EvListResources resourceType whereFilters inner])%list)
    | Some e => (Some e, t)
    end in
  match outputFile with
  | Some f => (err, (t ++ [EvCloseOutputFile f])%list)
  | None => (err, t)
  end.

(** *** Vocabulary for the properties, and sample values *)

(** The resource types for which the components, and the services, are
    hashed. *)
Definition selects_components (env : Env) (resourceType : string) : bool :=
  String.eqb resourceType (RESOURCE_TYPE_DEFAULT env)
  || String.eqb resourceType (RESOURCE_TYPE_COMPONENT env).

Definition selects_services (env : Env) (resourceType : string) : bool :=
  String.eqb resourceType (RESOURCE_TYPE_DEFAULT env)
  || String.eqb resourceType (RESOURCE_TYPE_SERVICE env).

(** How the CSV listing wraps the error of a write. *)
Definition csv_Write_error (o : option error) : option error :=
  match o with
  | Some e => Some (LoggedError "csv.Write: %w" [] (Some e))
  | None => None
  end.

(** An entry is told from the others by its type and name. *)
Definition distinct_type_name (entries : list Entry) : Prop :=
  forall e1 e2, In e1 entries -> In e2 entries ->
    Type' (Value e1) = Type' (Value e2) ->
    Name (Value e1) = Name (Value e2) -> e1 = e2.

(** [listing_env] with a csv writer of one's own. *)
Definition listing_env_csv (load : BOM * option error)
    (write : nat -> list string -> option error) : Env :=
  let env := listing_env load in
  {| LoadInputBOMFileAndDetectSchema := LoadInputBOMFileAndDetectSchema env;
     IsCycloneDx := IsCycloneDx env;
     UnmarshalCycloneDXBOM := UnmarshalCycloneDXBOM env;
     HashComponentResources := HashComponentResources env;
     HashServiceResources := HashServiceResources env;
     createTitleTextSeparators := createTitleTextSeparators env;
     createMarkdownRow := createMarkdownRow env;
     createMarkdownColumnAlignment := createMarkdownColumnAlignment env;
     csv_Write := write;
     FORMAT_TEXT := FORMAT_TEXT env;
     FORMAT_CSV := FORMAT_CSV env;
     FORMAT_MARKDOWN := FORMAT_MARKDOWN env;
     FORMAT_ANY := FORMAT_ANY env;
     CMD_LICENSE := CMD_LICENSE env;
     MSG_FORMAT_UNSUPPORTED_COMMAND := MSG_FORMAT_UNSUPPORTED_COMMAND env;
     RESOURCE_TYPE_DEFAULT := RESOURCE_TYPE_DEFAULT env;
     RESOURCE_TYPE_COMPONENT := RESOURCE_TYPE_COMPONENT env;
     RESOURCE_TYPE_SERVICE := RESOURCE_TYPE_SERVICE env |}.

(** A writer that fails at its call number 1, the first row. *)
Definition write_fails_at_1 (n : nat) (record : list string) : option error :=
  match n with
  | 1 => Some (OtherError "short write")
  | _ => None
  end.

Definition sample_cmd_env (type : string) (where_err : option error) : CmdEnv :=
  {| createOutputFile := fun _ => (None, Some (OtherError "permission denied"));
     processWhereFlag := ([], where_err);
     GetString := fun _ => (type, None);
     IsValidResourceType :=
       fun s => String.eqb s "" || String.eqb s "component"
                || String.eqb s "service" |}.

End ResourceImpl.

(** ** cmd/validate.go: validateCmdImpl *)

Module ValidateImpl.
Import ValidateCmd.

(** What [validateCmdImpl] uses from outside the file: [createOutputFile]
    gives the output file (nil when there is none) and an error; the two
    exit codes are constants of the package. *)
Record CmdEnv := {
  createOutputFile : string -> option string * option error;
  ERROR_APPLICATION : Z;
  ERROR_VALIDATION : Z
}.

Inductive cmd_event :=
| EvCreateOutputFile (name : string)
| EvCmdLogError (e : error)
| EvValidate (t : list event)
| EvCloseOutputFile (file : string).

(** How the command ends: [return nil], [os.Exit(code)], or a panic of
    Validate that goes through. *)
Inductive cmd_outcome :=
| ReturnedNil
| Exited (code : Z)
| CmdPanicked.

(** [func validateCmdImpl(cmd *cobra.Command, args []string) error].
    [os.Exit] ends the program at once, without running the deferred
    closure that closes the output file; the closure runs on [return]
    and when a panic unwinds. *)
Definition validateCmdImpl (env : Env) (cenv : CmdEnv)
    (persistentFlags : PersistentCommandFlags)
    (validateFlags : ValidateCommandFlags) : cmd_outcome * list cmd_event :=
  let outputFilename := OutputFile persistentFlags in
  let '(outputFile, err) := createOutputFile cenv outputFilename in
  match err with
  | Some e =>
      (Exited (ERROR_APPLICATION cenv),
       [EvCreateOutputFile outputFilename; EvCmdLogError e])
  | None =>
      let closing :=
        match outputFile with
        | Some f => [EvCloseOutputFile f]
        | None => []
        end in
      let '(o, inner) := Validate env persistentFlags validateFlags in
      let t := [EvCreateOutputFile outputFilename; EvValidate inner] in
      match o with
      | Panicked => (CmdPanicked, (t ++ closing)%list)
      | Returned r =>
          match ValidateCmd.err r with
          | Some e =>
              if IsInvalidSBOMError e
              then (Exited (ERROR_VALIDATION cenv), t)
              else (Exited (ERROR_APPLICATION cenv), t)
          | None =>
              if negb (valid r)
              then (Exited (ERROR_VALIDATION cenv), t)
              else (ReturnedNil, (t ++ closing)%list)
          end
      end
  end.

(** *** Vocabulary for the properties, and sample values *)

(** The loader that Validate makes for the document. *)
Definition documentLoader_of (pf : PersistentCommandFlags) : JSONLoader :=
  NewReferenceLoader (PROTOCOL_PREFIX_FILE ++ InputFile pf).

(** The lines that [validationError] logs. *)
Definition is_log (e : event) : bool :=
  match e with
  | EvDisplayJSONErrorDetails _ _ | EvLogInvalidState _
  | EvLogError _ | EvLogInfoValid _ _ => true
  | _ => false
  end.

Definition is_FormatSchemaErrors (e : event) : bool :=
  match e with EvFormatSchemaErrors _ _ => true | _ => false end.

Definition is_WarnInvalidFormat (e : event) : bool :=
  match e with EvWarnInvalidFormat _ => true | _ => false end.

Definition is_ValidateCustom (e : event) : bool :=
  match e with EvValidateCustomCDXDocument => true | _ => false end.

Definition is_UnMarshalDocument (e : event) : bool :=
  match e with EvUnMarshalDocument => true | _ => false end.

(** The output formats that the report of violations knows. *)
Definition known_format (env : Env) (format : string) : bool :=
  String.eqb format (FORMAT_JSON env) || String.eqb format (FORMAT_CSV env)
  || String.eqb format (FORMAT_TEXT env).

(** The error that Validate returns for an error [e] of
    [validateCustomCDXDocument] on the document [d]. *)
Definition custom_error (env : Env) (d : Sbom) (e : error) : error :=
  if IsInvalidSBOMError e then e
  else InvalidSBOMError (GetFilename d) (Error env e) (Some e) [].

(** The errors that come from outside are no [InvalidSBOMError]s. *)
Definition outside_errors_plain (env : Env) : Prop :=
  (forall e, snd (LoadInputSbomFileAndDetectSchema env) = Some e ->
             IsInvalidSBOMError e = false) /\
  (forall name e, snd (ReadFile env name) = Some e ->
                  IsInvalidSBOMError e = false) /\
  (forall s l e, snd (Schema_Validate env s l) = Some e ->
                 IsInvalidSBOMError e = false) /\
  (forall d e, snd (UnMarshalDocument env d) = Some e ->
               IsInvalidSBOMError e = false).

Definition sample_cmd_env : CmdEnv :=
  {| createOutputFile := fun name => (Some name, None);
     ERROR_APPLICATION := 1;
     ERROR_VALIDATION := 2 |}.

(** A run with the custom validation, which finds a fault. *)
Definition env_custom_fault : Env :=
  {| LoadInputSbomFileAndDetectSchema := (sample_document, None);
     IsCycloneDx := IsCycloneDx env_valid;
     ReadFile := ReadFile env_valid;
     NewSchema := NewSchema env_valid;
     Schema_Validate := Schema_Validate env_valid;
     UnMarshalDocument := UnMarshalDocument env_valid;
     validateCustomCDXDocument :=
       fun _ => Some (OtherError "composition: metadata.component missing");
     Error := fun _ => "composition: metadata.component missing";
     FORMAT_TEXT := FORMAT_TEXT env_valid;
     FORMAT_JSON := FORMAT_JSON env_valid;
     FORMAT_CSV := FORMAT_CSV env_valid;
     CMD_VALIDATE := CMD_VALIDATE env_valid;
     MSG_SCHEMA_ERRORS := MSG_SCHEMA_ERRORS env_valid;
     MSG_FORMAT_UNSUPPORTED_COMMAND := MSG_FORMAT_UNSUPPORTED_COMMAND env_valid |}.

Definition custom_validateFlags : ValidateCommandFlags :=
  {| ForcedJsonSchemaFile := ""; SchemaVariant := "";
     CustomValidation := true; ColorizeErrorOutput := false;
     MaxNumErrors := 10; ShowErrorValue := true |}.

(** A compiler that answers neither a schema nor an error, and a
    validator that answers an error without a result. *)
Definition env_nil_result : Env :=
  sample_env (sample_document, None) compile_ok
    (None, Some (OtherError "unable to load document")).

End ValidateImpl.

(** * Properties *)

(** ** Facts about the UTF-8 coercion *)

Section Utf8Facts.
Import Utf8.

Lemma coerce_cons b0 r0 :
  coerce (String b0 r0) =
  match seq_len (String b0 r0), r0 with
  | 1%nat, _ => String b0 (coerce r0)
  | 2%nat, String b1 r1 => String b0 (String b1 (coerce r1))
  | 3%nat, String b1 (String b2 r2) =>
      String b0 (String b1 (String b2 (coerce r2)))
  | 4%nat, String b1 (String b2 (String b3 r3)) =>
      String b0 (String b1 (String b2 (String b3 (coerce r3))))
  | _, _ => RuneError ++ coerce r0
  end.
Proof. reflexivity. Qed.

Lemma ValidString_cons b0 r0 :
  ValidString (String b0 r0) =
  match seq_len (String b0 r0), r0 with
  | 1%nat, _ => ValidString r0
  | 2%nat, String _ r1 => ValidString r1
  | 3%nat, String _ (String _ r2) => ValidString r2
  | 4%nat, String _ (String _ (String _ r3)) => ValidString r3
  | _, _ => false
  end.
Proof. reflexivity. Qed.

(** The coercion never empties a string, and never fills an empty one. *)
Lemma coerce_empty_iff s : coerce s = "" <-> s = "".
Proof.
  split; [ | intros ->; reflexivity ].
  destruct s as [ | b0 r0 ]; [ reflexivity | ].
  rewrite coerce_cons.
  destruct (seq_len (String b0 r0)) as [ | [ | [ | [ | [ | n ] ] ] ] ];
    destruct r0 as [ | b1 [ | b2 [ | b3 r3 ] ] ]; discriminate.
Qed.

Lemma coerce_valid_upto (n : nat) :
  forall s, (String.length s <= n)%nat ->
            ValidString s = true -> coerce s = s.
Proof.
  induction n as [ | n IH ]; intros s Hlen Hv.
  - destruct s; [ reflexivity | simpl in Hlen; lia ].
  - destruct s as [ | b0 r0 ]; [ reflexivity | ].
    rewrite ValidString_cons in Hv. rewrite coerce_cons.
    simpl in Hlen.
    destruct (seq_len (String b0 r0)) as [ | [ | [ | [ | [ | k ] ] ] ] ];
      destruct r0 as [ | b1 [ | b2 [ | b3 r3 ] ] ];
      try discriminate Hv; simpl in Hlen;
      repeat f_equal; apply IH; simpl; try lia; assumption.
Qed.

(** A string that is valid UTF-8 is left as it is. *)
Lemma coerce_valid s : ValidString s = true -> coerce s = s.
Proof. apply (coerce_valid_upto (String.length s)); lia. Qed.

End Utf8Facts.

(** ** The marshallers *)

Section MarshalFacts.
Import Marshal.

Lemma encode_insert k s (temp : gmap string govalue) :
  encode <$> (if decide (s <> "") then <[k := GoString s]> temp else temp)
  = match member_of s with
    | Some j => <[k := j]> (encode <$> temp)
    | None => encode <$> temp
    end.
Proof.
  unfold member_of.
  destruct (decide (s = "")) as [-> | Hs].
  - rewrite decide_False by auto. reflexivity.
  - rewrite decide_True by assumption. now rewrite fmap_insert.
Qed.

Lemma CDXAttachment_MarshalJSON_object a :
  CDXAttachment_MarshalJSON a = (Some (JObject (attachment_object a)), None).
Proof.
  unfold CDXAttachment_MarshalJSON, json_Marshal, attachment_object.
  cbn [encode]. do 2 f_equal. f_equal.
  rewrite !encode_insert, fmap_empty. reflexivity.
Qed.

Lemma attachment_object_lookup a :
  attachment_object a !! "contentType" = member_of (ContentType a) /\
  attachment_object a !! "encoding" = member_of (Encoding a) /\
  attachment_object a !! "content" = member_of (Content a) /\
  (forall k, k <> "contentType" -> k <> "encoding" -> k <> "content" ->
             attachment_object a !! k = None).
Proof.
  unfold attachment_object.
  destruct (member_of (ContentType a)) as [j1|] eqn:E1;
    destruct (member_of (Encoding a)) as [j2|] eqn:E2;
    destruct (member_of (Content a)) as [j3|] eqn:E3;
    repeat split; intros; simplify_map_eq; reflexivity.
Qed.

Lemma string_member_member_of (o : gmap string json) k s :
  o !! k = member_of s -> string_member o k = (Utf8.coerce s, None).
Proof.
  unfold string_member, member_of. intros ->.
  destruct (decide (s = "")) as [-> | Hs]; reflexivity.
Qed.

Lemma CDXAttachment_Unmarshal_object a :
  CDXAttachment_Unmarshal (JObject (attachment_object a))
  = (coerce_attachment a, None).
Proof.
  destruct (attachment_object_lookup a) as (H1 & H2 & H3 & _).
  unfold CDXAttachment_Unmarshal.
  rewrite (string_member_member_of _ _ _ H1), (string_member_member_of _ _ _ H2),
    (string_member_member_of _ _ _ H3).
  reflexivity.
Qed.

Lemma member_of_None s : member_of s = None <-> s = "".
Proof.
  unfold member_of. destruct (decide (s = "")); split; intros; congruence.
Qed.

(** C7, as the code has it. [MarshalJSON] of an attachment never fails
    and gives an object that has a member for [contentType], [encoding]
    and [content] exactly when the field is not the empty string, and no
    other member. Parsing that object gives the attachment with every
    field coerced to valid UTF-8: a field is empty after the round trip
    exactly when it was empty before, and an attachment whose fields are
    valid UTF-8 comes back as it was. *)
Theorem CDXAttachment_MarshalJSON_roundtrip (a : CDXAttachment) :
  exists o : gmap string json,
    CDXAttachment_MarshalJSON a = (Some (JObject o), None) /\
    (o !! "contentType" = None <-> ContentType a = "") /\
    (o !! "encoding" = None <-> Encoding a = "") /\
    (o !! "content" = None <-> Content a = "") /\
    (forall k, k <> "contentType" -> k <> "encoding" -> k <> "content" ->
               o !! k = None) /\
    CDXAttachment_Unmarshal (JObject o) = (coerce_attachment a, None) /\
    (ContentType (coerce_attachment a) = "" <-> ContentType a = "") /\
    (Encoding (coerce_attachment a) = "" <-> Encoding a = "") /\
    (Content (coerce_attachment a) = "" <-> Content a = "") /\
    (Utf8.ValidString (ContentType a) = true ->
     Utf8.ValidString (Encoding a) = true ->
     Utf8.ValidString (Content a) = true ->
     roundtrip_exact a).
Proof.
  exists (attachment_object a).
  destruct (attachment_object_lookup a) as (H1 & H2 & H3 & H4).
  split; [ apply CDXAttachment_MarshalJSON_object | ].
  rewrite H1, H2, H3, !member_of_None.
  repeat split; try tauto; try apply H4; try assumption;
    try apply CDXAttachment_Unmarshal_object;
    try (apply coerce_empty_iff; assumption);
    try (simpl; intros ->; reflexivity).
  intros V1 V2 V3. exists (JObject (attachment_object a)).
  split; [ apply CDXAttachment_MarshalJSON_object | ].
  rewrite CDXAttachment_Unmarshal_object. unfold coerce_attachment.
  rewrite !coerce_valid by assumption. now destruct a.
Qed.

Lemma CDXAttachment_MarshalJSON_roundtrip_witness :
  Utf8.ValidString (ContentType attachment_sample) = true /\
  Utf8.ValidString (Encoding attachment_sample) = true /\
  Utf8.ValidString (Content attachment_sample) = true /\
  roundtrip_exact attachment_sample.
Proof.
  destruct (CDXAttachment_MarshalJSON_roundtrip attachment_sample)
    as (o & _ & _ & _ & _ & _ & _ & _ & _ & _ & H).
  repeat split; try reflexivity.
  apply H; reflexivity.
Defined.

Lemma CDXAttachment_roundtrip_not_exact :
  ~ roundtrip_exact attachment_invalid_utf8.
Proof.
  intros (data & Hm & Hu).
  rewrite CDXAttachment_MarshalJSON_object in Hm.
  injection Hm as <-.
  rewrite CDXAttachment_Unmarshal_object in Hu.
  injection Hu as Hu. vm_compute in Hu. discriminate Hu.
Qed.

(** What the round trip makes of that attachment. *)
Example CDXAttachment_roundtrip_invalid_utf8 :
  CDXAttachment_MarshalJSON attachment_invalid_utf8
  = (Some (JObject {[ "content" := JString Utf8.RuneError ]}), None) /\
  CDXAttachment_Unmarshal (JObject {[ "content" := JString Utf8.RuneError ]})
  = ({| ContentType := ""; Encoding := ""; Content := Utf8.RuneError |}, None).
Proof.
  assert (Ho : attachment_object attachment_invalid_utf8
               = {[ "content" := JString Utf8.RuneError ]}).
  { unfold attachment_object, member_of. cbn [Content ContentType Encoding
      attachment_invalid_utf8].
    repeat match goal with
      | |- context [decide (?x = "")] =>
          destruct (decide (x = "")) as [E | N];
          [ try discriminate E | try (destruct N; reflexivity) ]
      end.
    reflexivity. }
  rewrite <- Ho. split.
  - apply CDXAttachment_MarshalJSON_object.
  - apply CDXAttachment_Unmarshal_object.
Qed.

Lemma CDXLicenseChoice_MarshalJSON_object (value : CDXLicenseChoice) :
  License value = CDXLicense_zero ->
  CDXLicenseChoice_MarshalJSON value =
  (Some (JObject (match member_of (Expression value) with
                  | Some j => {[ "expression" := j ]}
                  | None => ∅
                  end)), None).
Proof.
  intros Hz. unfold CDXLicenseChoice_MarshalJSON.
  rewrite decide_False by (intros H; apply H, Hz).
  unfold json_Marshal. cbn [encode]. rewrite encode_insert, fmap_empty.
  destruct (member_of (Expression value)); [ rewrite insert_empty | ];
    reflexivity.
Qed.

(** C2. For a licence choice whose expression is not empty and whose
    licence is the zero value, [MarshalJSON] returns, with a nil error,
    the object whose only member is ["expression"], holding the JSON
    string of the expression; it has no ["license"] member. For an
    expression that is valid UTF-8 the JSON string is the expression
    itself. *)
Theorem CDXLicenseChoice_MarshalJSON_expression_only
    (value : CDXLicenseChoice) :
  Expression value <> "" ->
  License value = CDXLicense_zero ->
  exists o : gmap string json,
    CDXLicenseChoice_MarshalJSON value = (Some (JObject o), None) /\
    o = {[ "expression" := JString (Utf8.coerce (Expression value)) ]} /\
    dom o = {[ "expression" ]} /\
    o !! "license" = None /\
    (Utf8.ValidString (Expression value) = true ->
     o !! "expression" = Some (JString (Expression value))).
Proof.
  intros Hne Hz. eexists. split.
  - rewrite (CDXLicenseChoice_MarshalJSON_object _ Hz).
    unfold member_of. rewrite decide_False by assumption. reflexivity.
  - split; [ reflexivity | ]. split; [ apply dom_singleton_L | ].
    split; [ apply lookup_singleton_ne; discriminate | ].
    intros Hv. rewrite (coerce_valid _ Hv). apply lookup_singleton_eq.
Qed.

Lemma CDXLicenseChoice_MarshalJSON_expression_only_witness :
  Expression license_choice_sample <> "" /\
  License license_choice_sample = CDXLicense_zero /\
  CDXLicenseChoice_MarshalJSON license_choice_sample =
  (Some (JObject {[ "expression" := JString "Apache-2.0 OR MIT" ]}), None).
Proof.
  assert (Hne : Expression license_choice_sample <> "") by discriminate.
  destruct (CDXLicenseChoice_MarshalJSON_expression_only
              license_choice_sample Hne eq_refl) as (o & Hm & -> & _).
  split; [ exact Hne | split; [ reflexivity | exact Hm ] ].
Defined.

End MarshalFacts.

(** ** The order of Go strings

    [<] on Go strings compares byte by byte; [String.ltb] does the same
    on [string], and [String_as_OT.lt] is that order as a relation. *)

Section StringOrder.

Lemma ltb_lt (s t : string) : String.ltb s t = true <-> String_as_OT.lt s t.
Proof.
  rewrite <- String_as_OT.cmp_lt. unfold String.ltb, String_as_OT.cmp.
  destruct (String.compare s t); split; congruence.
Qed.

Lemma ltb_irrefl (s : string) : String.ltb s s = false.
Proof.
  destruct (String.ltb s s) eqn:E; [ | reflexivity ].
  apply ltb_lt in E. apply String_as_OT.lt_not_eq in E.
  destruct E. reflexivity.
Qed.

Lemma string_trichotomy (s t : string) :
  String_as_OT.lt s t \/ s = t \/ String_as_OT.lt t s.
Proof.
  destruct (String.compare s t) eqn:E.
  - right; left. now apply String.compare_eq_iff.
  - left. now apply String_as_OT.cmp_lt.
  - right; right. apply String_as_OT.cmp_lt. unfold String_as_OT.cmp.
    rewrite String.compare_antisym, E. reflexivity.
Qed.

Lemma string_lt_asym (s t : string) :
  String_as_OT.lt s t -> String_as_OT.lt t s -> False.
Proof.
  intros H1 H2. pose proof (String_as_OT.lt_trans _ _ _ H1 H2) as H.
  apply String_as_OT.lt_not_eq in H. apply H. reflexivity.
Qed.

Lemma ltb_false (s t : string) :
  String.ltb s t = false <-> String_as_OT.lt t s \/ s = t.
Proof.
  split.
  - intros H. destruct (string_trichotomy s t) as [L | [E | G]]; auto.
    apply ltb_lt in L. congruence.
  - intros [G | ->]; [ | apply ltb_irrefl ].
    destruct (String.ltb s t) eqn:E; [ | reflexivity ].
    apply ltb_lt in E. destruct (string_lt_asym _ _ E G).
Qed.

End StringOrder.

(** ** sort.Slice: insertion sort meets the contract *)

Section InsertionSort.

Context {A : Type} (less : A -> A -> bool).

Lemma insert_by_Permutation x (l : list A) :
  Permutation (insert_by less x l) (x :: l).
Proof.
  induction l as [ | y l IH ]; simpl; [ reflexivity | ].
  destruct (less x y); [ reflexivity | ].
  rewrite IH. apply perm_swap.
Qed.

Lemma insertion_sort_Permutation (l : list A) :
  Permutation (insertion_sort less l) l.
Proof.
  induction l as [ | x l IH ]; simpl; [ reflexivity | ].
  rewrite insert_by_Permutation. now apply perm_skip.
Qed.

Hypothesis Hswo : StrictWeakOrder less.

Let geq (a b : A) : Prop := less b a = false.

Lemma less_asym a b : less a b = true -> less b a = false.
Proof.
  intros Hab. destruct (less b a) eqn:Hba; [ | reflexivity ].
  pose proof (swo_trans _ Hswo _ _ _ Hab Hba) as H.
  rewrite (swo_irrefl _ Hswo) in H. discriminate.
Qed.

Lemma insert_by_sorted x (l : list A) :
  StronglySorted geq l -> StronglySorted geq (insert_by less x l).
Proof.
  induction 1 as [ | y l Hs IH Hall ]; simpl.
  - repeat constructor.
  - destruct (less x y) eqn:Hxy.
    + constructor; [ now constructor | ].
      constructor; [ now apply less_asym | ].
      eapply Forall_impl; [ exact Hall | ].
      intros z Hz. unfold geq in *.
      destruct (less z x) eqn:Hzx; [ | reflexivity ].
      rewrite (swo_trans _ Hswo _ _ _ Hzx Hxy) in Hz. discriminate.
    + constructor; [ exact IH | ].
      eapply Permutation_Forall;
        [ symmetry; apply insert_by_Permutation | ].
      constructor; [ exact Hxy | exact Hall ].
Qed.

Lemma insertion_sort_sorted (l : list A) :
  StronglySorted geq (insertion_sort less l).
Proof.
  induction l as [ | x l IH ]; simpl; [ constructor | ].
  now apply insert_by_sorted.
Qed.

End InsertionSort.

#[global] Instance insertion_SortSlice : SortSlice := {|
  sort_Slice := @insertion_sort;
  sort_Slice_Permutation := @insertion_sort_Permutation;
  sort_Slice_sorted := fun A less l H => insertion_sort_sorted less H l
|}.

(** ** The resource listings *)

Section ResourceFacts.
Import ResourceCmd.

Lemma less_true (e1 e2 : Entry) :
  less e1 e2 = true <->
  String_as_OT.lt (Type' (Value e1)) (Type' (Value e2)) \/
  (Type' (Value e1) = Type' (Value e2) /\
   String_as_OT.lt (Name (Value e1)) (Name (Value e2))).
Proof.
  unfold less. cbv zeta.
  destruct (String.eqb_spec (Type' (Value e1)) (Type' (Value e2))) as [E | N];
    cbn [negb]; rewrite ltb_lt.
  - split; [ auto | ]. intros [L | [_ L]]; [ | exact L ].
    rewrite E in L. apply String_as_OT.lt_not_eq in L. destruct L. reflexivity.
  - split; [ auto | ]. intros [L | [E _]]; [ exact L | contradiction ].
Qed.

Lemma less_false (e1 e2 : Entry) :
  less e1 e2 = false <-> by_type_then_name e2 e1.
Proof.
  unfold by_type_then_name. cbv zeta. split.
  - intros H.
    destruct (string_trichotomy (Type' (Value e2)) (Type' (Value e1)))
      as [L | [E | G]]; [ auto | | ].
    + right. split; [ exact E | ].
      destruct (string_trichotomy (Name (Value e2)) (Name (Value e1)))
        as [L | [E' | G]]; [ auto | auto | ].
      assert (less e1 e2 = true) by (apply less_true; auto). congruence.
    + assert (less e1 e2 = true) by (apply less_true; auto). congruence.
  - intros H. destruct (less e1 e2) eqn:E; [ | reflexivity ].
    apply less_true in E.
    destruct H as [L | [Et [L | En]]], E as [L' | [Et' L']];
      try (destruct (string_lt_asym _ _ L L'));
      try (rewrite Et in L'; apply String_as_OT.lt_not_eq in L';
           destruct L'; reflexivity);
      try (rewrite Et' in L; apply String_as_OT.lt_not_eq in L;
           destruct L; reflexivity).
    rewrite En in L'. apply String_as_OT.lt_not_eq in L'.
    destruct L'. reflexivity.
Qed.

Lemma by_type_then_name_trans e1 e2 e3 :
  by_type_then_name e1 e2 -> by_type_then_name e2 e3 ->
  by_type_then_name e1 e3.
Proof.
  unfold by_type_then_name. cbv zeta.
  intros [L1 | [E1 H1]] [L2 | [E2 H2]].
  - left. eapply String_as_OT.lt_trans; eassumption.
  - left. now rewrite <- E2.
  - left. now rewrite E1.
  - right. split; [ congruence | ].
    destruct H1 as [L1 | N1], H2 as [L2 | N2].
    + left. eapply String_as_OT.lt_trans; eassumption.
    + left. now rewrite <- N2.
    + left. now rewrite N1.
    + right. congruence.
Qed.

(** The closure of the listings is a strict weak ordering, as
    [sort.Slice] requires. *)
Lemma less_StrictWeakOrder : StrictWeakOrder less.
Proof.
  split.
  - intros a. apply less_false. right. auto.
  - intros a b c Hab Hbc. apply less_true in Hab, Hbc. apply less_true.
    destruct Hab as [L1 | [E1 L1]], Hbc as [L2 | [E2 L2]].
    + left. eapply String_as_OT.lt_trans; eassumption.
    + left. now rewrite <- E2.
    + left. now rewrite E1.
    + right. split; [ congruence | ].
      eapply String_as_OT.lt_trans; eassumption.
  - intros a b c Hab Hbc. apply less_false in Hab, Hbc. apply less_false.
    eapply by_type_then_name_trans; eassumption.
Qed.

Context (env : Env) {sorter : SortSlice}.

(** What [sort.Slice] leaves in [entries]: the same entries, ascending
    by type and then by name. *)
Lemma sorted_entries (entries : list Entry) :
  Permutation (sort_Slice less entries) entries /\
  StronglySorted by_type_then_name (sort_Slice less entries).
Proof.
  split; [ apply sort_Slice_Permutation | ].
  pose proof (sort_Slice_sorted _ less entries less_StrictWeakOrder) as H.
  induction H as [ | e l Hs IH Hall ]; constructor; [ exact IH | ].
  eapply Forall_impl; [ exact Hall | ].
  intros e' He'. now apply less_false.
Qed.

Lemma csv_rows_output (entries : list Entry) :
  forall n err,
    snd (csv_rows env n err entries) = map (fun e => CsvWrite (line_of e)) entries.
Proof.
  induction entries as [ | e l IH ]; intros n err; simpl; [ reflexivity | ].
  specialize (IH (S n)
    match csv_Write env n (line_of e) with
    | Some e0 => Some (LoggedError "csv.Write: %w" [] (Some e0))
    | None => None
    end).
  destruct (csv_rows env (S n) _ l) as [err' w]. simpl in *. now f_equal.
Qed.

Lemma entries_nonempty (bom : BOM) :
  ResourceMap bom <> [] ->
  Nat.eqb (length (Entries (ResourceMap bom))) 0 = false.
Proof. unfold Entries. destruct (ResourceMap bom); [ congruence | reflexivity ]. Qed.

(** C6. Whatever the order of the entries of a non-empty resource map,
    the three listings write one row per entry after their header, and
    the rows are in ascending order of type and then of name, both
    compared byte by byte. *)
Theorem listings_sorted_by_type_then_name (bom : BOM) :
  ResourceMap bom <> [] ->
  exists rows : list Entry,
    Permutation rows (ResourceMap bom) /\
    StronglySorted by_type_then_name rows /\
    DisplayResourceListText env bom
    = (text_header env ++ map (fun e => Fprintf (text_line e)) rows)%list /\
    DisplayResourceListMarkdown env bom
    = (None,
       (markdown_header env ++
        map (fun e => Fprintf (createMarkdownRow env (line_of e) ++ NL)) rows)%list) /\
    (csv_Write env 0 RESOURCE_LIST_TITLES = None ->
     snd (DisplayResourceListCSV env bom)
     = CsvWrite RESOURCE_LIST_TITLES :: map (fun e => CsvWrite (line_of e)) rows).
Proof.
  intros Hne. exists (sort_Slice less (Entries (ResourceMap bom))).
  destruct (sorted_entries (Entries (ResourceMap bom))) as [Hp Hs].
  pose proof (entries_nonempty bom Hne) as Hlen.
  split; [ exact Hp | ]. split; [ exact Hs | ].
  unfold DisplayResourceListText, DisplayResourceListMarkdown,
    DisplayResourceListCSV.
  cbv zeta. rewrite Hlen.
  split; [ reflexivity | ]. split; [ reflexivity | ].
  intros ->.
  pose proof (csv_rows_output (sort_Slice less (Entries (ResourceMap bom))) 1 None) as Hw.
  destruct (csv_rows env 1 None _) as [err w]. simpl in *. now rewrite Hw.
Qed.

(** The example of the spec: whatever function sorts, the entries
    [(service, b)] and [(component, a)] come out as component [a], then
    service [b]. *)
Lemma sort_service_b_component_a :
  sort_Slice less [service_b; component_a] = [component_a; service_b].
Proof.
  destruct (sorted_entries [service_b; component_a]) as [Hp Hs].
  apply Permutation_sym, Permutation_length_2_inv in Hp.
  destruct Hp as [Hp | Hp]; [ | exact Hp ].
  rewrite Hp in Hs. apply StronglySorted_inv in Hs. destruct Hs as [_ Hall].
  apply Forall_inv in Hall. apply less_false in Hall.
  discriminate Hall.
Qed.

(** C1. For a resource map without entries: the text listing, which has
    no result, writes its header and the notice; the Markdown listing
    writes its header and the same notice and returns an error; the CSV
    listing returns an error in every case, and once its header is
    written it writes the same notice as a record. *)
Theorem listings_of_empty_map (bom : BOM) :
  ResourceMap bom = [] ->
  DisplayResourceListText env bom
  = (text_header env ++ [Fprintf (MSG_OUTPUT_NO_RESOURCES_FOUND ++ NL)])%list /\
  DisplayResourceListMarkdown env bom
  = (Some (ErrorString MSG_OUTPUT_NO_RESOURCES_FOUND),
     (markdown_header env ++ [Fprintf (MSG_OUTPUT_NO_RESOURCES_FOUND ++ NL)])%list) /\
  fst (DisplayResourceListCSV env bom) <> None /\
  (csv_Write env 0 RESOURCE_LIST_TITLES = None ->
   snd (DisplayResourceListCSV env bom)
   = [CsvWrite RESOURCE_LIST_TITLES; CsvWrite [MSG_OUTPUT_NO_RESOURCES_FOUND]] /\
   (csv_Write env 1 [MSG_OUTPUT_NO_RESOURCES_FOUND] = None ->
    fst (DisplayResourceListCSV env bom)
    = Some (ErrorString MSG_OUTPUT_NO_RESOURCES_FOUND))).
Proof.
  intros Hnil.
  unfold DisplayResourceListText, DisplayResourceListMarkdown,
    DisplayResourceListCSV, Entries.
  rewrite Hnil. cbn [length Nat.eqb].
  split; [ reflexivity | ]. split; [ reflexivity | ].
  destruct (csv_Write env 0 RESOURCE_LIST_TITLES) as [e0 | ];
    [ split; [ discriminate | intros H; discriminate H ] | ].
  destruct (csv_Write env 1 [MSG_OUTPUT_NO_RESOURCES_FOUND]) as [e1 | ];
    (split; [ discriminate | ]); intros _; (split; [ reflexivity | ]);
    intros H; [ discriminate H | reflexivity ].
Qed.

(** C9. For a document whose format is not CycloneDX,
    [loadDocumentResources] returns an [UnsupportedFormatError] at once:
    no call to unmarshal or hash is made and the document is as it was.
    [ListResources], once it has loaded such a document, returns that
    error and lists nothing. *)
Theorem loadDocumentResources_unsupported_format
    (document : BOM) (resourceType : string) (whereFilters : list WhereFilter)
    (persistentFlags : PersistentCommandFlags)
    (resourceFlags : ResourceCommandFlags) :
  IsCycloneDx env (FormatInfo document) = false ->
  let e :=
    UnsupportedFormatError (MSG_FORMAT_UNSUPPORTED_COMMAND env)
      (GetFilename document) (CanonicalName (FormatInfo document))
      (CMD_LICENSE env) (FORMAT_ANY env) in
  IsUnsupportedFormatError e = true /\
  loadDocumentResources env document resourceType whereFilters
  = (document, Some e, []) /\
  (LoadInputBOMFileAndDetectSchema env = (document, None) ->
   ListResources env persistentFlags resourceFlags whereFilters
   = (Some e, [EvLoadInputBOM; EvLogError e])).
Proof.
  intros Hfmt e. split; [ reflexivity | ].
  assert (Hload : forall rt,
            loadDocumentResources env document rt whereFilters
            = (document, Some e, [])).
  { intros rt. unfold loadDocumentResources. now rewrite Hfmt. }
  split; [ apply Hload | ].
  intros Hdoc. unfold ListResources. rewrite Hdoc, Hload. reflexivity.
Qed.

End ResourceFacts.

(** *** The listings on sample data *)

Section ResourceSamples.
Import ResourceCmd.

Lemma listings_sorted_by_type_then_name_witness :
  let env0 := listing_env (sample_bom [service_b; component_a], None) in
  let bom := sample_bom [service_b; component_a] in
  ResourceMap bom <> [] /\
  exists rows : list Entry,
    Permutation rows (ResourceMap bom) /\
    StronglySorted by_type_then_name rows /\
    DisplayResourceListText env0 bom
    = (text_header env0 ++ map (fun e => Fprintf (text_line e)) rows)%list.
Proof.
  intros env0 bom.
  assert (Hne : ResourceMap bom <> []) by discriminate.
  split; [ exact Hne | ].
  destruct (listings_sorted_by_type_then_name env0 bom Hne)
    as (rows & Hp & Hs & Ht & _).
  exists rows. split; [ exact Hp | ]. split; [ exact Hs | exact Ht ].
Defined.

Lemma listings_of_empty_map_witness :
  let env0 := listing_env (sample_bom [], None) in
  let bom := sample_bom [] in
  ResourceMap bom = [] /\
  DisplayResourceListText env0 bom
  = [Fprintf ("type" ++ TAB ++ "name" ++ TAB ++ "version" ++ TAB ++ "bom-ref"
              ++ NL);
     Fprintf ("----" ++ TAB ++ "----" ++ TAB ++ "-------" ++ TAB ++ "-------"
              ++ NL);
     Fprintf ("[WARN] no matching resources found for query" ++ NL)] /\
  fst (DisplayResourceListMarkdown env0 bom)
  = Some (ErrorString "[WARN] no matching resources found for query") /\
  fst (DisplayResourceListCSV env0 bom)
  = Some (ErrorString "[WARN] no matching resources found for query").
Proof.
  intros env0 bom.
  destruct (listings_of_empty_map env0 bom eq_refl) as (Ht & Hm & _ & Hc).
  split; [ reflexivity | ]. split; [ exact Ht | ].
  split; [ now rewrite Hm | ].
  exact (proj2 (Hc eq_refl) eq_refl).
Defined.

Lemma loadDocumentResources_unsupported_format_witness :
  let env0 := listing_env (spdx_bom, None) in
  IsCycloneDx env0 (FormatInfo spdx_bom) = false /\
  loadDocumentResources env0 spdx_bom "" []
  = (spdx_bom,
     Some (UnsupportedFormatError "format not supported for command"
             "doc.spdx.json" "SPDX" "license" "<any>"),
     []).
Proof.
  intros env0. split; [ reflexivity | ].
  exact (proj1 (proj2 (loadDocumentResources_unsupported_format env0 spdx_bom
                         "" []
                         {| InputFile := "doc.spdx.json"; OutputFile := "";
                            OutputFormat := "txt" |}
                         {| ResourceType := "" |} eq_refl))).
Defined.

(** The text listing of the example of the spec, with insertion sort. *)
Example DisplayResourceListText_example :
  DisplayResourceListText (listing_env (sample_bom [], None))
    (sample_bom [service_b; component_a])
  = [Fprintf ("type" ++ TAB ++ "name" ++ TAB ++ "version" ++ TAB ++ "bom-ref"
              ++ NL);
     Fprintf ("----" ++ TAB ++ "----" ++ TAB ++ "-------" ++ TAB ++ "-------"
              ++ NL);
     Fprintf ("component" ++ TAB ++ "a" ++ TAB ++ "1.0" ++ TAB ++ "ref-a" ++ NL);
     Fprintf ("service" ++ TAB ++ "b" ++ TAB ++ "2.0" ++ TAB ++ "ref-b" ++ NL)].
Proof. reflexivity. Qed.

(** The comparison is on bytes: an upper-case name comes first. *)
Example less_case_sensitive :
  less component_Zebra component_a = true /\
  less component_a component_Zebra = false.
Proof. split; reflexivity. Qed.

End ResourceSamples.

(** ** Validate *)

Section ValidateFacts.
Import ValidateCmd.

Lemma wp_ret {R A} (a : A) Qn (Qr : R -> list event -> Prop) Qp t :
  wp (ret a) Qn Qr Qp t = Qn a t.
Proof. reflexivity. Qed.

Lemma wp_return {R A} (r : R) (Qn : A -> list event -> Prop) Qr Qp t :
  wp (return_ r) Qn Qr Qp t = Qr r t.
Proof. reflexivity. Qed.

Lemma wp_panic {R A} (Qn : A -> list event -> Prop)
    (Qr : R -> list event -> Prop) Qp t :
  wp panic Qn Qr Qp t = Qp t.
Proof. reflexivity. Qed.

Lemma wp_emit {R} e Qn (Qr : R -> list event -> Prop) Qp t :
  wp (emit e) Qn Qr Qp t = Qn tt (t ++ [e])%list.
Proof. reflexivity. Qed.

Lemma wp_call {R A} e (a : A) Qn (Qr : R -> list event -> Prop) Qp t :
  wp (call e a) Qn Qr Qp t = Qn a (t ++ [e])%list.
Proof. reflexivity. Qed.

Lemma wp_bind {R A B} (m : M R A) (k : A -> M R B) Qn Qr Qp t :
  wp (bind m k) Qn Qr Qp t
  = wp m (fun a t' => wp (k a) Qn Qr Qp t') Qr Qp t.
Proof. unfold wp, bind. destruct (m t) as [[a | r | ] t']; reflexivity. Qed.

Lemma validationError_frame d v e t :
  snd (validationError (R := results) d v e t)
  = (t ++ validationError_log d v e)%list.
Proof.
  unfold validationError_log, validationError, bind, emit, ret.
  destruct e as [[ | | | | | | ] | ]; try destruct v; cbn;
    rewrite <- ?app_assoc; reflexivity.
Qed.

(** The deferred closure logs the error and the verdict; it reports an
    invalid state only for an [InvalidSBOMError] with [valid = true]. *)
Lemma validationError_log_events d v e ev :
  In ev (validationError_log d v e) ->
  match ev with
  | EvDisplayJSONErrorDetails _ _ | EvLogError _ | EvLogInfoValid _ _ => True
  | EvLogInvalidState _ => v = true
  | _ => False
  end.
Proof.
  unfold validationError_log, validationError, bind, emit, ret.
  destruct e as [[ | | | | | | ] | ]; try destruct v; cbn;
    intuition (subst; exact I || reflexivity).
Qed.

(** Validate, from a weakest precondition of its body. *)
Lemma Validate_wp env pf vf (Q : outcome -> list event -> Prop) :
  wp (Validate_body env pf vf) (fun _ _ => False)
     (fun r t => Q (Returned r) (t ++ deferred_log r)%list)
     (fun t => Q Panicked t) [] ->
  Q (fst (Validate env pf vf)) (snd (Validate env pf vf)).
Proof.
  unfold wp, Validate, deferred_log.
  destruct (Validate_body env pf vf []) as [[f | r | ] t];
    [ intros [] | | trivial ].
  destruct (err r) eqn:E; cbn [fst snd].
  - now rewrite validationError_frame.
  - now rewrite app_nil_r.
Qed.

(** *** The retry loop *)

Lemma count_NewSchema_app t1 t2 :
  count_NewSchema (t1 ++ t2) = count_NewSchema t1 + count_NewSchema t2.
Proof. unfold count_NewSchema. now rewrite List.filter_app, length_app. Qed.

Lemma wp_compile_loop {R} env l n :
  forall i cur t Qn (Qr : R -> list event -> Prop) Qp,
    (forall r evs, loop_run env l n i cur r evs -> Qn r (t ++ evs)%list) ->
    wp (compile_loop env l n i cur) Qn Qr Qp t.
Proof.
  induction n as [ | n IH ]; intros i cur t Qn Qr Qp H; cbn [compile_loop].
  - rewrite wp_ret. rewrite <- (app_nil_r t). apply H. constructor.
  - rewrite wp_bind, wp_call.
    destruct (snd (NewSchema env i l)) as [errLoad | ] eqn:E.
    + rewrite wp_bind, wp_emit. apply IH. intros r evs Hrun.
      rewrite <- !app_assoc. apply H. now apply loop_retry.
    + rewrite wp_ret. apply H. now apply loop_break.
Qed.

(** The loop makes at most [n] attempts. *)
Lemma loop_run_count env l n i cur r evs :
  loop_run env l n i cur r evs -> count_NewSchema evs <= n.
Proof.
  induction 1; unfold count_NewSchema in *; cbn in *; lia.
Qed.

(** It only compiles and warns, the attempts are on [l] and numbered
    from [i]. *)
Lemma loop_run_events env l n i cur r evs :
  loop_run env l n i cur r evs ->
  Forall (fun e => (exists k, e = EvNewSchema k l /\ i <= k) \/
                   (exists errLoad, e = EvWarnRetry errLoad)) evs.
Proof.
  induction 1 as [ | | n i cur errLoad r evs E Hrun IH ].
  - constructor.
  - constructor; [ left; eauto | constructor ].
  - constructor; [ left; eauto | ]. constructor; [ right; eauto | ].
    eapply Forall_impl; [ exact IH | ].
    intros e [(k & -> & Hk) | (e' & ->)]; [ left | right ]; eauto with lia.
Qed.

(** No attempt follows one that succeeded. *)
Lemma loop_run_break env l n i cur r evs :
  loop_run env l n i cur r evs ->
  forall k l', In (EvNewSchema k l') evs ->
               snd (NewSchema env k l') = None ->
  forall k' l'', k < k' -> ~ In (EvNewSchema k' l'') evs.
Proof.
  induction 1 as [ | n i cur E | n i cur errLoad r evs E Hrun IH ];
    intros k l' Hin Hok k' l'' Hlt Hin'.
  - destruct Hin.
  - destruct Hin as [[= ? ?] | []]. destruct Hin' as [[= ? ?] | []]. lia.
  - destruct Hin as [[= ? ?] | [[=] | Hin]]; [ congruence | ].
    destruct Hin' as [[= ? ?] | [[=] | Hin']].
    + apply loop_run_events in Hrun.
      rewrite List.Forall_forall in Hrun.
      destruct (Hrun _ Hin) as [(k0 & Heq & Hk) | (e' & Heq)];
        [ injection Heq as Hk0 Hl0; lia | discriminate Heq ].
    + exact (IH _ _ Hin Hok _ _ Hlt Hin').
Qed.

(** How the loop ends: without a turn; or with the answer of an attempt
    that succeeded; or with an error after [n] attempts. *)
Lemma loop_run_result env l n i cur r evs :
  loop_run env l n i cur r evs ->
  (n = 0 /\ r = cur /\ evs = []) \/
  (snd r = None /\ exists k, In (EvNewSchema k l) evs /\ NewSchema env k l = r) \/
  (snd r <> None /\ count_NewSchema evs = n).
Proof.
  induction 1 as [ | n i cur E | n i cur errLoad r evs E Hrun IH ].
  - left. auto.
  - right; left. split; [ exact E | ]. exists i. split; [ now left | reflexivity ].
  - destruct IH as [(-> & -> & ->) | [(Hr & k & Hin & Hk) | (Hr & Hc)]].
    + right; right. rewrite E. split; [ discriminate | reflexivity ].
    + right; left. split; [ exact Hr | ]. exists k. split; [ | exact Hk ].
      right; right. exact Hin.
    + right; right. split; [ exact Hr | ].
      unfold count_NewSchema in *. cbn. now rewrite Hc.
Qed.

(** *** Reading traces

    The events of one kind in a trace. *)

Lemma In_filter (f : event -> bool) e t :
  f e = true -> (In e t <-> In e (List.filter f t)).
Proof. intros Hf. rewrite List.filter_In. tauto. Qed.

Lemma filter_nil (f : event -> bool) l :
  Forall (fun e => f e = false) l -> List.filter f l = [].
Proof.
  induction 1 as [ | e l He Hl IH ]; cbn; [ reflexivity | ].
  now rewrite He.
Qed.

(** A kind of event that is not a log line does not occur in what the
    deferred closure logs. *)
Lemma validationError_log_filter (f : event -> bool) d v e :
  (forall x y, f (EvDisplayJSONErrorDetails x y) = false) ->
  (forall x, f (EvLogInvalidState x) = false) ->
  (forall x, f (EvLogError x) = false) ->
  (forall x y, f (EvLogInfoValid x y) = false) ->
  List.filter f (validationError_log d v e) = [].
Proof.
  intros H1 H2 H3 H4. apply filter_nil, List.Forall_forall.
  intros ev Hin. apply validationError_log_events in Hin.
  destruct ev; try destruct Hin; auto.
Qed.

(** A kind of event that is neither an attempt nor a warning does not
    occur in the loop. *)
Lemma loop_run_filter (f : event -> bool) env l n i cur r evs :
  (forall k l', f (EvNewSchema k l') = false) ->
  (forall e, f (EvWarnRetry e) = false) ->
  loop_run env l n i cur r evs -> List.filter f evs = [].
Proof.
  intros H1 H2 Hrun. apply filter_nil.
  eapply Forall_impl; [ exact (loop_run_events _ _ _ _ _ _ _ Hrun) | ].
  intros e [(k & -> & _) | (e' & ->)]; auto.
Qed.

Ltac wp_case :=
  match goal with
  | |- wp (match ?x with _ => _ end) _ _ _ _ => destruct x eqn:?
  | |- wp (if ?b then _ else _) _ _ _ _ => destruct b eqn:?
  end.

(** One step of symbolic execution. *)
Ltac wp_step :=
  first
    [ rewrite wp_bind | rewrite wp_call | rewrite wp_emit | rewrite wp_ret
    | rewrite wp_return | rewrite wp_panic
    | apply wp_compile_loop; intros [? ?] ? ?
    | wp_case ].

Ltac wp_run :=
  unfold Validate_body, validateCustom; cbv zeta; repeat wp_step;
  cbn [deferred_log err valid document schemaErrors fst snd] in *.

(** Bring [List.filter f t] to its normal form, for [t] a trace of
    Validate and [f] a kind of event. *)
Ltac norm_filter :=
  rewrite ?List.filter_app;
  repeat match goal with
    | |- context [List.filter ?f (validationError_log ?d ?v ?e)] =>
        rewrite (validationError_log_filter f d v e) by reflexivity
    | Hrun : loop_run _ _ _ _ _ _ ?evs
      |- context [List.filter is_SchemaValidate ?evs] =>
        rewrite (loop_run_filter is_SchemaValidate _ _ _ _ _ _ _
                   (fun _ _ => eq_refl) (fun _ => eq_refl) Hrun)
    | Hrun : loop_run _ _ _ _ _ _ ?evs
      |- context [List.filter is_ReadFile ?evs] =>
        rewrite (loop_run_filter is_ReadFile _ _ _ _ _ _ _
                   (fun _ _ => eq_refl) (fun _ => eq_refl) Hrun)
    end;
  cbn [List.filter is_NewSchema is_SchemaValidate is_ReadFile app];
  rewrite ?app_nil_r.

Lemma Validate_compile_shape env pf vf :
  compile_shape env (fst (Validate env pf vf)) (snd (Validate env pf vf)).
Proof.
  apply Validate_wp. wp_run; unfold compile_shape;
    match goal with
    | Hrun : loop_run _ _ _ _ _ _ _ |- _ =>
        right; eexists _, _, _; split; [ exact Hrun | ]; split;
        [ now norm_filter
        | cbn [snd]; intros Hne;
          first [ now destruct Hne
                | split; [ now norm_filter | eexists _, _; reflexivity ] ] ]
    | |- _ => left; split; now norm_filter
    end.
Qed.

Lemma not_In_of_filter_nil (f : event -> bool) e t :
  f e = true -> List.filter f t = [] -> ~ In e t.
Proof.
  intros Hf Hnil Hin. apply (In_filter f _ _ Hf) in Hin.
  rewrite Hnil in Hin. destruct Hin.
Qed.

(** C5. Validate calls [NewSchema] at most [RETRY] = 3 times; no
    attempt follows one that succeeded; and when three attempts were
    made and all failed, Validate returns [INVALID] with the error
    "unable to load schema" and the validator is never run. *)
Theorem Validate_compile_retry env pf vf :
  let o := fst (Validate env pf vf) in
  let t := snd (Validate env pf vf) in
  RETRY = 3 /\
  count_NewSchema t <= RETRY /\
  (forall k l, In (EvNewSchema k l) t -> snd (NewSchema env k l) = None ->
     forall k' l', k < k' -> ~ In (EvNewSchema k' l') t) /\
  (count_NewSchema t = RETRY ->
   (forall k l, In (EvNewSchema k l) t -> snd (NewSchema env k l) <> None) ->
   (forall s d, ~ In (EvSchemaValidate s d) t) /\
   exists d name,
     o = Returned {| valid := false; document := d; schemaErrors := [];
                     err := Some (ErrorString
                              ("unable to load schema: `" ++ name ++ "`")) |}).
Proof.
  intros o t. subst o t. split; [ reflexivity | ].
  destruct (Validate_compile_shape env pf vf)
    as [[Hn Hv] | (l & r0 & evs & Hrun & Hn & Hfail)];
    unfold count_NewSchema; rewrite Hn.
  - split; [ cbn; lia | ]. split.
    + intros k l Hin. now apply (not_In_of_filter_nil is_NewSchema) in Hin.
    + cbn. discriminate.
  - split; [ apply (loop_run_count _ _ _ _ _ _ _ Hrun) | ]. split.
    + intros k l1 Hin Hok k' l2 Hlt Hin'.
      apply (In_filter is_NewSchema) in Hin, Hin'; try reflexivity.
      rewrite Hn in Hin, Hin'.
      apply List.filter_In in Hin, Hin'.
      exact (loop_run_break _ _ _ _ _ _ _ Hrun _ _ (proj1 Hin) Hok _ _ Hlt
               (proj1 Hin')).
    + intros _ Hall.
      destruct (loop_run_result _ _ _ _ _ _ _ Hrun)
        as [(H0 & _) | [(Hr & k & Hin & Hk) | (Hr & _)]].
      * discriminate H0.
      * exfalso. apply (Hall k l); [ | now rewrite Hk ].
        apply (In_filter is_NewSchema); [ reflexivity | ].
        rewrite Hn. apply List.filter_In. now split.
      * destruct (Hfail Hr) as [Hv Hret]. split; [ | exact Hret ].
        intros s d. now apply (not_In_of_filter_nil is_SchemaValidate).
Qed.

Lemma Validate_compile_retry_witness :
  let run := Validate env_unavailable sample_persistentFlags
               (sample_validateFlags "") in
  count_NewSchema (snd run) = RETRY /\
  (forall s d, ~ In (EvSchemaValidate s d) (snd run)) /\
  exists d name,
    fst run
    = Returned {| valid := false; document := d; schemaErrors := [];
                  err := Some (ErrorString
                           ("unable to load schema: `" ++ name ++ "`")) |}.
Proof.
  intros run. split; [ reflexivity | ].
  destruct (Validate_compile_retry env_unavailable sample_persistentFlags
              (sample_validateFlags "")) as (_ & _ & _ & H).
  apply H; [ reflexivity | intros k l _; discriminate ].
Defined.

(** Two runs of the loop from the same state are the same run. *)
Lemma loop_run_det env l n i cur r evs :
  loop_run env l n i cur r evs ->
  forall r' evs', loop_run env l n i cur r' evs' -> r = r' /\ evs = evs'.
Proof.
  induction 1 as [ | n i cur E | n i cur errLoad r evs E Hrun IH ];
    intros r' evs' Hrun'; inversion Hrun'; subst.
  - split; reflexivity.
  - split; reflexivity.
  - congruence.
  - congruence.
  - match goal with
    | H : loop_run _ _ _ _ _ r' _ |- _ => destruct (IH _ _ H) as [-> ->]
    end.
    split; [ reflexivity | congruence ].
Qed.

(** A loop with a turn left starts with an attempt. *)
Lemma loop_run_first env l n i cur r evs :
  loop_run env l (S n) i cur r evs -> In (EvNewSchema i l) evs.
Proof. inversion 1; subst; now left. Qed.

(** The run of the loop in which the attempt [i + k] is the first that
    answers without error. *)
Lemma loop_run_attempts env l r k :
  forall n i cur,
    k < n ->
    (forall j, j < k -> snd (NewSchema env (i + j) l) <> None) ->
    NewSchema env (i + k) l = r -> snd r = None ->
    exists evs, loop_run env l n i cur r evs /\ In (EvNewSchema (i + k) l) evs.
Proof.
  induction k as [ | k IH ]; intros n i cur Hlt Hfail Hok Hr;
    (destruct n as [ | n ]; [ lia | ]).
  - rewrite Nat.add_0_r in *. subst r.
    exists [EvNewSchema i l]. split; [ now apply loop_break | now left ].
  - destruct (snd (NewSchema env i l)) as [errLoad | ] eqn:E.
    + destruct (IH n (S i) (NewSchema env i l)) as (evs & Hrun & Hin).
      * lia.
      * intros j Hj. replace (S i + j) with (i + S j) by lia.
        apply Hfail. lia.
      * now replace (S i + k) with (i + S k) by lia.
      * exact Hr.
      * exists (EvNewSchema i l :: EvWarnRetry errLoad :: evs). split.
        -- now apply loop_retry.
        -- replace (i + S k) with (S i + k) by lia. now do 2 right.
    + exfalso. apply (Hfail 0); [ lia | ]. now rewrite Nat.add_0_r.
Qed.

(** The shape of a run under a forced schema file: no read of an
    embedded schema, and the loop, if it runs, is on the loader of the
    forced file. *)
Lemma Validate_forced_shape env pf vf :
  ForcedJsonSchemaFile vf <> "" ->
  let t := snd (Validate env pf vf) in
  List.filter is_ReadFile t = [] /\
  (List.filter is_NewSchema t = [] \/
   exists r0 evs,
     loop_run env (NewReferenceLoader ("file://" ++ ForcedJsonSchemaFile vf))
       RETRY 0 (None, None) r0 evs /\
     List.filter is_NewSchema t = List.filter is_NewSchema evs).
Proof.
  intros Hforced.
  apply (Validate_wp env pf vf (fun _ t =>
    List.filter is_ReadFile t = [] /\
    (List.filter is_NewSchema t = [] \/
     exists r0 evs,
       loop_run env (NewReferenceLoader ("file://" ++ ForcedJsonSchemaFile vf))
         RETRY 0 (None, None) r0 evs /\
       List.filter is_NewSchema t = List.filter is_NewSchema evs))).
  wp_run; try contradiction; (split; [ now norm_filter | ]);
    match goal with
    | Hrun : loop_run _ _ _ _ _ _ _ |- _ =>
        right; eexists _, _; split; [ exact Hrun | now norm_filter ]
    | |- _ => left; now norm_filter
    end.
Qed.

(** Once the document is loaded and has passed the test on custom
    validation, the schema loader is made and given to the compiler:
    from the forced path when there is one, and else from the bytes of
    the schema that the document names, which is read. *)
Lemma Validate_compile_started env pf vf :
  let t := snd (Validate env pf vf) in
  let document := fst (LoadInputSbomFileAndDetectSchema env) in
  let read := ReadFile env (File (SchemaInfo document)) in
  snd (LoadInputSbomFileAndDetectSchema env) = None ->
  CustomValidation vf && negb (IsCycloneDx env (FormatInfo document)) = false ->
  (ForcedJsonSchemaFile vf <> "" ->
   In (EvNewSchema 0 (NewReferenceLoader ("file://" ++ ForcedJsonSchemaFile vf)))
      t) /\
  (ForcedJsonSchemaFile vf = "" ->
   In (EvReadFile (File (SchemaInfo document))) t /\
   (snd read = None -> In (EvNewSchema 0 (NewBytesLoader (fst read))) t)).
Proof.
  cbv zeta.
  apply (Validate_wp env pf vf (fun _ t =>
    snd (LoadInputSbomFileAndDetectSchema env) = None ->
    CustomValidation vf
    && negb (IsCycloneDx env
               (FormatInfo (fst (LoadInputSbomFileAndDetectSchema env)))) = false ->
    (ForcedJsonSchemaFile vf <> "" ->
     In (EvNewSchema 0
           (NewReferenceLoader ("file://" ++ ForcedJsonSchemaFile vf))) t) /\
    (ForcedJsonSchemaFile vf = "" ->
     In (EvReadFile
           (File (SchemaInfo (fst (LoadInputSbomFileAndDetectSchema env))))) t /\
     (snd (ReadFile env
             (File (SchemaInfo (fst (LoadInputSbomFileAndDetectSchema env)))))
      = None ->
      In (EvNewSchema 0
            (NewBytesLoader
               (fst (ReadFile env
                       (File (SchemaInfo
                                (fst (LoadInputSbomFileAndDetectSchema env))))))))
         t)))).
  wp_run; cbn [fst snd];
    try match goal with
      | H : ReadFile _ _ = _ |- _ => rewrite H; cbn [fst snd]
      end;
    intros Hload Hpre;
    try discriminate Hload; try congruence;
    try match goal with
      | Hrun : loop_run _ _ _ _ _ _ _ |- _ =>
          pose proof (loop_run_first _ _ 2 _ _ _ _ Hrun) as Hfirst
      end;
    (split; intros Hf; try contradiction;
     first
       [ split;
         [ rewrite !in_app_iff; cbn [In]; auto 10
         | intros Hread; try discriminate Hread;
           rewrite !in_app_iff; cbn [In]; auto 10 ]
       | rewrite !in_app_iff; cbn [In]; auto 10 ]).
Qed.

(** C8. When a schema file is forced, Validate never reads the schema
    that the document's [SchemaInfo] names, every attempt to compile is
    on the loader made from the forced path alone, and that loader is
    made and compiled as soon as the document is loaded and has passed
    the test on custom validation. Hence a read of the embedded schema
    happens only when no path is forced; then it does happen, and the
    bytes that were read, if the read succeeds, are what is compiled. *)
Theorem Validate_forced_schema env pf vf :
  let t := snd (Validate env pf vf) in
  let document := fst (LoadInputSbomFileAndDetectSchema env) in
  let read := ReadFile env (File (SchemaInfo document)) in
  (ForcedJsonSchemaFile vf <> "" ->
   (forall name, ~ In (EvReadFile name) t) /\
   (forall k l, In (EvNewSchema k l) t ->
                l = NewReferenceLoader ("file://" ++ ForcedJsonSchemaFile vf)) /\
   (snd (LoadInputSbomFileAndDetectSchema env) = None ->
    CustomValidation vf && negb (IsCycloneDx env (FormatInfo document)) = false ->
    In (EvNewSchema 0 (NewReferenceLoader ("file://" ++ ForcedJsonSchemaFile vf)))
       t)) /\
  (forall name, In (EvReadFile name) t -> ForcedJsonSchemaFile vf = "") /\
  (ForcedJsonSchemaFile vf = "" ->
   snd (LoadInputSbomFileAndDetectSchema env) = None ->
   CustomValidation vf && negb (IsCycloneDx env (FormatInfo document)) = false ->
   In (EvReadFile (File (SchemaInfo document))) t /\
   (snd read = None -> In (EvNewSchema 0 (NewBytesLoader (fst read))) t)).
Proof.
  intros t document read. subst t document read.
  pose proof (Validate_compile_started env pf vf) as Hstart. cbv zeta in Hstart.
  assert (H : ForcedJsonSchemaFile vf <> "" ->
    (forall name, ~ In (EvReadFile name) (snd (Validate env pf vf))) /\
    (forall k l, In (EvNewSchema k l) (snd (Validate env pf vf)) ->
       l = NewReferenceLoader ("file://" ++ ForcedJsonSchemaFile vf))).
  { intros Hforced.
    destruct (Validate_forced_shape env pf vf Hforced) as [Hread Hloop].
    split.
    - intros name. now apply (not_In_of_filter_nil is_ReadFile).
    - intros k l Hin.
      apply (In_filter is_NewSchema) in Hin; [ | reflexivity ].
      destruct Hloop as [Hn | (r0 & evs & Hrun & Hn)]; rewrite Hn in Hin.
      + destruct Hin.
      + apply List.filter_In in Hin. destruct Hin as [Hin _].
        pose proof (loop_run_events _ _ _ _ _ _ _ Hrun) as Hev.
        rewrite List.Forall_forall in Hev.
        destruct (Hev _ Hin) as [(k0 & Heq & _) | (e' & Heq)];
          [ now injection Heq | discriminate Heq ]. }
  split; [ | split ].
  - intros Hforced. destruct (H Hforced) as [Hno Hon].
    split; [ exact Hno | ]. split; [ exact Hon | ].
    intros Hload Hpre. exact (proj1 (Hstart Hload Hpre) Hforced).
  - intros name Hin.
    destruct (decide (ForcedJsonSchemaFile vf = "")) as [E | N]; [ exact E | ].
    destruct (H N) as [Hno _]. destruct (Hno name Hin).
  - intros Hnone Hload Hpre. exact (proj2 (Hstart Hload Hpre) Hnone).
Qed.

Lemma Validate_forced_schema_witness :
  let vf := sample_validateFlags "/tmp/custom.schema.json" in
  let t := snd (Validate env_valid sample_persistentFlags vf) in
  ForcedJsonSchemaFile vf <> "" /\
  (forall name, ~ In (EvReadFile name) t) /\
  (forall k l, In (EvNewSchema k l) t ->
               l = NewReferenceLoader "file:///tmp/custom.schema.json") /\
  In (EvNewSchema 0 (NewReferenceLoader "file:///tmp/custom.schema.json")) t.
Proof.
  intros vf t.
  assert (Hne : ForcedJsonSchemaFile vf <> "") by discriminate.
  split; [ exact Hne | ].
  destruct (proj1 (Validate_forced_schema env_valid sample_persistentFlags vf)
              Hne) as (Hno & Hon & Hstart).
  split; [ exact Hno | ]. split; [ exact Hon | ].
  exact (Hstart eq_refl eq_refl).
Defined.

(** C10. Whenever Validate returns an error, it returns [valid = false]. *)
Theorem Validate_error_implies_invalid env pf vf r :
  fst (Validate env pf vf) = Returned r ->
  err r <> None ->
  valid r = false.
Proof.
  revert r.
  apply (Validate_wp env pf vf
           (fun o _ => forall r, o = Returned r -> err r <> None ->
                                 valid r = false)).
  wp_run; intros r0 [= <-]; cbn; intros Herr;
    first [ reflexivity | now destruct Herr ].
Qed.

Lemma Validate_error_implies_invalid_witness :
  let r :=
    {| valid := false; document := sample_document; schemaErrors := [];
       err := Some (ErrorString
                ("unable to load schema: `" ++ File (SchemaInfo sample_document)
                 ++ "`")) |} in
  fst (Validate env_unavailable sample_persistentFlags (sample_validateFlags ""))
  = Returned r /\
  err r <> None /\
  valid r = false.
Proof.
  intros r.
  assert (Hrun : fst (Validate env_unavailable sample_persistentFlags
                        (sample_validateFlags "")) = Returned r)
    by reflexivity.
  assert (Herr : err r <> None) by discriminate.
  split; [ exact Hrun | ]. split; [ exact Herr | ].
  exact (Validate_error_implies_invalid _ _ _ r Hrun Herr).
Defined.

(** The state that [validationError] reports as invalid, an
    [InvalidSBOMError] with [valid = true], is never logged. *)
Lemma validationError_log_invalid_state d e :
  List.filter is_LogInvalidState (validationError_log d false e) = [].
Proof.
  apply filter_nil, List.Forall_forall. intros ev Hin.
  apply validationError_log_events in Hin.
  destruct ev; try reflexivity. discriminate Hin.
Qed.

Lemma Validate_no_invalid_state env pf vf e :
  ~ In (EvLogInvalidState e) (snd (Validate env pf vf)).
Proof.
  apply (not_In_of_filter_nil is_LogInvalidState); [ reflexivity | ].
  apply (Validate_wp env pf vf
           (fun _ t => List.filter is_LogInvalidState t = [])).
  wp_run; rewrite ?List.filter_app; unfold INVALID;
    rewrite ?validationError_log_invalid_state;
    repeat match goal with
      | Hrun : loop_run _ _ _ _ _ _ ?evs
        |- context [List.filter is_LogInvalidState ?evs] =>
          rewrite (loop_run_filter is_LogInvalidState _ _ _ _ _ _ _
                     (fun _ _ => eq_refl) (fun _ => eq_refl) Hrun)
      end;
    reflexivity.
Qed.

(** Follow a run of Validate up to the validator, under the conditions
    that bring it there: the document is loaded, the loader is made, the
    loop ends with a schema, and the validator answers violations. The
    paths that leave earlier contradict one of the conditions. *)
Ltac run_to_validator :=
  let doc := fresh "doc" in
  let l := fresh "l" in
  let evs := fresh "evs" in
  let bSchema := fresh "bSchema" in
  intros doc l ? ? evs Hload Hpre Hloader Hrun' Hsv Hne ? ? ? ?;
  first [ discriminate Hload | injection Hload as Hd; subst doc ];
  try congruence;
  destruct Hloader as [[Hf Hl] | [Hf (bSchema & Hread & Hl)]];
  try contradiction; subst l;
  try match goal with
    | H : ReadFile _ _ = _ |- _ =>
        assert_fails (constr_eq H Hread);
        rewrite H in Hread;
        first [ discriminate Hread | injection Hread as Hb; subst bSchema ]
    end;
  match goal with
  | Hrun : loop_run _ _ _ _ _ _ _ |- _ =>
      assert_fails (constr_eq Hrun Hrun');
      destruct (loop_run_det _ _ _ _ _ _ _ Hrun _ _ Hrun') as [Hr He];
      first [ discriminate Hr | injection Hr as Hs; subst ]
  end;
  match goal with
  | H : Schema_Validate _ _ _ = _ |- _ =>
      assert_fails (constr_eq H Hsv);
      rewrite H in Hsv;
      first [ discriminate Hsv | injection Hsv as Hres; subst ]
  end;
  try match goal with
    | H : nonempty ?x = false |- _ =>
        destruct x; [ now destruct Hne | discriminate H ]
    end.

(** C4. A document that is loaded without error (so that it parsed as
    JSON), whose schema is resolved and compiled, and for which the
    validator answers a result that lists at least one violation, with
    no error of its own: Validate runs the validator on it and returns
    [INVALID], the violations as [schemaErrors], and an
    [InvalidSBOMError] that carries them. The schema is resolved when
    the test on custom validation passes and the loader [l] is the
    reference to the forced file or the bytes read for the schema that
    the document names; it is compiled when the attempt [k], one of the
    [RETRY], is the first that answers without error, with [sch]. *)
Theorem Validate_schema_violations env pf vf doc l k sch res :
  LoadInputSbomFileAndDetectSchema env = (doc, None) ->
  CustomValidation vf && negb (IsCycloneDx env (FormatInfo doc)) = false ->
  ((ForcedJsonSchemaFile vf <> "" /\
    l = NewReferenceLoader ("file://" ++ ForcedJsonSchemaFile vf)) \/
   (ForcedJsonSchemaFile vf = "" /\
    exists bSchema,
      ReadFile env (File (SchemaInfo doc)) = (bSchema, None) /\
      l = NewBytesLoader bSchema)) ->
  k < RETRY ->
  (forall j, j < k -> snd (NewSchema env j l) <> None) ->
  NewSchema env k l = (Some sch, None) ->
  Schema_Validate env sch
    (NewReferenceLoader (PROTOCOL_PREFIX_FILE ++ InputFile pf))
  = (Some res, None) ->
  Errors res <> [] ->
  fst (Validate env pf vf)
  = Returned {| valid := false; document := doc;
                schemaErrors := Errors res;
                err := Some (InvalidSBOMError (GetFilename doc)
                               (MSG_SCHEMA_ERRORS env) None (Errors res)) |} /\
  IsInvalidSBOMError
    (InvalidSBOMError (GetFilename doc) (MSG_SCHEMA_ERRORS env) None
       (Errors res)) = true /\
  In (EvSchemaValidate sch
        (NewReferenceLoader (PROTOCOL_PREFIX_FILE ++ InputFile pf)))
     (snd (Validate env pf vf)).
Proof.
  intros Hload Hpre Hloader Hk Hfail Hok Hsv Hne.
  destruct (loop_run_attempts env l (Some sch, None) k RETRY 0 (None, None)
              Hk Hfail Hok eq_refl) as (evs & Hrun & _).
  split; [ | split; [ reflexivity | ] ];
    revert doc l sch res evs Hload Hpre Hloader Hrun Hsv Hne
           k Hk Hfail Hok.
  - apply (Validate_wp env pf vf (fun o _ => forall doc l sch res evs,
      LoadInputSbomFileAndDetectSchema env = (doc, None) ->
      CustomValidation vf && negb (IsCycloneDx env (FormatInfo doc)) = false ->
      ((ForcedJsonSchemaFile vf <> "" /\
        l = NewReferenceLoader ("file://" ++ ForcedJsonSchemaFile vf)) \/
       (ForcedJsonSchemaFile vf = "" /\
        exists bSchema,
          ReadFile env (File (SchemaInfo doc)) = (bSchema, None) /\
          l = NewBytesLoader bSchema)) ->
      loop_run env l RETRY 0 (None, None) (Some sch, None) evs ->
      Schema_Validate env sch
        (NewReferenceLoader (PROTOCOL_PREFIX_FILE ++ InputFile pf))
      = (Some res, None) ->
      Errors res <> [] ->
      forall k, k < RETRY ->
      (forall j, j < k -> snd (NewSchema env j l) <> None) ->
      NewSchema env k l = (Some sch, None) ->
      o = Returned {| valid := false; document := doc;
                      schemaErrors := Errors res;
                      err := Some (InvalidSBOMError (GetFilename doc)
                                     (MSG_SCHEMA_ERRORS env) None
                                     (Errors res)) |})).
    wp_run. all: run_to_validator. all: reflexivity.
  - apply (Validate_wp env pf vf (fun _ t => forall doc l sch res evs,
      LoadInputSbomFileAndDetectSchema env = (doc, None) ->
      CustomValidation vf && negb (IsCycloneDx env (FormatInfo doc)) = false ->
      ((ForcedJsonSchemaFile vf <> "" /\
        l = NewReferenceLoader ("file://" ++ ForcedJsonSchemaFile vf)) \/
       (ForcedJsonSchemaFile vf = "" /\
        exists bSchema,
          ReadFile env (File (SchemaInfo doc)) = (bSchema, None) /\
          l = NewBytesLoader bSchema)) ->
      loop_run env l RETRY 0 (None, None) (Some sch, None) evs ->
      Schema_Validate env sch
        (NewReferenceLoader (PROTOCOL_PREFIX_FILE ++ InputFile pf))
      = (Some res, None) ->
      Errors res <> [] ->
      forall k, k < RETRY ->
      (forall j, j < k -> snd (NewSchema env j l) <> None) ->
      NewSchema env k l = (Some sch, None) ->
      In (EvSchemaValidate sch
            (NewReferenceLoader (PROTOCOL_PREFIX_FILE ++ InputFile pf))) t)).
    wp_run. all: run_to_validator.
    all: rewrite !in_app_iff; cbn [In]; auto 10.
Qed.

Lemma Validate_schema_violations_witness :
  let run := Validate env_violation sample_persistentFlags
               (sample_validateFlags "") in
  LoadInputSbomFileAndDetectSchema env_violation = (sample_document, None) /\
  NewSchema env_violation 0 (NewBytesLoader "{}")
  = (Some (MkSchema "compiled"), None) /\
  Schema_Validate env_violation (MkSchema "compiled")
    (NewReferenceLoader "file://bom.json") = (Some sample_result, None) /\
  Errors sample_result <> [] /\
  fst run
  = Returned {| valid := false; document := sample_document;
                schemaErrors := [sample_violation];
                err := Some (InvalidSBOMError "bom.json"
                               "schema errors found" None [sample_violation]) |} /\
  In (EvSchemaValidate (MkSchema "compiled")
        (NewReferenceLoader "file://bom.json")) (snd run).
Proof.
  intros run.
  assert (Hne : Errors sample_result <> []) by discriminate.
  assert (Hloader :
    (ForcedJsonSchemaFile (sample_validateFlags "") <> "" /\
     NewBytesLoader "{}"
     = NewReferenceLoader
         ("file://" ++ ForcedJsonSchemaFile (sample_validateFlags ""))) \/
    (ForcedJsonSchemaFile (sample_validateFlags "") = "" /\
     exists bSchema,
       ReadFile env_violation (File (SchemaInfo sample_document))
       = (bSchema, None) /\
       NewBytesLoader "{}" = NewBytesLoader bSchema)).
  { right. split; [ reflexivity | ]. exists "{}". split; reflexivity. }
  assert (Hk : 0 < RETRY) by (unfold RETRY; lia).
  assert (Hfail : forall j, j < 0 ->
            snd (NewSchema env_violation j (NewBytesLoader "{}")) <> None)
    by (intros j Hj; lia).
  do 4 (split; [ first [ reflexivity | exact Hne ] | ]).
  destruct (Validate_schema_violations env_violation sample_persistentFlags
              (sample_validateFlags "") sample_document (NewBytesLoader "{}")
              0 (MkSchema "compiled") sample_result
              eq_refl eq_refl Hloader Hk Hfail eq_refl eq_refl Hne)
    as (Hrun & _ & Hin).
  split; [ exact Hrun | exact Hin ].
Defined.

(** C3. When the loader is as the spec has it and the parser rejects
    the bytes of the input with a syntax error, Validate returns
    [INVALID], that [*json.SyntaxError] (which is not an
    [InvalidSBOMError]) and no schema error; it reads and compiles no
    schema and does not run the validator: it logs the position of the
    error and the verdict. *)
Theorem Validate_syntax_error env pf vf (w : InputWorld) raw msg offset :
  LoadInputSbomFileAndDetectSchema env
  = LoadInputSbomFileAndDetectSchema_spec w ->
  in_read w = (raw, None) ->
  in_parse w raw = ParseSyntaxError msg offset ->
  let e := JsonSyntaxError msg offset in
  Validate env pf vf
  = (Returned {| valid := false; document := NewSbom (in_file w) raw;
                 schemaErrors := []; err := Some e |},
     [EvLoadInput; EvDisplayJSONErrorDetails raw e;
      EvLogInfoValid (in_file w) false]) /\
  IsJsonSyntaxError e = true /\
  IsInvalidSBOMError e = false.
Proof.
  intros Hload Hread Hparse e.
  split; [ | split; reflexivity ].
  unfold Validate, Validate_body, LoadInputSbomFileAndDetectSchema_spec in *.
  rewrite Hread, Hparse in Hload.
  unfold bind, call, emit, ret, return_ at 1. rewrite Hload. reflexivity.
Qed.

Lemma Validate_syntax_error_witness :
  let e := JsonSyntaxError "unexpected end of JSON input" 1 in
  in_parse input_truncated "{" = ParseSyntaxError "unexpected end of JSON input" 1 /\
  Validate env_truncated sample_persistentFlags (sample_validateFlags "")
  = (Returned {| valid := false; document := NewSbom "bad.json" "{";
                 schemaErrors := []; err := Some e |},
     [EvLoadInput; EvDisplayJSONErrorDetails "{" e;
      EvLogInfoValid "bad.json" false]).
Proof.
  intros e. split; [ reflexivity | ].
  exact (proj1 (Validate_syntax_error env_truncated sample_persistentFlags
                  (sample_validateFlags "") input_truncated "{"
                  "unexpected end of JSON input" 1 eq_refl eq_refl eq_refl)).
Defined.

(** *** Sample runs *)

(** A valid document: one attempt, one evaluation, no error. *)
Example Validate_valid_run :
  Validate env_valid sample_persistentFlags (sample_validateFlags "")
  = (Returned {| valid := true; document := sample_document;
                 schemaErrors := []; err := None |},
     [EvLoadInput; EvReadFile "schema/cyclonedx/1.4/bom-1.4.schema.json";
      EvNewSchema 0 (NewBytesLoader "{}");
      EvSchemaValidate (MkSchema "compiled")
        (NewReferenceLoader "file://bom.json")]).
Proof. reflexivity. Qed.

(** A schema that compiles at the second attempt: two attempts, a
    warning in between. *)
Example Validate_second_attempt :
  snd (Validate env_second sample_persistentFlags (sample_validateFlags ""))
  = [EvLoadInput; EvReadFile "schema/cyclonedx/1.4/bom-1.4.schema.json";
     EvNewSchema 0 (NewBytesLoader "{}");
     EvWarnRetry (OtherError "503 Service Unavailable");
     EvNewSchema 1 (NewBytesLoader "{}");
     EvSchemaValidate (MkSchema "compiled")
       (NewReferenceLoader "file://bom.json")].
Proof. reflexivity. Qed.

End ValidateFacts.

(** * Further properties *)

(** ** The UTF-8 coercion: its output is valid and it is idempotent *)

Section Utf8More.
Import Utf8.

(** The length of the sequence at the head of a string depends on the
    bytes of that sequence only. *)
Lemma seq_len_1 b0 r r' :
  seq_len (String b0 r) = 1 -> seq_len (String b0 r') = 1.
Proof.
  unfold seq_len. destruct (N_of_ascii b0 <? 128)%N; [ reflexivity | ].
  repeat case_match; discriminate.
Qed.

Lemma seq_len_2 b0 b1 r r' :
  seq_len (String b0 (String b1 r)) = 2 ->
  seq_len (String b0 (String b1 r')) = 2.
Proof.
  unfold seq_len. destruct (N_of_ascii b0 <? 128)%N; [ discriminate | ].
  destruct (first (N_of_ascii b0)) as [[[sz lo] hi] | ]; [ | discriminate ].
  destruct (in_range lo hi b1); [ | discriminate ].
  destruct sz as [ | [ | [ | sz ] ] ]; try reflexivity;
    repeat case_match; discriminate.
Qed.

Lemma seq_len_3 b0 b1 b2 r r' :
  seq_len (String b0 (String b1 (String b2 r))) = 3 ->
  seq_len (String b0 (String b1 (String b2 r'))) = 3.
Proof.
  unfold seq_len. destruct (N_of_ascii b0 <? 128)%N; [ discriminate | ].
  destruct (first (N_of_ascii b0)) as [[[sz lo] hi] | ]; [ | discriminate ].
  destruct (in_range lo hi b1); [ | discriminate ].
  destruct sz as [ | [ | [ | [ | sz ] ] ] ]; try discriminate;
    destruct (is_cont b2); try discriminate; try reflexivity;
    repeat case_match; discriminate.
Qed.

Lemma seq_len_4 b0 b1 b2 b3 r r' :
  seq_len (String b0 (String b1 (String b2 (String b3 r)))) = 4 ->
  seq_len (String b0 (String b1 (String b2 (String b3 r')))) = 4.
Proof.
  unfold seq_len. destruct (N_of_ascii b0 <? 128)%N; [ discriminate | ].
  destruct (first (N_of_ascii b0)) as [[[sz lo] hi] | ]; [ | discriminate ].
  destruct (in_range lo hi b1); [ | discriminate ].
  destruct sz as [ | [ | [ | [ | sz ] ] ] ]; try discriminate;
    destruct (is_cont b2); try discriminate;
    destruct (is_cont b3); try discriminate; reflexivity.
Qed.

Lemma seq_len_RuneError x : seq_len (RuneError ++ x) = 3.
Proof. reflexivity. Qed.

Lemma ValidString_RuneError x : ValidString (RuneError ++ x) = ValidString x.
Proof.
  change (RuneError ++ x)
    with (String (byte_of 239) (String (byte_of 191) (String (byte_of 189) x))).
  rewrite ValidString_cons.
  change (String (byte_of 239) (String (byte_of 191) (String (byte_of 189) x)))
    with (RuneError ++ x).
  now rewrite seq_len_RuneError.
Qed.

Lemma ValidString_coerce_upto (n : nat) :
  forall s, (String.length s <= n)%nat -> ValidString (coerce s) = true.
Proof.
  induction n as [ | n IH ]; intros s Hlen.
  - destruct s; [ reflexivity | simpl in Hlen; lia ].
  - destruct s as [ | b0 r0 ]; [ reflexivity | ].
    rewrite coerce_cons. simpl in Hlen.
    destruct (seq_len (String b0 r0)) as [ | [ | [ | [ | [ | k ] ] ] ] ] eqn:E;
      destruct r0 as [ | b1 [ | b2 [ | b3 r3 ] ] ]; simpl in Hlen;
      try (rewrite ValidString_RuneError; apply IH; simpl; lia);
      rewrite ValidString_cons.
    all: first
      [ rewrite (seq_len_1 _ _ _ E)
      | rewrite (seq_len_2 _ _ _ _ E)
      | rewrite (seq_len_3 _ _ _ _ _ E)
      | rewrite (seq_len_4 _ _ _ _ _ _ E) ];
      apply IH; simpl; lia.
Qed.

(** Whatever the string, what the encoder writes is valid UTF-8. *)
Lemma ValidString_coerce s : ValidString (coerce s) = true.
Proof. apply (ValidString_coerce_upto (String.length s)); lia. Qed.

(** Coercing twice is coercing once. *)
Lemma coerce_idempotent s : coerce (coerce s) = coerce s.
Proof. apply coerce_valid, ValidString_coerce. Qed.

End Utf8More.

(** ** The marshallers of licences *)

Section MarshalMore.
Import Marshal MarshalObjects.

Lemma recode_member_of s x :
  member_of s = Some x -> encode (decode x) = x.
Proof.
  unfold member_of. destruct (decide (s = "")); intros [= <-].
  cbn [encode decode]. now rewrite coerce_idempotent.
Qed.

(** Decoding the object of an attachment and encoding it again gives
    the same object. *)
Lemma recode_attachment_object a :
  encode <$> (decode <$> attachment_object a) = attachment_object a.
Proof.
  unfold attachment_object. cbv zeta.
  destruct (member_of (ContentType a)) as [j1 | ] eqn:E1;
    destruct (member_of (Encoding a)) as [j2 | ] eqn:E2;
    destruct (member_of (Content a)) as [j3 | ] eqn:E3;
    rewrite ?fmap_insert, ?fmap_empty;
    rewrite ?(recode_member_of _ _ E1), ?(recode_member_of _ _ E2),
      ?(recode_member_of _ _ E3);
    reflexivity.
Qed.

Lemma recode_text_member a x :
  text_member a = Some x -> encode (decode x) = x.
Proof.
  unfold text_member. destruct (decide (a = CDXAttachment_zero)); intros [= <-].
  cbn [encode decode]. now rewrite recode_attachment_object.
Qed.

Lemma recode_license_object l :
  encode <$> (decode <$> license_object l) = license_object l.
Proof.
  unfold license_object. cbv zeta.
  destruct (member_of (Id l)) as [j1 | ] eqn:E1;
    destruct (member_of (Name l)) as [j2 | ] eqn:E2;
    destruct (member_of (Url l)) as [j3 | ] eqn:E3;
    destruct (text_member (Text l)) as [j4 | ] eqn:E4;
    rewrite ?fmap_insert, ?fmap_empty;
    rewrite ?(recode_member_of _ _ E1), ?(recode_member_of _ _ E2),
      ?(recode_member_of _ _ E3), ?(recode_text_member _ _ E4);
    reflexivity.
Qed.

Lemma CDXLicense_MarshalJSON_object l :
  CDXLicense_MarshalJSON l = (Some (JObject (license_object l)), None).
Proof.
  unfold CDXLicense_MarshalJSON, license_object, text_member. cbv zeta.
  destruct (decide (Text l = CDXAttachment_zero)) as [E | N].
  - rewrite decide_False by (intros H; apply H, E).
    unfold json_Marshal. cbn [encode].
    now rewrite !encode_insert, fmap_empty.
  - rewrite decide_True by exact N.
    rewrite CDXAttachment_MarshalJSON_object. cbn [json_Unmarshal_map].
    unfold json_Marshal. cbn [encode].
    rewrite fmap_insert. cbn [encode].
    now rewrite recode_attachment_object, !encode_insert, fmap_empty.
Qed.

Lemma CDXLicenseChoice_MarshalJSON_choice_object c :
  CDXLicenseChoice_MarshalJSON c = (Some (JObject (choice_object c)), None).
Proof.
  unfold CDXLicenseChoice_MarshalJSON, choice_object, license_member. cbv zeta.
  destruct (decide (License c = CDXLicense_zero)) as [E | N].
  - rewrite decide_False by (intros H; apply H, E).
    unfold json_Marshal. cbn [encode].
    now rewrite !encode_insert, fmap_empty.
  - rewrite decide_True by exact N.
    rewrite CDXLicense_MarshalJSON_object. cbn [json_Unmarshal_map].
    unfold json_Marshal. cbn [encode].
    rewrite fmap_insert. cbn [encode].
    now rewrite recode_license_object, !encode_insert, fmap_empty.
Qed.

Lemma text_member_None a : text_member a = None <-> a = CDXAttachment_zero.
Proof.
  unfold text_member.
  destruct (decide (a = CDXAttachment_zero)); split; intros; congruence.
Qed.

Lemma license_member_None l : license_member l = None <-> l = CDXLicense_zero.
Proof.
  unfold license_member.
  destruct (decide (l = CDXLicense_zero)); split; intros; congruence.
Qed.

Lemma license_object_lookup l :
  license_object l !! "id" = member_of (Id l) /\
  license_object l !! "name" = member_of (Name l) /\
  license_object l !! "url" = member_of (Url l) /\
  license_object l !! "text" = text_member (Text l) /\
  (forall k, k <> "id" -> k <> "name" -> k <> "url" -> k <> "text" ->
             license_object l !! k = None).
Proof.
  unfold license_object.
  destruct (member_of (Id l)) as [j1|] eqn:E1;
    destruct (member_of (Name l)) as [j2|] eqn:E2;
    destruct (member_of (Url l)) as [j3|] eqn:E3;
    destruct (text_member (Text l)) as [j4|] eqn:E4;
    repeat split; intros; simplify_map_eq; reflexivity.
Qed.

Lemma choice_object_lookup c :
  choice_object c !! "expression" = member_of (Expression c) /\
  choice_object c !! "license" = license_member (License c) /\
  (forall k, k <> "expression" -> k <> "license" -> choice_object c !! k = None).
Proof.
  unfold choice_object.
  destruct (member_of (Expression c)) as [j1|] eqn:E1;
    destruct (license_member (License c)) as [j2|] eqn:E2;
    repeat split; intros; simplify_map_eq; reflexivity.
Qed.

(** X1. [MarshalJSON] of a licence never fails. The object it returns
    has the members ["id"], ["name"] and ["url"] exactly for the fields
    that are not empty, the member ["text"] exactly when the attachment
    is not [CDXAttachment{}], holding what [MarshalJSON] returns for the
    attachment, and no other member; for [CDXLicense{}] it is the empty
    object. *)
Theorem CDXLicense_MarshalJSON_members (l : CDXLicense) :
  exists o : gmap string json,
    CDXLicense_MarshalJSON l = (Some (JObject o), None) /\
    o !! "id" = member_of (Id l) /\
    o !! "name" = member_of (Name l) /\
    o !! "url" = member_of (Url l) /\
    (o !! "text" = None <-> Text l = CDXAttachment_zero) /\
    (Text l <> CDXAttachment_zero ->
     exists data,
       CDXAttachment_MarshalJSON (Text l) = (Some data, None) /\
       o !! "text" = Some data) /\
    (forall k, k <> "id" -> k <> "name" -> k <> "url" -> k <> "text" ->
               o !! k = None) /\
    (l = CDXLicense_zero -> o = ∅).
Proof.
  exists (license_object l).
  destruct (license_object_lookup l) as (H1 & H2 & H3 & H4 & H5).
  split; [ apply CDXLicense_MarshalJSON_object | ].
  do 3 (split; [ assumption | ]).
  split; [ rewrite H4; apply text_member_None | ].
  split.
  - intros N. exists (JObject (attachment_object (Text l))).
    split; [ apply CDXAttachment_MarshalJSON_object | ].
    rewrite H4. unfold text_member. now rewrite decide_False.
  - split; [ exact H5 | ]. intros ->. reflexivity.
Qed.

Lemma CDXLicense_MarshalJSON_members_witness :
  Text license_sample <> CDXAttachment_zero /\
  exists o data,
    CDXLicense_MarshalJSON license_sample = (Some (JObject o), None) /\
    o !! "id" = Some (JString "Apache-2.0") /\
    o !! "name" = None /\
    CDXAttachment_MarshalJSON (Text license_sample) = (Some data, None) /\
    o !! "text" = Some data.
Proof.
  assert (N : Text license_sample <> CDXAttachment_zero) by discriminate.
  split; [ exact N | ].
  destruct (CDXLicense_MarshalJSON_members license_sample)
    as (o & Hm & Hid & Hname & _ & _ & Htext & _).
  destruct (Htext N) as (data & Hd & Ht).
  exists o, data. repeat split; assumption.
Defined.

(** X2. [MarshalJSON] of a licence choice never fails. Its object has
    the member ["expression"] exactly when the expression is not empty
    and the member ["license"] exactly when the licence is not
    [CDXLicense{}], holding what [MarshalJSON] returns for the licence,
    and no other member. The two are independent: a choice with both
    populated is written with both members. *)
Theorem CDXLicenseChoice_MarshalJSON_members (c : CDXLicenseChoice) :
  exists o : gmap string json,
    CDXLicenseChoice_MarshalJSON c = (Some (JObject o), None) /\
    o !! "expression" = member_of (Expression c) /\
    (o !! "license" = None <-> License c = CDXLicense_zero) /\
    (License c <> CDXLicense_zero ->
     exists data,
       CDXLicense_MarshalJSON (License c) = (Some data, None) /\
       o !! "license" = Some data) /\
    (forall k, k <> "expression" -> k <> "license" -> o !! k = None) /\
    (Expression c <> "" -> License c <> CDXLicense_zero ->
     is_Some (o !! "expression") /\ is_Some (o !! "license")).
Proof.
  exists (choice_object c).
  destruct (choice_object_lookup c) as (H1 & H2 & H3).
  split; [ apply CDXLicenseChoice_MarshalJSON_choice_object | ].
  split; [ exact H1 | ].
  split; [ rewrite H2; apply license_member_None | ].
  assert (Hl : License c <> CDXLicense_zero ->
               choice_object c !! "license"
               = Some (JObject (license_object (License c)))).
  { intros N. rewrite H2. unfold license_member. now rewrite decide_False. }
  split.
  - intros N. exists (JObject (license_object (License c))).
    split; [ apply CDXLicense_MarshalJSON_object | now apply Hl ].
  - split; [ exact H3 | ]. intros He N. split.
    + rewrite H1. unfold member_of. rewrite decide_False by exact He. eauto.
    + rewrite (Hl N). eauto.
Qed.

Lemma CDXLicenseChoice_MarshalJSON_members_witness :
  Expression choice_both_sample <> "" /\
  License choice_both_sample <> CDXLicense_zero /\
  exists o,
    CDXLicenseChoice_MarshalJSON choice_both_sample = (Some (JObject o), None) /\
    is_Some (o !! "expression") /\ is_Some (o !! "license").
Proof.
  assert (He : Expression choice_both_sample <> "") by discriminate.
  assert (N : License choice_both_sample <> CDXLicense_zero) by discriminate.
  split; [ exact He | ]. split; [ exact N | ].
  destruct (CDXLicenseChoice_MarshalJSON_members choice_both_sample)
    as (o & Hm & _ & _ & _ & _ & Hboth).
  exists o. split; [ exact Hm | exact (Hboth He N) ].
Defined.

Lemma member_of_coerce s : member_of (Utf8.coerce s) = member_of s.
Proof.
  unfold member_of. rewrite coerce_idempotent.
  destruct (decide (s = "")) as [-> | N]; [ reflexivity | ].
  rewrite decide_False; [ reflexivity | ].
  intros E. apply N. exact (proj1 (coerce_empty_iff s) E).
Qed.

(** X3. One round trip settles an attachment: what the parser gives for
    the output of [MarshalJSON] is marshalled to the same output again,
    and it comes back from a further round trip as it is. *)
Theorem CDXAttachment_roundtrip_stable (a a' : CDXAttachment) (data : json) :
  CDXAttachment_MarshalJSON a = (Some data, None) ->
  CDXAttachment_Unmarshal data = (a', None) ->
  CDXAttachment_MarshalJSON a' = (Some data, None) /\
  roundtrip_exact a'.
Proof.
  rewrite CDXAttachment_MarshalJSON_object. intros [= <-].
  rewrite CDXAttachment_Unmarshal_object. intros [= <-].
  assert (Ho : attachment_object (coerce_attachment a) = attachment_object a).
  { unfold attachment_object, coerce_attachment.
    cbn [ContentType Encoding Content]. now rewrite !member_of_coerce. }
  assert (Hm : CDXAttachment_MarshalJSON (coerce_attachment a)
               = (Some (JObject (attachment_object a)), None)).
  { now rewrite CDXAttachment_MarshalJSON_object, Ho. }
  split; [ exact Hm | ].
  exists (JObject (attachment_object a)). split; [ exact Hm | ].
  rewrite <- Ho, CDXAttachment_Unmarshal_object.
  unfold coerce_attachment. cbn [ContentType Encoding Content].
  now rewrite !coerce_idempotent.
Qed.

Lemma CDXAttachment_roundtrip_stable_witness :
  let a' := {| ContentType := ""; Encoding := "";
               Content := Utf8.RuneError |} in
  CDXAttachment_MarshalJSON attachment_invalid_utf8
  = (Some (JObject {[ "content" := JString Utf8.RuneError ]}), None) /\
  roundtrip_exact a'.
Proof.
  intros a'.
  destruct CDXAttachment_roundtrip_invalid_utf8 as [Hm Hu].
  split; [ exact Hm | ].
  exact (proj2 (CDXAttachment_roundtrip_stable attachment_invalid_utf8 a' _
                  Hm Hu)).
Defined.

End MarshalMore.

(** ** The resource command *)

Section ResourceMore.
Import ResourceCmd ResourceImpl.

(** A list that is sorted for an order, and a permutation of it that is
    sorted as well, are the same list when the order tells the members
    apart. *)
Lemma sorted_permutation_unique {A : Type} (R : A -> A -> Prop) (l1 : list A) :
  forall l2,
    (forall a b, In a l1 -> In b l1 -> R a b -> R b a -> a = b) ->
    StronglySorted R l1 -> StronglySorted R l2 -> Permutation l1 l2 ->
    l1 = l2.
Proof.
  induction l1 as [ | a l1 IH ]; intros l2 Hanti Hs1 Hs2 Hp.
  - apply Permutation_nil in Hp. now subst.
  - destruct l2 as [ | b l2 ];
      [ apply Permutation_sym, Permutation_nil in Hp; discriminate Hp | ].
    apply StronglySorted_inv in Hs1, Hs2.
    destruct Hs1 as [Hs1 Ha], Hs2 as [Hs2 Hb].
    rewrite List.Forall_forall in Ha, Hb.
    assert (Hab : a = b).
    { assert (Hin_a : In a (b :: l2))
        by (eapply Permutation_in; [ exact Hp | now left ]).
      assert (Hin_b : In b (a :: l1))
        by (eapply Permutation_in; [ symmetry; exact Hp | now left ]).
      destruct Hin_a as [-> | Hin_a]; [ reflexivity | ].
      destruct Hin_b as [-> | Hin_b]; [ reflexivity | ].
      apply Hanti; [ now left | now right | now apply Ha | now apply Hb ]. }
    subst b. f_equal. apply IH; try assumption.
    + intros x y Hx Hy. apply Hanti; now right.
    + now apply Permutation_cons_inv in Hp.
Qed.

Lemma by_type_then_name_antisym e1 e2 :
  by_type_then_name e1 e2 -> by_type_then_name e2 e1 ->
  Type' (Value e1) = Type' (Value e2) /\ Name (Value e1) = Name (Value e2).
Proof.
  unfold by_type_then_name. cbv zeta.
  intros [L1 | [E1 H1]] [L2 | [E2 H2]].
  - destruct (string_lt_asym _ _ L1 L2).
  - rewrite E2 in L1. apply String_as_OT.lt_not_eq in L1. now destruct L1.
  - rewrite E1 in L2. apply String_as_OT.lt_not_eq in L2. now destruct L2.
  - split; [ exact E1 | ].
    destruct H1 as [L1 | N1]; [ | exact N1 ].
    destruct H2 as [L2 | N2]; [ | now symmetry ].
    destruct (string_lt_asym _ _ L1 L2).
Qed.

Context (env : Env) {sorter : SortSlice}.

(** With entries told apart by type and name, sorting does not depend
    on the order in which they are given. *)
Lemma sort_Slice_permutation (l l' : list Entry) :
  distinct_type_name l -> Permutation l l' ->
  sort_Slice less l = sort_Slice less l'.
Proof.
  intros Hd Hp.
  destruct (sorted_entries l) as [Hp1 Hs1].
  destruct (sorted_entries l') as [Hp2 Hs2].
  apply (sorted_permutation_unique by_type_then_name); try assumption.
  - intros a b Ha Hb Hab Hba.
    destruct (by_type_then_name_antisym _ _ Hab Hba) as [Ht Hn].
    apply Hd; try assumption; eapply Permutation_in; eassumption.
  - etransitivity; [ exact Hp1 | ].
    etransitivity; [ exact Hp | symmetry; exact Hp2 ].
Qed.

(** X4. When the entries of a resource map are told apart by type and
    name, the three listings are the same for every order of the
    entries: two maps with the same entries in different orders are
    listed alike, line for line, with the same result. *)
Theorem listings_independent_of_order (bom bom' : BOM) :
  distinct_type_name (ResourceMap bom) ->
  Permutation (ResourceMap bom) (ResourceMap bom') ->
  DisplayResourceListText env bom = DisplayResourceListText env bom' /\
  DisplayResourceListCSV env bom = DisplayResourceListCSV env bom' /\
  DisplayResourceListMarkdown env bom = DisplayResourceListMarkdown env bom'.
Proof.
  intros Hd Hp.
  pose proof (sort_Slice_permutation _ _ Hd Hp) as Hs.
  pose proof (Permutation_length Hp) as Hl.
  unfold DisplayResourceListText, DisplayResourceListCSV,
    DisplayResourceListMarkdown, Entries.
  cbv zeta. rewrite Hs, Hl. repeat split; reflexivity.
Qed.

(** The result of the loop of the CSV listing: the error, wrapped, of
    its last call of [Write]. *)
Lemma csv_rows_result (entries : list Entry) :
  forall n err,
    fst (csv_rows env n err entries)
    = match last entries with
      | Some e =>
          csv_Write_error (csv_Write env (n + length entries - 1) (line_of e))
      | None => err
      end.
Proof.
  induction entries as [ | e l IH ]; intros n err; [ reflexivity | ].
  cbn [csv_rows]. fold (csv_Write_error (csv_Write env n (line_of e))).
  specialize (IH (S n) (csv_Write_error (csv_Write env n (line_of e)))).
  destruct (csv_rows env (S n) _ l) as [err' w]. cbn [fst] in *. subst err'.
  destruct l as [ | e' l ]; cbn [last length].
  - now replace (n + 1 - 1) with n by lia.
  - change (last (e :: e' :: l)) with (last (e' :: l)).
    destruct (last (e' :: l)) eqn:El;
      [ | apply last_None in El; discriminate El ].
    cbn [length]. do 2 f_equal. lia.
Qed.

(** X5. For a resource map with entries, once the header is written,
    the CSV listing returns the error of its last [Write] only: an
    error of an earlier row is forgotten when the last row is written. *)
Theorem DisplayResourceListCSV_last_write (bom : BOM) :
  csv_Write env 0 RESOURCE_LIST_TITLES = None ->
  ResourceMap bom <> [] ->
  exists e,
    last (sort_Slice less (ResourceMap bom)) = Some e /\
    fst (DisplayResourceListCSV env bom)
    = csv_Write_error
        (csv_Write env (length (ResourceMap bom)) (line_of e)).
Proof.
  intros Hw Hne.
  pose proof (sort_Slice_Permutation _ less (ResourceMap bom)) as Hp.
  pose proof (Permutation_length Hp) as Hl.
  destruct (last (sort_Slice less (ResourceMap bom))) as [e | ] eqn:El.
  - exists e. split; [ reflexivity | ].
    unfold DisplayResourceListCSV. rewrite Hw, (entries_nonempty bom Hne).
    unfold Entries.
    pose proof (csv_rows_result (sort_Slice less (ResourceMap bom)) 1 None)
      as Hr.
    destruct (csv_rows env 1 None _) as [err w]. cbn [fst] in *.
    rewrite Hr, El, Hl. do 2 f_equal. lia.
  - apply last_None in El. rewrite El in Hl.
    destruct (ResourceMap bom); [ now destruct Hne | discriminate Hl ].
Qed.

(** The calls that [loadDocumentResources] makes. *)
Lemma loadDocumentResources_cases document resourceType whereFilters :
  let d1 := UnmarshalCycloneDXBOM env document in
  let d2 := HashComponentResources env (fst d1) whereFilters in
  let d1' := if selects_components env resourceType then fst d2 else fst d1 in
  let d3 := HashServiceResources env d1' whereFilters in
  loadDocumentResources env document resourceType whereFilters
  = if negb (IsCycloneDx env (FormatInfo document)) then
      (document,
       Some (NewUnsupportedFormatForCommandError env
               (CanonicalName (FormatInfo document)) (GetFilename document)
               (CMD_LICENSE env) (FORMAT_ANY env)), [])
    else match snd d1 with
         | Some e => (fst d1, Some e, [EvUnmarshalCycloneDXBOM])
         | None =>
             let t1 :=
               if selects_components env resourceType
               then [EvUnmarshalCycloneDXBOM; EvHashComponentResources]
               else [EvUnmarshalCycloneDXBOM] in
             match (if selects_components env resourceType
                    then snd d2 else None) with
             | Some e => (d1', Some e, t1)
             | None =>
                 if selects_services env resourceType
                 then (fst d3, snd d3, (t1 ++ [EvHashServiceResources])%list)
                 else (d1', None, t1)
             end
         end.
Proof.
  cbv zeta. unfold loadDocumentResources, selects_components, selects_services.
  destruct (negb (IsCycloneDx env (FormatInfo document))); [ reflexivity | ].
  destruct (UnmarshalCycloneDXBOM env document) as [doc1 [e1 | ]];
    [ reflexivity | ].
  cbn [fst snd].
  destruct (String.eqb resourceType (RESOURCE_TYPE_DEFAULT env)
            || String.eqb resourceType (RESOURCE_TYPE_COMPONENT env)).
  - destruct (HashComponentResources env doc1 whereFilters) as [doc2 [e2 | ]];
      [ reflexivity | ].
    cbn [fst snd].
    destruct (String.eqb resourceType (RESOURCE_TYPE_DEFAULT env)
              || String.eqb resourceType (RESOURCE_TYPE_SERVICE env));
      [ | reflexivity ].
    now destruct (HashServiceResources env doc2 whereFilters).
  - destruct (String.eqb resourceType (RESOURCE_TYPE_DEFAULT env)
              || String.eqb resourceType (RESOURCE_TYPE_SERVICE env));
      [ | reflexivity ].
    now destruct (HashServiceResources env doc1 whereFilters).
Qed.

(** X6. Which resources [loadDocumentResources] hashes. The document is
    unmarshalled exactly when its format is CycloneDX; the components
    are hashed exactly when, moreover, the unmarshalling succeeded and
    the resource type is the default or [component]; the services are
    hashed exactly when the type is the default or [service] and
    nothing before has failed, on the document that the hashing of the
    components has left. A nil error means that every call that the
    type selects has succeeded. *)
Theorem loadDocumentResources_selection
    (document : BOM) (resourceType : string) (whereFilters : list WhereFilter) :
  let d1 := UnmarshalCycloneDXBOM env document in
  let d2 := HashComponentResources env (fst d1) whereFilters in
  let d1' := if selects_components env resourceType then fst d2 else fst d1 in
  let d3 := HashServiceResources env d1' whereFilters in
  let '(document', err, t) :=
    loadDocumentResources env document resourceType whereFilters in
  (In EvUnmarshalCycloneDXBOM t <-> IsCycloneDx env (FormatInfo document) = true) /\
  (In EvHashComponentResources t <->
   IsCycloneDx env (FormatInfo document) = true /\ snd d1 = None /\
   selects_components env resourceType = true) /\
  (In EvHashServiceResources t <->
   IsCycloneDx env (FormatInfo document) = true /\ snd d1 = None /\
   (selects_components env resourceType = true -> snd d2 = None) /\
   selects_services env resourceType = true) /\
  (err = None <->
   IsCycloneDx env (FormatInfo document) = true /\ snd d1 = None /\
   (selects_components env resourceType = true -> snd d2 = None) /\
   (selects_services env resourceType = true -> snd d3 = None)) /\
  (err = None ->
   document' = if selects_services env resourceType then fst d3 else d1').
Proof.
  cbv zeta. rewrite loadDocumentResources_cases. cbv zeta.
  destruct (IsCycloneDx env (FormatInfo document)); cbn [negb];
    [ | repeat split; intros; cbn in *; intuition congruence ].
  destruct (snd (UnmarshalCycloneDXBOM env document)) as [e1 | ];
    [ repeat split; intros; cbn in *; intuition congruence | ].
  destruct (selects_components env resourceType);
    [ destruct (snd (HashComponentResources env _ whereFilters)) as [e2 | ] | ];
    try (repeat split; intros; cbn in *; intuition congruence);
    destruct (selects_services env resourceType);
    try destruct (snd (HashServiceResources env _ whereFilters)) as [e3 | ];
    repeat split; intros; cbn in *; intuition congruence.
Qed.

(** [loadDocumentResources] only unmarshals and hashes. *)
Lemma loadDocumentResources_events document resourceType whereFilters :
  Forall (fun ev => ev = EvUnmarshalCycloneDXBOM \/
                    ev = EvHashComponentResources \/
                    ev = EvHashServiceResources)
    (snd (loadDocumentResources env document resourceType whereFilters)).
Proof.
  rewrite loadDocumentResources_cases. cbv zeta.
  repeat match goal with
    | |- context [if ?b then _ else _] => destruct b
    | |- context [match ?o with Some _ => _ | None => _ end] => destruct o
    end;
    cbn; repeat (apply List.Forall_cons; [ auto | ]); apply List.Forall_nil.
Qed.

(** Each listing hands something to its writer, whatever the map. *)
Lemma DisplayResourceListText_writes (bom : BOM) :
  exists o, In o (DisplayResourceListText env bom).
Proof.
  unfold DisplayResourceListText. cbv zeta.
  destruct (Nat.eqb (length (Entries (ResourceMap bom))) 0);
    eexists; apply in_app_iff; left; left; reflexivity.
Qed.

Lemma DisplayResourceListCSV_writes (bom : BOM) :
  In (CsvWrite RESOURCE_LIST_TITLES) (snd (DisplayResourceListCSV env bom)).
Proof.
  unfold DisplayResourceListCSV. cbv zeta.
  destruct (csv_Write env 0 RESOURCE_LIST_TITLES); [ now left | ].
  destruct (Nat.eqb (length (Entries (ResourceMap bom))) 0).
  - destruct (csv_Write env 1 _); now left.
  - destruct (csv_rows env 1 None _). now left.
Qed.

Lemma DisplayResourceListMarkdown_writes (bom : BOM) :
  exists o, In o (snd (DisplayResourceListMarkdown env bom)).
Proof.
  unfold DisplayResourceListMarkdown. cbv zeta.
  destruct (Nat.eqb (length (Entries (ResourceMap bom))) 0); cbn [snd];
    eexists; apply in_app_iff; left; left; reflexivity.
Qed.

(** X7. [ListResources] returns a nil error exactly when the document
    was loaded and its resources were loaded without error: what the
    listing returns is dropped, so that the error of the CSV or
    Markdown listing of an empty map does not reach the caller. An
    error that is returned is logged by [processResourceListResults],
    as the last step, and no listing is run; with a nil error a listing
    is run and hands something to the writer. *)
Theorem ListResources_result
    (persistentFlags : PersistentCommandFlags)
    (resourceFlags : ResourceCommandFlags) (whereFilters : list WhereFilter) :
  let run := ListResources env persistentFlags resourceFlags whereFilters in
  let document := fst (LoadInputBOMFileAndDetectSchema env) in
  let loaded :=
    loadDocumentResources env document (ResourceType resourceFlags)
      whereFilters in
  (fst run = None <->
   snd (LoadInputBOMFileAndDetectSchema env) = None /\ snd (fst loaded) = None) /\
  (forall e, fst run = Some e ->
     last (snd run) = Some (EvLogError e) /\
     forall o, ~ In (EvOutput o) (snd run)) /\
  (fst run = None -> exists o, In (EvOutput o) (snd run)).
Proof.
  cbv zeta. unfold ListResources.
  pose proof (loadDocumentResources_events
                (fst (LoadInputBOMFileAndDetectSchema env))
                (ResourceType resourceFlags) whereFilters) as Hev.
  destruct (LoadInputBOMFileAndDetectSchema env) as [document [e0 | ]];
    cbn [fst snd] in *.
  - split; [ split; [ discriminate | intros [H _]; discriminate H ] | ].
    split; [ | discriminate ].
    intros e [= <-]. split; [ reflexivity | ].
    intros o [H | [H | []]]; discriminate H.
  - destruct (loadDocumentResources env document (ResourceType resourceFlags)
                whereFilters) as [[document' [e1 | ]] t]; cbn [fst snd] in *.
    + split; [ split; [ discriminate | intros [_ H]; discriminate H ] | ].
      split; [ | discriminate ].
      intros e [= <-]. split.
      * cbn [processResourceListResults]. apply last_snoc.
      * intros o Hin. cbn [processResourceListResults] in Hin.
        apply in_app_iff in Hin. destruct Hin as [Hin | [H | []]];
          [ | discriminate H ].
        destruct Hin as [H | Hin]; [ discriminate H | ].
        rewrite List.Forall_forall in Hev.
        destruct (Hev _ Hin) as [H | [H | H]]; discriminate H.
    + split; [ split; [ auto | reflexivity ] | ].
      split; [ discriminate | ].
      intros _. cbn [processResourceListResults]. rewrite app_nil_r.
      assert (Hw : forall w pre, (exists o, In o w) ->
                exists o, In (EvOutput o) (pre ++ map EvOutput w)%list).
      { intros w pre [o Ho]. exists o. apply in_app_iff. right.
        now apply in_map. }
      repeat match goal with
        | |- context [if ?b then _ else _] => destruct b
        end.
      * apply Hw, DisplayResourceListText_writes.
      * apply Hw. eexists. apply DisplayResourceListCSV_writes.
      * apply Hw, DisplayResourceListMarkdown_writes.
      * destruct (DisplayResourceListText_writes document') as [o Ho].
        exists o. apply in_app_iff. right. right. now apply in_map.
Qed.

Lemma resourceCmdImpl_fst (cenv : CmdEnv) pf :
  fst (resourceCmdImpl env cenv pf)
  = match snd (retrieveResourceType cenv) with
    | Some e => Some e
    | None =>
        fst (ListResources env pf
               {| ResourceType := fst (retrieveResourceType cenv) |}
               (fst (processWhereFlag cenv)))
    end.
Proof.
  unfold resourceCmdImpl.
  destruct (createOutputFile cenv (OutputFile pf)) as [[f | ] e0];
    destruct (processWhereFlag cenv) as [wf e1];
    destruct (retrieveResourceType cenv) as [rt [e2 | ]]; cbn [fst snd];
    try reflexivity;
    now destruct (ListResources env pf {| ResourceType := rt |} wf).
Qed.

Lemma retrieveResourceType_ext (cenv cenv' : CmdEnv) :
  GetString cenv FLAG_RESOURCE_TYPE = GetString cenv' FLAG_RESOURCE_TYPE ->
  (forall s, IsValidResourceType cenv s = IsValidResourceType cenv' s) ->
  retrieveResourceType cenv = retrieveResourceType cenv'.
Proof.
  intros Hg Hv. unfold retrieveResourceType. rewrite Hg.
  destruct (GetString cenv' FLAG_RESOURCE_TYPE) as [rt [e | ]];
    [ reflexivity | ].
  now rewrite Hv.
Qed.

(** X8. [resourceCmdImpl] does not report the error of
    [createOutputFile] nor that of [processWhereFlag]: its result is
    that of reading the resource type and, when the type is valid, of
    [ListResources], run on the filters that [processWhereFlag] gave.
    [ListResources] is run exactly when the flag was read and names a
    valid type. An output file that was opened is closed at the end,
    whatever the result. *)
Theorem resourceCmdImpl_result (cenv cenv' : CmdEnv)
    (persistentFlags : PersistentCommandFlags) :
  let run := resourceCmdImpl env cenv persistentFlags in
  (GetString cenv FLAG_RESOURCE_TYPE = GetString cenv' FLAG_RESOURCE_TYPE ->
   (forall s, IsValidResourceType cenv s = IsValidResourceType cenv' s) ->
   fst (processWhereFlag cenv) = fst (processWhereFlag cenv') ->
   fst run = fst (resourceCmdImpl env cenv' persistentFlags)) /\
  ((exists rt wf t, In (EvListResources rt wf t) (snd run)) <->
   snd (GetString cenv FLAG_RESOURCE_TYPE) = None /\
   IsValidResourceType cenv (fst (GetString cenv FLAG_RESOURCE_TYPE)) = true) /\
  (forall f, fst (createOutputFile cenv (OutputFile persistentFlags)) = Some f ->
             last (snd run) = Some (EvCloseOutputFile f)).
Proof.
  cbv zeta. split; [ | split ].
  - intros Hg Hv Hw. rewrite !resourceCmdImpl_fst.
    now rewrite (retrieveResourceType_ext _ _ Hg Hv), Hw.
  - unfold resourceCmdImpl, retrieveResourceType.
    destruct (createOutputFile cenv (OutputFile persistentFlags))
      as [[f | ] e0];
      destruct (processWhereFlag cenv) as [wf e1];
      destruct (GetString cenv FLAG_RESOURCE_TYPE) as [rt [e2 | ]];
      cbn [fst snd];
      try destruct (IsValidResourceType cenv rt); cbn [negb];
      try destruct (ListResources env persistentFlags
                      {| ResourceType := rt |} wf) as [err inner];
      (split;
       [ intros (rt' & wf' & t' & Hin); cbn in Hin;
         intuition (try discriminate; auto)
       | intros [H1 H2]; try discriminate H1; try discriminate H2;
         exists rt, wf, inner; cbn; auto 10 ]).
  - intros f Hf. unfold resourceCmdImpl.
    destruct (createOutputFile cenv (OutputFile persistentFlags))
      as [o e0]. cbn [fst] in Hf. subst o.
    destruct (processWhereFlag cenv) as [wf e1].
    destruct (retrieveResourceType cenv) as [rt [e2 | ]];
      [ apply last_snoc | ].
    destruct (ListResources env persistentFlags {| ResourceType := rt |} wf).
    apply last_snoc.
Qed.

End ResourceMore.

(** *** The resource command on sample data *)

Section ResourceMoreSamples.
Import ResourceCmd ResourceImpl.

Lemma distinct_service_b_component_a :
  distinct_type_name [service_b; component_a].
Proof.
  intros e1 e2 [<- | [<- | []]] [<- | [<- | []]] Ht Hn;
    first [ reflexivity | discriminate Ht ].
Qed.

Lemma listings_independent_of_order_witness :
  let env0 := listing_env (sample_bom [], None) in
  distinct_type_name (ResourceMap (sample_bom [service_b; component_a])) /\
  DisplayResourceListText env0 (sample_bom [service_b; component_a])
  = DisplayResourceListText env0 (sample_bom [component_a; service_b]).
Proof.
  intros env0.
  split; [ exact distinct_service_b_component_a | ].
  exact (proj1 (listings_independent_of_order env0
                  (sample_bom [service_b; component_a])
                  (sample_bom [component_a; service_b])
                  distinct_service_b_component_a (perm_swap _ _ _))).
Defined.

(** The first row is not written, the second is: no error is returned. *)
Lemma DisplayResourceListCSV_last_write_witness :
  let env0 := listing_env_csv (sample_bom [], None) write_fails_at_1 in
  let bom := sample_bom [service_b; component_a] in
  csv_Write env0 0 RESOURCE_LIST_TITLES = None /\
  csv_Write env0 1 (line_of component_a) <> None /\
  fst (DisplayResourceListCSV env0 bom) = None.
Proof.
  intros env0 bom.
  split; [ reflexivity | ]. split; [ discriminate | ].
  assert (Hne : ResourceMap bom <> []) by discriminate.
  destruct (DisplayResourceListCSV_last_write env0 bom eq_refl Hne)
    as (e & _ & Hr).
  exact Hr.
Defined.

(** The CSV listing of an empty map returns an error, [ListResources]
    does not. *)
Lemma ListResources_result_witness :
  let env0 := listing_env (sample_bom [], None) in
  let pf := {| InputFile := "bom.json"; OutputFile := "";
               OutputFormat := "csv" |} in
  fst (DisplayResourceListCSV env0 (sample_bom [])) <> None /\
  fst (ListResources env0 pf {| ResourceType := "" |} []) = None.
Proof.
  intros env0 pf. split; [ discriminate | ].
  apply (proj1 (ListResources_result env0 pf {| ResourceType := "" |} [])).
  split; reflexivity.
Defined.

(** The output file cannot be created and the filters are in error: the
    listing is run all the same, and its result is the result. *)
Lemma resourceCmdImpl_result_witness :
  let env0 := listing_env (sample_bom [component_a], None) in
  let pf := {| InputFile := "bom.json"; OutputFile := "/out.txt";
               OutputFormat := "txt" |} in
  let cenv := sample_cmd_env "component" (Some (OtherError "bad filter")) in
  let cenv' := sample_cmd_env "component" None in
  snd (createOutputFile cenv "/out.txt") <> None /\
  snd (processWhereFlag cenv) <> None /\
  fst (resourceCmdImpl env0 cenv pf) = None.
Proof.
  intros env0 pf cenv cenv'.
  split; [ discriminate | ]. split; [ discriminate | ].
  rewrite (proj1 (resourceCmdImpl_result env0 cenv cenv' pf)
             eq_refl (fun _ => eq_refl) eq_refl).
  reflexivity.
Defined.

End ResourceMoreSamples.

(** ** Validate and its command *)

Section ValidateMore.
Import ValidateCmd ValidateImpl.

Ltac vcase :=
  match goal with
  | |- wp (match ?x with _ => _ end) _ _ _ _ => destruct x eqn:?
  | |- wp (if ?b then _ else _) _ _ _ _ => destruct b eqn:?
  end.

Ltac vstep :=
  first
    [ rewrite wp_bind | rewrite wp_call | rewrite wp_emit | rewrite wp_ret
    | rewrite wp_return | rewrite wp_panic
    | apply wp_compile_loop; intros [? ?] ? ?
    | vcase ].

(** Run Validate on symbols: one goal for each path. *)
Ltac vrun :=
  unfold Validate_body, validateCustom; cbv zeta; repeat vstep;
  cbn [deferred_log err valid document schemaErrors fst snd] in *;
  subst.

(** [List.filter f t] in normal form, for a trace [t] of Validate. *)
Ltac vfilter :=
  repeat progress
    (rewrite ?List.filter_app;
     repeat match goal with
       | |- context [List.filter ?f (validationError_log ?d ?v ?e)] =>
           rewrite (validationError_log_filter f d v e) by reflexivity
       | Hrun : loop_run _ _ _ _ _ _ ?evs |- context [List.filter ?f ?evs] =>
           rewrite (loop_run_filter f _ _ _ _ _ _ _
                      (fun _ _ => eq_refl) (fun _ => eq_refl) Hrun)
       end;
     cbn [List.filter is_NewSchema is_SchemaValidate is_ReadFile is_log
          is_FormatSchemaErrors is_WarnInvalidFormat is_ValidateCustom
          is_UnMarshalDocument app]);
  rewrite ?app_nil_r.

Lemma nonempty_false {A} (l : list A) : nonempty l = false -> l = [].
Proof. destruct l; [ reflexivity | discriminate ]. Qed.

Lemma nonempty_true {A} (l : list A) : nonempty l = true -> l <> [].
Proof. destruct l; [ discriminate | discriminate ]. Qed.

(** A verdict of validity rests on a run of the validator that ended
    without error and without violation. *)
Lemma Validate_valid_sound env pf vf r :
  fst (Validate env pf vf) = Returned r ->
  err r = None -> valid r = true ->
  exists sch res,
    In (EvSchemaValidate sch (documentLoader_of pf)) (snd (Validate env pf vf)) /\
    Schema_Validate env sch (documentLoader_of pf) = (Some res, None) /\
    Errors res = [] /\
    (CustomValidation vf = false -> Valid res = true).
Proof.
  revert r.
  apply (Validate_wp env pf vf (fun o t => forall r,
    o = Returned r -> err r = None -> valid r = true ->
    exists sch res,
      In (EvSchemaValidate sch (documentLoader_of pf)) t /\
      Schema_Validate env sch (documentLoader_of pf) = (Some res, None) /\
      Errors res = [] /\
      (CustomValidation vf = false -> Valid res = true))).
  vrun; intros r0 [= <-]; cbn [err valid]; intros Herr Hvalid;
    try discriminate;
    (eexists _, _; split;
     [ rewrite !in_app_iff; cbn [In]; eauto 10
     | split; [ eassumption | split; [ now apply nonempty_false | ] ] ]);
    intros; congruence.
Qed.

(** X9. When Validate returns [valid = true] and a nil error, the
    validator has been run on the loader of the input file, with a
    schema, and has answered a result without error and without
    violation; unless custom validation was asked for, the verdict is
    that of the validator. *)
Theorem Validate_valid_verdict env pf vf r :
  fst (Validate env pf vf) = Returned r ->
  err r = None -> valid r = true ->
  schemaErrors r = [] /\
  exists sch res,
    In (EvSchemaValidate sch (documentLoader_of pf)) (snd (Validate env pf vf)) /\
    Schema_Validate env sch (documentLoader_of pf) = (Some res, None) /\
    Errors res = [] /\
    (CustomValidation vf = false -> Valid res = true).
Proof.
  intros Hr Herr Hvalid.
  split; [ | exact (Validate_valid_sound env pf vf r Hr Herr Hvalid) ].
  revert r Hr Herr Hvalid.
  apply (Validate_wp env pf vf (fun o _ => forall r,
    o = Returned r -> err r = None -> valid r = true -> schemaErrors r = [])).
  vrun; intros r0 [= <-]; cbn [err valid schemaErrors]; intros Herr Hvalid;
    try discriminate; try reflexivity; now apply nonempty_false.
Qed.

Lemma Validate_valid_verdict_witness :
  let run := Validate env_valid sample_persistentFlags (sample_validateFlags "") in
  exists r sch res,
    fst run = Returned r /\ err r = None /\ valid r = true /\
    In (EvSchemaValidate sch (documentLoader_of sample_persistentFlags)) (snd run) /\
    Schema_Validate env_valid sch (documentLoader_of sample_persistentFlags)
    = (Some res, None) /\
    Errors res = [].
Proof.
  intros run.
  exists {| valid := true; document := sample_document; schemaErrors := [];
            err := None |}.
  destruct (Validate_valid_verdict env_valid sample_persistentFlags
              (sample_validateFlags "") _ eq_refl eq_refl eq_refl)
    as (_ & sch & res & Hin & Hv & He & _).
  exists sch, res. repeat split; assumption.
Defined.

(** X10. A list of schema errors that is not empty is returned only as
    the list of the validator's result, with [valid = false] and the
    [InvalidSBOMError] made from that list, after the list has been
    given to [FormatSchemaErrors]. *)
Theorem Validate_schemaErrors_origin env pf vf r :
  fst (Validate env pf vf) = Returned r ->
  schemaErrors r <> [] ->
  valid r = false /\
  err r = Some (NewInvalidSBOMError (document r) (MSG_SCHEMA_ERRORS env) None
                  (schemaErrors r)) /\
  (exists sch res,
     In (EvSchemaValidate sch (documentLoader_of pf)) (snd (Validate env pf vf)) /\
     Schema_Validate env sch (documentLoader_of pf) = (Some res, None) /\
     schemaErrors r = Errors res) /\
  exists format,
    In (EvFormatSchemaErrors (schemaErrors r) format) (snd (Validate env pf vf)).
Proof.
  revert r.
  apply (Validate_wp env pf vf (fun o t => forall r,
    o = Returned r -> schemaErrors r <> [] ->
    valid r = false /\
    err r = Some (NewInvalidSBOMError (document r) (MSG_SCHEMA_ERRORS env) None
                    (schemaErrors r)) /\
    (exists sch res,
       In (EvSchemaValidate sch (documentLoader_of pf)) t /\
       Schema_Validate env sch (documentLoader_of pf) = (Some res, None) /\
       schemaErrors r = Errors res) /\
    exists format, In (EvFormatSchemaErrors (schemaErrors r) format) t)).
  vrun; intros r0 [= <-]; cbn [err valid schemaErrors document];
    intros Hne; try (now destruct Hne);
    try (match goal with
         | H : nonempty _ = false |- _ =>
             apply nonempty_false in H; now destruct Hne
         end);
    (split; [ reflexivity | split; [ reflexivity | split ] ];
     [ eexists _, _; split;
       [ rewrite !in_app_iff; cbn [In]; eauto 10
       | split; [ eassumption | reflexivity ] ]
     | eexists; rewrite !in_app_iff; cbn [In]; eauto 10 ]).
Qed.

Lemma Validate_schemaErrors_origin_witness :
  let run := Validate env_violation sample_persistentFlags
               (sample_validateFlags "") in
  exists r,
    fst run = Returned r /\ schemaErrors r <> [] /\
    valid r = false /\
    err r = Some (InvalidSBOMError "bom.json" "schema errors found" None
                    [sample_violation]).
Proof.
  intros run.
  exists {| valid := false; document := sample_document;
            schemaErrors := [sample_violation];
            err := Some (InvalidSBOMError "bom.json" "schema errors found" None
                           [sample_violation]) |}.
  assert (Hne : [sample_violation] <> []) by discriminate.
  destruct (Validate_schemaErrors_origin env_violation sample_persistentFlags
              (sample_validateFlags "") _ eq_refl Hne) as (Hv & He & _).
  repeat split; assumption.
Defined.

(** X11. The report of the violations is formatted at most once. It is
    in the format that was asked for when that is one of the three that
    are known; for any other format a warning is logged and the report
    is in [FORMAT_TEXT]. *)
Theorem Validate_report_format env pf vf errs format :
  In (EvFormatSchemaErrors errs format) (snd (Validate env pf vf)) ->
  length (List.filter is_FormatSchemaErrors (snd (Validate env pf vf))) = 1 /\
  ((known_format env (OutputFormat pf) = true /\
    format = OutputFormat pf /\
    forall x, ~ In (EvWarnInvalidFormat x) (snd (Validate env pf vf))) \/
   (known_format env (OutputFormat pf) = false /\
    format = FORMAT_TEXT env /\
    In (EvWarnInvalidFormat (OutputFormat pf)) (snd (Validate env pf vf)))).
Proof.
  revert errs format.
  apply (Validate_wp env pf vf (fun _ t => forall errs format,
    In (EvFormatSchemaErrors errs format) t ->
    length (List.filter is_FormatSchemaErrors t) = 1 /\
    ((known_format env (OutputFormat pf) = true /\
      format = OutputFormat pf /\
      forall x, ~ In (EvWarnInvalidFormat x) t) \/
     (known_format env (OutputFormat pf) = false /\
      format = FORMAT_TEXT env /\
      In (EvWarnInvalidFormat (OutputFormat pf)) t)))).
  vrun; intros errs format Hin;
    (apply (In_filter is_FormatSchemaErrors) in Hin; [ | reflexivity ]);
    revert Hin; vfilter; intros Hin; cbn [In] in Hin;
    try (destruct Hin; fail);
    destruct Hin as [Hin | []]; injection Hin as <- <-;
    (split; [ reflexivity | ]); unfold known_format;
    match goal with
    | H : orb (orb _ _) _ = true |- _ =>
        left; split; [ exact H | split; [ reflexivity | ] ];
        intros x; apply (not_In_of_filter_nil is_WarnInvalidFormat);
        [ reflexivity | now vfilter ]
    | H : orb (orb _ _) _ = false |- _ =>
        right; split; [ exact H | split; [ reflexivity | ] ];
        cbn [In]; rewrite !in_app_iff; cbn [In]; auto 10
    end.
Qed.

Lemma Validate_report_format_witness :
  let pf := {| InputFile := "bom.json"; OutputFile := "";
               OutputFormat := "xml" |} in
  let run := Validate env_violation pf (sample_validateFlags "") in
  In (EvFormatSchemaErrors [sample_violation] "txt") (snd run) /\
  known_format env_violation "xml" = false /\
  In (EvWarnInvalidFormat "xml") (snd run).
Proof.
  intros pf run.
  assert (Hin : In (EvFormatSchemaErrors [sample_violation] "txt") (snd run))
    by (do 5 right; left; reflexivity).
  split; [ exact Hin | ].
  destruct (Validate_report_format env_violation pf (sample_validateFlags "")
              _ _ Hin) as [_ [(Hk & _) | (Hk & _ & Hw)]];
    [ discriminate Hk | ].
  split; [ exact Hk | exact Hw ].
Defined.

Lemma filter_nil_inv (f : event -> bool) t :
  List.filter f t = [] -> forall ev, In ev t -> f ev = false.
Proof.
  intros Hnil ev Hin. destruct (f ev) eqn:E; [ | reflexivity ].
  destruct (not_In_of_filter_nil f ev t E Hnil Hin).
Qed.

Lemma validationError_log_last d v e pre :
  last (pre ++ validationError_log d v (Some e))
  = Some (EvLogInfoValid (GetFilename d) v).
Proof.
  unfold validationError_log, validationError, bind, emit, ret.
  destruct e; try destruct v; cbn;
    rewrite last_app; reflexivity.
Qed.

(** X12. The verdict is logged by Validate exactly when it returns an
    error: with a nil error nothing is logged by [validationError],
    with an error the last thing logged is the verdict
    [valid=[false]] for the document that is returned. *)
Theorem Validate_verdict_logged env pf vf r :
  fst (Validate env pf vf) = Returned r ->
  (err r = None ->
   forall ev, In ev (snd (Validate env pf vf)) -> is_log ev = false) /\
  (err r <> None ->
   last (snd (Validate env pf vf))
   = Some (EvLogInfoValid (GetFilename (document r)) false)).
Proof.
  revert r.
  apply (Validate_wp env pf vf (fun o t => forall r,
    o = Returned r ->
    (err r = None -> forall ev, In ev t -> is_log ev = false) /\
    (err r <> None ->
     last t = Some (EvLogInfoValid (GetFilename (document r)) false)))).
  vrun; intros r0 [= <-]; cbn [err valid document];
    (split;
     [ intros Herr; try discriminate Herr;
       apply filter_nil_inv; now vfilter
     | intros Herr; try (now destruct Herr);
       apply validationError_log_last ]).
Qed.

Lemma Validate_verdict_logged_witness :
  let run := Validate env_violation sample_persistentFlags
               (sample_validateFlags "") in
  exists r,
    fst run = Returned r /\ err r <> None /\
    last (snd run) = Some (EvLogInfoValid "bom.json" false).
Proof.
  intros run.
  exists {| valid := false; document := sample_document;
            schemaErrors := [sample_violation];
            err := Some (InvalidSBOMError "bom.json" "schema errors found" None
                           [sample_violation]) |}.
  assert (Herr : Some (InvalidSBOMError "bom.json" "schema errors found" None
                         [sample_violation]) <> None) by discriminate.
  split; [ reflexivity | ]. split; [ exact Herr | ].
  exact (proj2 (Validate_verdict_logged env_violation sample_persistentFlags
                  (sample_validateFlags "") _ eq_refl) Herr).
Defined.

(** X13. [validateCustomCDXDocument] is called only when custom
    validation was asked for, after the validator has answered a result
    without error and without violation. Its answer decides the
    outcome: with a nil error Validate returns [valid = true] and a nil
    error; with an error it returns [valid = false] and an
    [InvalidSBOMError], the error itself if it is one already and else
    one that wraps it. *)
Theorem Validate_custom_validation env pf vf :
  In EvValidateCustomCDXDocument (snd (Validate env pf vf)) ->
  CustomValidation vf = true /\
  exists r,
    fst (Validate env pf vf) = Returned r /\
    schemaErrors r = [] /\
    (exists sch res,
       In (EvSchemaValidate sch (documentLoader_of pf))
          (snd (Validate env pf vf)) /\
       Schema_Validate env sch (documentLoader_of pf) = (Some res, None) /\
       Errors res = []) /\
    match validateCustomCDXDocument env (document r) with
    | Some e =>
        valid r = false /\
        err r = Some (custom_error env (document r) e) /\
        IsInvalidSBOMError (custom_error env (document r) e) = true
    | None => valid r = true /\ err r = None
    end.
Proof.
  apply (Validate_wp env pf vf (fun o t =>
    In EvValidateCustomCDXDocument t ->
    CustomValidation vf = true /\
    exists r,
      o = Returned r /\
      schemaErrors r = [] /\
      (exists sch res,
         In (EvSchemaValidate sch (documentLoader_of pf)) t /\
         Schema_Validate env sch (documentLoader_of pf) = (Some res, None) /\
         Errors res = []) /\
      match validateCustomCDXDocument env (document r) with
      | Some e =>
          valid r = false /\
          err r = Some (custom_error env (document r) e) /\
          IsInvalidSBOMError (custom_error env (document r) e) = true
      | None => valid r = true /\ err r = None
      end)).
  vrun; intros Hin;
    (apply (In_filter is_ValidateCustom) in Hin; [ | reflexivity ]);
    revert Hin; vfilter; intros Hin; cbn [In] in Hin;
    try (destruct Hin; fail);
    (split; [ first [ assumption | reflexivity ] | ]);
    (eexists; split; [ reflexivity | ]);
    cbn [schemaErrors document valid err];
    (split; [ now apply nonempty_false | ]);
    (split;
     [ eexists _, _; split;
       [ cbn [In]; rewrite !in_app_iff; cbn [In]; eauto 10
       | split; [ eassumption | now apply nonempty_false ] ]
     | ]);
    match goal with
    | H : validateCustomCDXDocument _ _ = _ |- _ => rewrite H
    end;
    unfold custom_error, NewInvalidSBOMError;
    try destruct (IsInvalidSBOMError _) eqn:?; cbn [negb];
    repeat split; first [ reflexivity | assumption ].
Qed.

Lemma Validate_custom_validation_witness :
  let run := Validate env_custom_fault sample_persistentFlags
               custom_validateFlags in
  In EvValidateCustomCDXDocument (snd run) /\
  exists r e,
    fst run = Returned r /\ valid r = false /\ err r = Some e /\
    IsInvalidSBOMError e = true.
Proof.
  intros run.
  assert (Hin : In EvValidateCustomCDXDocument (snd run))
    by (do 5 right; left; reflexivity).
  split; [ exact Hin | ].
  destruct (Validate_custom_validation env_custom_fault sample_persistentFlags
              custom_validateFlags Hin) as (_ & r & Hr & _ & _ & Hc).
  exists r.
  destruct (validateCustomCDXDocument env_custom_fault (document r))
    as [e | ] eqn:E; [ | discriminate E ].
  destruct Hc as (Hv & He & Hi).
  exists (custom_error env_custom_fault (document r) e).
  repeat split; assumption.
Defined.

(** X14. A schema is compiled only after the document was loaded
    without error and passed the test on custom validation, and the
    loader that is compiled is either the reference to the forced file
    or the bytes that were read for the schema which the document
    names, read without error. *)
Theorem Validate_compile_preconditions env pf vf k l :
  In (EvNewSchema k l) (snd (Validate env pf vf)) ->
  let document := fst (LoadInputSbomFileAndDetectSchema env) in
  let read := ReadFile env (File (SchemaInfo document)) in
  snd (LoadInputSbomFileAndDetectSchema env) = None /\
  CustomValidation vf && negb (IsCycloneDx env (FormatInfo document)) = false /\
  ((ForcedJsonSchemaFile vf <> "" /\
    l = NewReferenceLoader ("file://" ++ ForcedJsonSchemaFile vf)) \/
   (ForcedJsonSchemaFile vf = "" /\ snd read = None /\
    l = NewBytesLoader (fst read))).
Proof.
  revert k l.
  apply (Validate_wp env pf vf (fun _ t => forall k l,
    In (EvNewSchema k l) t ->
    let document := fst (LoadInputSbomFileAndDetectSchema env) in
    let read := ReadFile env (File (SchemaInfo document)) in
    snd (LoadInputSbomFileAndDetectSchema env) = None /\
    CustomValidation vf && negb (IsCycloneDx env (FormatInfo document)) = false /\
    ((ForcedJsonSchemaFile vf <> "" /\
      l = NewReferenceLoader ("file://" ++ ForcedJsonSchemaFile vf)) \/
     (ForcedJsonSchemaFile vf = "" /\ snd read = None /\
      l = NewBytesLoader (fst read))))).
  vrun; intros k l Hin;
    (apply (In_filter is_NewSchema) in Hin; [ | reflexivity ]);
    revert Hin; vfilter; intros Hin; cbn [In] in Hin;
    try (destruct Hin; fail);
    apply List.filter_In in Hin; destruct Hin as [Hin _];
    match goal with
    | Hrun : loop_run _ _ _ _ _ _ _ |- _ =>
        pose proof (loop_run_events _ _ _ _ _ _ _ Hrun) as Hev;
        rewrite List.Forall_forall in Hev;
        destruct (Hev _ Hin) as [(k0 & Heq & _) | (e' & Heq)];
        [ injection Heq as _ -> | discriminate Heq ]
    end;
    try match goal with
      | H : LoadInputSbomFileAndDetectSchema _ = _ |- _ => rewrite H
      end;
    cbv zeta; cbn [fst snd];
    try match goal with
      | H : andb _ _ = _ |- _ => cbn in H; discriminate H
      end;
    (split;
       [ reflexivity
       | split;
           [ first
               [ assumption
               | reflexivity
               | match goal with
                 | H : IsCycloneDx _ _ = _ |- _ => rewrite H; reflexivity
                 end ]
           | ] ]);
    first
      [ left; split; [ assumption | reflexivity ]
      | right;
        try match goal with
          | H : ReadFile _ _ = _ |- _ => rewrite H
          end;
        cbn [fst snd];
        split; [ | split; reflexivity ];
        match goal with
        | N : ~ (ForcedJsonSchemaFile vf <> "") |- _ =>
            destruct (decide (ForcedJsonSchemaFile vf = ""));
            [ assumption | contradiction ]
        end ].
Qed.

Lemma Validate_compile_preconditions_witness :
  let run := Validate env_valid sample_persistentFlags (sample_validateFlags "") in
  In (EvNewSchema 0 (NewBytesLoader "{}")) (snd run) /\
  snd (LoadInputSbomFileAndDetectSchema env_valid) = None.
Proof.
  intros run.
  assert (Hin : In (EvNewSchema 0 (NewBytesLoader "{}")) (snd run))
    by (do 2 right; left; reflexivity).
  split; [ exact Hin | ].
  exact (proj1 (Validate_compile_preconditions env_valid
                  sample_persistentFlags (sample_validateFlags "") _ _ Hin)).
Defined.

(** An attempt of the loop that answers without error ends the loop, and
    its answer is what the loop leaves. *)
Lemma loop_run_success env l n i cur r evs :
  loop_run env l n i cur r evs ->
  forall k l', In (EvNewSchema k l') evs ->
               snd (NewSchema env k l') = None ->
               r = NewSchema env k l'.
Proof.
  induction 1 as [ | n i cur E | n i cur errLoad r evs E Hrun IH ];
    intros k l' Hin Hok.
  - destruct Hin.
  - destruct Hin as [[= <- <-] | []]. reflexivity.
  - destruct Hin as [[= <- <-] | [[=] | Hin]]; [ congruence | ].
    now apply IH.
Qed.

(** X15. Validate panics exactly when an attempt to compile the schema
    answered neither a schema nor an error, or the validator answered
    no result: an error of the validator that comes without a result is
    not returned, since [result.Valid()] is called before the error is
    looked at. *)
Theorem Validate_panics_iff env pf vf :
  fst (Validate env pf vf) = Panicked <->
  (exists k l, In (EvNewSchema k l) (snd (Validate env pf vf)) /\
               NewSchema env k l = (None, None)) \/
  (exists sch l, In (EvSchemaValidate sch l) (snd (Validate env pf vf)) /\
                 fst (Schema_Validate env sch l) = None).
Proof.
  apply (Validate_wp env pf vf (fun o t =>
    o = Panicked <->
    (exists k l, In (EvNewSchema k l) t /\ NewSchema env k l = (None, None)) \/
    (exists sch l, In (EvSchemaValidate sch l) t /\
                   fst (Schema_Validate env sch l) = None))).
  vrun;
    (split;
     [ try discriminate; intros _
     | try reflexivity;
       intros [(k & l & Hin & Hk) | (sch & l & Hin & Hr)]; exfalso ]);
    first
      [ (* a compiler that answers nothing *)
        left;
        match goal with
        | Hrun : loop_run _ ?l0 _ _ _ (None, None) _ |- _ =>
            destruct (loop_run_result _ _ _ _ _ _ _ Hrun)
              as [(H0 & _) | [(_ & k & Hin & Hk) | (Hn & _)]];
            [ discriminate H0
            | exists k, l0; split;
              [ rewrite in_app_iff; right; exact Hin | exact Hk ]
            | now destruct Hn ]
        end
      | (* a validator that answers no result *)
        right; eexists _, _; split;
        [ rewrite !in_app_iff; cbn [In]; eauto 10
        | match goal with
          | H : Schema_Validate _ _ _ = _ |- _ => rewrite H; reflexivity
          end ]
      | (* no attempt of a run that returns answered nothing *)
        match goal with
        | Hk : NewSchema _ _ _ = (None, None) |- False =>
            (apply (In_filter is_NewSchema) in Hin; [ | reflexivity ]);
            revert Hin; vfilter; intros Hin; cbn [In] in Hin;
            try (destruct Hin; fail);
            apply List.filter_In in Hin; destruct Hin as [Hin _];
            match goal with
            | Hrun : loop_run _ _ _ _ _ _ _ |- _ =>
                pose proof (loop_run_success _ _ _ _ _ _ _ Hrun _ _ Hin) as Hs
            end;
            rewrite Hk in Hs; specialize (Hs eq_refl); discriminate Hs
        end
      | (* the validator of a run that returns answered a result *)
        match goal with
        | Hr : fst (Schema_Validate _ _ _) = None |- False =>
            (apply (In_filter is_SchemaValidate) in Hin; [ | reflexivity ]);
            revert Hin; vfilter; intros Hin; cbn [In] in Hin;
            try (destruct Hin; fail);
            destruct Hin as [[= <- <-] | []];
            match goal with
            | H : Schema_Validate _ _ _ = _ |- _ => rewrite H in Hr
            end;
            discriminate Hr
        end ].
Qed.

Lemma Validate_panics_iff_witness :
  let run := Validate env_nil_result sample_persistentFlags
               (sample_validateFlags "") in
  (exists sch l, In (EvSchemaValidate sch l) (snd run) /\
                 fst (Schema_Validate env_nil_result sch l) = None) /\
  fst run = Panicked.
Proof.
  intros run.
  assert (H : exists sch l, In (EvSchemaValidate sch l) (snd run) /\
                fst (Schema_Validate env_nil_result sch l) = None).
  { eexists _, _. split; [ do 3 right; left; reflexivity | reflexivity ]. }
  split; [ exact H | ].
  apply (proj2 (Validate_panics_iff env_nil_result sample_persistentFlags
                  (sample_validateFlags ""))).
  right. exact H.
Defined.

(** X16. The validator is run at most once, on the reference to the
    input file, and with the schema that the last attempt to compile
    answered, without error. *)
Theorem Validate_validator_run env pf vf sch l :
  In (EvSchemaValidate sch l) (snd (Validate env pf vf)) ->
  l = documentLoader_of pf /\
  List.filter is_SchemaValidate (snd (Validate env pf vf))
  = [EvSchemaValidate sch l] /\
  exists k sl,
    In (EvNewSchema k sl) (snd (Validate env pf vf)) /\
    NewSchema env k sl = (Some sch, None) /\
    forall k' sl', In (EvNewSchema k' sl') (snd (Validate env pf vf)) -> k' <= k.
Proof.
  revert sch l.
  apply (Validate_wp env pf vf (fun _ t => forall sch l,
    In (EvSchemaValidate sch l) t ->
    l = documentLoader_of pf /\
    List.filter is_SchemaValidate t = [EvSchemaValidate sch l] /\
    exists k sl,
      In (EvNewSchema k sl) t /\
      NewSchema env k sl = (Some sch, None) /\
      forall k' sl', In (EvNewSchema k' sl') t -> k' <= k)).
  vrun; intros sch l Hin;
    (apply (In_filter is_SchemaValidate) in Hin; [ | reflexivity ]);
    revert Hin; vfilter; intros Hin; cbn [In] in Hin;
    try (destruct Hin; fail);
    destruct Hin as [[= <- <-] | []];
    (split; [ reflexivity | split; [ reflexivity | ] ]);
    match goal with
    | Hrun : loop_run _ ?l0 _ _ _ _ _ |- _ =>
        destruct (loop_run_result _ _ _ _ _ _ _ Hrun)
          as [(H0 & _) | [(_ & k & Hk & Hs) | (Hn & _)]];
        [ discriminate H0
        | exists k, l0; split;
          [ cbn [In]; rewrite !in_app_iff; cbn [In]; auto 10
          | split; [ exact Hs | ] ];
          intros k' sl' Hin';
          (apply (In_filter is_NewSchema) in Hin'; [ | reflexivity ]);
          revert Hin'; vfilter; intros Hin'; cbn [In] in Hin';
          apply List.filter_In in Hin'; destruct Hin' as [Hin' _];
          destruct (le_lt_dec k' k) as [Hle | Hlt]; [ exact Hle | ];
          exfalso;
          refine (loop_run_break _ _ _ _ _ _ _ Hrun k l0 Hk _ k' sl' Hlt Hin');
          rewrite Hs; reflexivity
        | now destruct Hn ]
    end.
Qed.

Lemma Validate_validator_run_witness :
  let run := Validate env_second sample_persistentFlags (sample_validateFlags "") in
  In (EvSchemaValidate (MkSchema "compiled")
        (documentLoader_of sample_persistentFlags)) (snd run) /\
  List.filter is_SchemaValidate (snd run)
  = [EvSchemaValidate (MkSchema "compiled")
       (documentLoader_of sample_persistentFlags)].
Proof.
  intros run.
  assert (Hin : In (EvSchemaValidate (MkSchema "compiled")
                      (documentLoader_of sample_persistentFlags)) (snd run))
    by (do 5 right; left; reflexivity).
  split; [ exact Hin | ].
  exact (proj1 (proj2 (Validate_validator_run env_second sample_persistentFlags
                         (sample_validateFlags "") _ _ Hin))).
Defined.

(** X17. The document that Validate returns is the one that was loaded.
    Its [CdxBom] field is overwritten with the answer of
    [UnMarshalDocument] exactly when that function was called, also
    when the call fails; nothing else of it changes. *)
Theorem Validate_document env pf vf r :
  fst (Validate env pf vf) = Returned r ->
  let loaded := fst (LoadInputSbomFileAndDetectSchema env) in
  (In EvUnMarshalDocument (snd (Validate env pf vf)) ->
   document r = set_CdxBom loaded (fst (UnMarshalDocument env loaded))) /\
  (~ In EvUnMarshalDocument (snd (Validate env pf vf)) ->
   document r = loaded).
Proof.
  revert r.
  apply (Validate_wp env pf vf (fun o t => forall r,
    o = Returned r ->
    let loaded := fst (LoadInputSbomFileAndDetectSchema env) in
    (In EvUnMarshalDocument t ->
     document r = set_CdxBom loaded (fst (UnMarshalDocument env loaded))) /\
    (~ In EvUnMarshalDocument t -> document r = loaded))).
  vrun; intros r0 [= <-]; cbv zeta; cbn [document];
    cbn [fst];
    (split;
     [ intros Hin;
       (apply (In_filter is_UnMarshalDocument) in Hin; [ | reflexivity ]);
       revert Hin; vfilter; intros Hin; cbn [In] in Hin;
       try (destruct Hin; fail);
       try match goal with
         | H : UnMarshalDocument _ _ = _ |- _ => rewrite H
         end;
       reflexivity
     | intros Hnot; try reflexivity;
       exfalso; apply Hnot;
       cbn [In]; rewrite !in_app_iff; cbn [In]; auto 10 ]).
Qed.

Lemma Validate_document_witness :
  let run := Validate env_valid sample_persistentFlags custom_validateFlags in
  exists r,
    fst run = Returned r /\
    In EvUnMarshalDocument (snd run) /\
    document r = set_CdxBom sample_document (Some (MkCDXBom "{}")).
Proof.
  intros run.
  exists {| valid := true;
            document := set_CdxBom sample_document (Some (MkCDXBom "{}"));
            schemaErrors := []; err := None |}.
  assert (Hin : In EvUnMarshalDocument (snd run))
    by (do 4 right; left; reflexivity).
  split; [ reflexivity | ]. split; [ exact Hin | ].
  exact (proj1 (Validate_document env_valid sample_persistentFlags
                  custom_validateFlags _ eq_refl) Hin).
Defined.

(** When the errors that come from outside are no [InvalidSBOMError]s,
    a verdict of invalidity (an [InvalidSBOMError], or [valid = false]
    without an error) rests on a run of the validator that answered a
    result without error. *)
Lemma Validate_invalid_cause env pf vf r :
  outside_errors_plain env ->
  fst (Validate env pf vf) = Returned r ->
  match err r with
  | Some e => IsInvalidSBOMError e = true
  | None => valid r = false
  end ->
  exists sch res,
    In (EvSchemaValidate sch (documentLoader_of pf)) (snd (Validate env pf vf)) /\
    Schema_Validate env sch (documentLoader_of pf) = (Some res, None) /\
    (Errors res <> [] \/
     (Errors res = [] /\ CustomValidation vf = false /\ Valid res = false) \/
     (Errors res = [] /\ CustomValidation vf = true /\
      validateCustomCDXDocument env (document r) <> None)).
Proof.
  intros Hplain. revert r.
  apply (Validate_wp env pf vf (fun o t => forall r,
    o = Returned r ->
    match err r with
    | Some e => IsInvalidSBOMError e = true
    | None => valid r = false
    end ->
    exists sch res,
      In (EvSchemaValidate sch (documentLoader_of pf)) t /\
      Schema_Validate env sch (documentLoader_of pf) = (Some res, None) /\
      (Errors res <> [] \/
       (Errors res = [] /\ CustomValidation vf = false /\ Valid res = false) \/
       (Errors res = [] /\ CustomValidation vf = true /\
        validateCustomCDXDocument env (document r) <> None)))).
  vrun; intros r0 [= <-]; cbn [err valid document]; intros Hc;
    try (exfalso;
         first
           [ discriminate Hc
           | destruct Hplain as (P1 & P2 & P3 & P4);
             match goal with
             | Hl : LoadInputSbomFileAndDetectSchema _ = (_, Some ?e) |- _ =>
                 pose proof (P1 e) as Q; rewrite Hl in Q
             | Hl : ReadFile _ ?n = (_, Some ?e) |- _ =>
                 pose proof (P2 n e) as Q; rewrite Hl in Q
             | Hl : Schema_Validate _ ?s ?l = (_, Some ?e) |- _ =>
                 pose proof (P3 s l e) as Q; rewrite Hl in Q
             | Hl : UnMarshalDocument _ ?d = (_, Some ?e) |- _ =>
                 pose proof (P4 d e) as Q; rewrite Hl in Q
             end;
             specialize (Q eq_refl); congruence ];
         fail);
    (eexists _, _; split;
     [ cbn [In]; rewrite !in_app_iff; cbn [In]; eauto 10
     | split; [ eassumption | ] ]);
    first
      [ left; now apply nonempty_true
      | right; left;
        split; [ now apply nonempty_false | ];
        split; [ first [ assumption | reflexivity ] | exact Hc ]
      | right; right;
        split; [ now apply nonempty_false | ];
        split; [ first [ assumption | reflexivity ] | ];
        match goal with
        | H : validateCustomCDXDocument _ _ = _ |- _ => rewrite H
        end;
        discriminate ].
Qed.

(** X18. When [validateCmdImpl] returns nil, so that the program ends
    with the code 0, the output file could be made, Validate returned
    [valid = true] with a nil error, and the validator answered a
    result without error and without violation; the output file, if
    there is one, is closed last. *)
Theorem validateCmdImpl_returns_nil env cenv pf vf :
  fst (validateCmdImpl env cenv pf vf) = ReturnedNil ->
  snd (createOutputFile cenv (OutputFile pf)) = None /\
  (exists r sch res,
     fst (Validate env pf vf) = Returned r /\ err r = None /\ valid r = true /\
     In (EvSchemaValidate sch (documentLoader_of pf)) (snd (Validate env pf vf)) /\
     Schema_Validate env sch (documentLoader_of pf) = (Some res, None) /\
     Errors res = [] /\
     (CustomValidation vf = false -> Valid res = true)) /\
  snd (validateCmdImpl env cenv pf vf)
  = ([EvCreateOutputFile (OutputFile pf);
      EvValidate (snd (Validate env pf vf))]
     ++ match fst (createOutputFile cenv (OutputFile pf)) with
        | Some f => [EvCloseOutputFile f]
        | None => []
        end)%list.
Proof.
  pose proof (Validate_valid_sound env pf vf) as Hsound.
  unfold validateCmdImpl.
  destruct (createOutputFile cenv (OutputFile pf)) as [outputFile [e | ]];
    cbn [fst snd]; [ discriminate | ].
  destruct (Validate env pf vf) as [[r | ] inner]; cbn [fst snd] in *;
    [ | discriminate ].
  destruct (err r) as [e | ] eqn:Eerr;
    [ destruct (IsInvalidSBOMError e); discriminate | ].
  destruct (valid r) eqn:Ev; cbn [negb fst snd]; [ | discriminate ].
  intros _. split; [ reflexivity | ]. split; [ | reflexivity ].
  destruct (Hsound r eq_refl Eerr Ev) as (sch & res & Hin & Hv & He & Hc).
  exists r, sch, res. repeat split; assumption.
Qed.

Lemma validateCmdImpl_returns_nil_witness :
  let run := validateCmdImpl env_valid sample_cmd_env
               {| InputFile := "bom.json"; OutputFile := "report.txt";
                  OutputFormat := "txt" |} (sample_validateFlags "") in
  fst run = ReturnedNil /\
  last (snd run) = Some (EvCloseOutputFile "report.txt").
Proof.
  intros run. split; [ reflexivity | ]. unfold run.
  rewrite (proj2 (proj2 (validateCmdImpl_returns_nil env_valid sample_cmd_env
                           {| InputFile := "bom.json"; OutputFile := "report.txt";
                              OutputFormat := "txt" |}
                           (sample_validateFlags "") eq_refl))).
  reflexivity.
Defined.

(** X19. When the errors that come from outside are no
    [InvalidSBOMError]s and the two codes differ, [validateCmdImpl]
    ends the program with [ERROR_VALIDATION] only after the validator
    has answered a result without error for the document: it answered
    violations, or a verdict of invalidity, or the custom validation
    found a fault. The output file is not closed on this path. *)
Theorem validateCmdImpl_exit_validation env cenv pf vf :
  outside_errors_plain env ->
  ERROR_VALIDATION cenv <> ERROR_APPLICATION cenv ->
  fst (validateCmdImpl env cenv pf vf) = Exited (ERROR_VALIDATION cenv) ->
  snd (createOutputFile cenv (OutputFile pf)) = None /\
  (exists r sch res,
     fst (Validate env pf vf) = Returned r /\
     In (EvSchemaValidate sch (documentLoader_of pf)) (snd (Validate env pf vf)) /\
     Schema_Validate env sch (documentLoader_of pf) = (Some res, None) /\
     (Errors res <> [] \/
      (Errors res = [] /\ CustomValidation vf = false /\ Valid res = false) \/
      (Errors res = [] /\ CustomValidation vf = true /\
       validateCustomCDXDocument env (document r) <> None))) /\
  forall f, ~ In (EvCloseOutputFile f) (snd (validateCmdImpl env cenv pf vf)).
Proof.
  intros Hplain Hneq.
  pose proof (Validate_invalid_cause env pf vf) as Hcause.
  unfold validateCmdImpl.
  destruct (createOutputFile cenv (OutputFile pf)) as [outputFile [e | ]];
    cbn [fst snd]; [ intros [= H]; congruence | ].
  destruct (Validate env pf vf) as [[r | ] inner]; cbn [fst snd] in *;
    [ | discriminate ].
  specialize (Hcause r Hplain eq_refl).
  destruct (err r) as [e | ] eqn:Eerr;
    [ destruct (IsInvalidSBOMError e) eqn:Ei
    | destruct (valid r) eqn:Ev ];
    cbn [negb fst snd]; intros Hx;
    try discriminate Hx;
    try (injection Hx as Hx'; congruence);
    (split; [ reflexivity | ]);
    (split;
     [ destruct (Hcause eq_refl) as (sch & res & Hin & Hv & Hc);
       exists r, sch, res; repeat split; assumption
     | intros f [[=] | [[=] | []]] ]).
Qed.

Lemma validateCmdImpl_exit_validation_witness :
  let run := validateCmdImpl env_violation sample_cmd_env
               sample_persistentFlags (sample_validateFlags "") in
  outside_errors_plain env_violation /\
  fst run = Exited 2 /\
  forall f, ~ In (EvCloseOutputFile f) (snd run).
Proof.
  intros run.
  assert (Hplain : outside_errors_plain env_violation)
    by (repeat split; intros; discriminate).
  assert (Hneq : ERROR_VALIDATION sample_cmd_env
                 <> ERROR_APPLICATION sample_cmd_env) by discriminate.
  split; [ exact Hplain | ]. split; [ reflexivity | ].
  exact (proj2 (proj2 (validateCmdImpl_exit_validation env_violation
                         sample_cmd_env sample_persistentFlags
                         (sample_validateFlags "") Hplain Hneq eq_refl))).
Defined.

End ValidateMore.
